(** * Tiny Templates: a shallow embedding of the plugin and its properties

    The repository holds two revisions of the plugin's [main.ts]:
    - [src/main.ts], the earlier revision (no title format, UTC date stamp,
      categories read from [Object.keys] while navigating);
    - [src/unnamed/part_000], the later revision (title format, local date
      stamp, [sortedCategories] stored once and reused).

    Code common to both revisions is embedded once ([TinyTemplatesModal],
    [PickerCommon], [TinyTemplatesSettingTab], [Engine], [DateFields],
    [DateFieldsModal], [SuggestModal], [TemplateList]); code that differs
    lives in [MainTs], [MainTsEngine] and [Commands] for the earlier
    revision, in [Part000], [TitleFormatModal], [Part000Engine] and [Plugin]
    for the later one.

    The JavaScript runtime and the host application are modelled by the small
    libraries [JS], [Host], [Vault] and [MetadataCache].  The collation of the host,
    [localeCompare], is a parameter; the local zone has a constant offset
    from UTC (no daylight saving), also a parameter.  The host may reject
    each call of the engine that returns a promise ([Vault.rejects]).

    The program keeps several dictionaries in plain objects, whose reads go
    through [Object.prototype].  Where the key is a name that the vault
    gives (the category of a template, a key of the front matter) or any
    text (the path handed to [createFileFromTemplate]), the inherited names
    are modelled ([JS.inherited]): a read finds the inherited member, a push
    to it throws.  The entries of [settings.templates] are otherwise read
    by the paths of files below the template folder, which hold a slash and
    so name no inherited member; they are kept as a map.

    The embedding comes first, then the notions that the properties are
    stated with, then the properties. *)

From Stdlib Require Import ZArith Lia String Ascii List DecimalString QArith Qround.
From stdpp Require Import base option list strings gmap sorting.

Local Open Scope string_scope.
Local Open Scope Z_scope.

(** ** JavaScript runtime *)

Module JS.

(** *** Strings *)

(** [String(n)] for an integral number: its decimal numeral. *)
Definition String_of (n : Z) : string := NilZero.string_of_int (Z.to_int n).

Fixpoint repeat_char (c : ascii) (n : nat) : string :=
  match n with
  | O => EmptyString
  | S k => String c (repeat_char c k)
  end.

(** [s.padStart(n, c)] with a one-character filler [c]. *)
Definition padStart (n : nat) (c : ascii) (s : string) : string :=
  repeat_char c (n - String.length s) +:+ s.

(** [s.replace(/pat/g, rep)] for a pattern that is a literal, non-empty text
    and a replacement without [$]: the matches are found left to right and do
    not overlap.  [skip] counts the characters of a match still to be
    dropped. *)
Fixpoint replace_go (pat rep : string) (skip : nat) (s : string) : string :=
  match s with
  | EmptyString => EmptyString
  | String c s' =>
      match skip with
      | S k => replace_go pat rep k s'
      | O =>
          if String.prefix pat s
          then rep +:+ replace_go pat rep (String.length pat - 1) s'
          else String c (replace_go pat rep 0 s')
      end
  end.

Definition replaceAll (pat rep s : string) : string := replace_go pat rep 0 s.

(** [s.slice(0, n)]. *)
Definition slice0 (n : nat) (s : string) : string := String.substring 0 n s.

(** *** Arrays *)

(** [a[i]] for a number [i]: [undefined] outside [0 .. a.length - 1]. *)
Definition index {A} (a : list A) (i : Z) : option A :=
  if i <? 0 then None else a !! Z.to_nat i.

(** [a.length] as a number. *)
Definition len {A} (a : list A) : Z := Z.of_nat (length a).

(** [a.sort(cmp)]: the sort is stable; [cmp x y <= 0] keeps [x] before [y]. *)
Section Sort.
Context {A : Type} (cmp : A -> A -> Z).

Fixpoint sort_insert (x : A) (l : list A) : list A :=
  match l with
  | [] => [x]
  | y :: l' => if cmp x y <=? 0 then x :: y :: l' else y :: sort_insert x l'
  end.

Definition sort (l : list A) : list A := foldr sort_insert [] l.
End Sort.

(** *** [Map] objects with text keys

    Entries are kept in insertion order; [set] on a present key replaces the
    value in place. *)
Definition Map (V : Type) : Type := list (string * V).

Fixpoint Map_get {V} (m : Map V) (k : string) : option V :=
  match m with
  | [] => None
  | (k', v) :: m' => if String.eqb k' k then Some v else Map_get m' k
  end.

Fixpoint Map_set {V} (m : Map V) (k : string) (v : V) : Map V :=
  match m with
  | [] => [(k, v)]
  | (k', v') :: m' =>
      if String.eqb k' k then (k', v) :: m' else (k', v') :: Map_set m' k v
  end.

(** *** Objects used as dictionaries, where key order is observable

    [Object.keys] lists the keys that are array indices first, in ascending
    numeric order, then the other keys in insertion order. *)
Definition Obj (V : Type) : Type := list (string * V).

(** [o[k]] and [o[k] = v]: an existing key keeps its place. *)
Definition obj_get {V} (o : Obj V) (k : string) : option V := Map_get o k.
Definition obj_set {V} (o : Obj V) (k : string) (v : V) : Obj V := Map_set o k v.

(** The names that an object literal, or an object read by [JSON.parse],
    inherits from [Object.prototype].  Read on an object without own
    property of that name, each of them gives the inherited member: a
    function or, for [__proto__], the prototype itself.  All these members
    are truthy, none is an array and none has a property that the program
    reads.  An assignment of a value that is not an object to [__proto__]
    stores nothing. *)
Definition Object_prototype_names : list string :=
  [ "constructor"; "__defineGetter__"; "__defineSetter__"; "hasOwnProperty";
    "__lookupGetter__"; "__lookupSetter__"; "isPrototypeOf";
    "propertyIsEnumerable"; "toString"; "valueOf"; "__proto__";
    "toLocaleString" ].

Definition inherited (k : string) : bool :=
  bool_decide (k ∈ Object_prototype_names).

(** [if (!o[k]) o[k] = []; o[k].push(x)] on an object [o] that holds
    arrays.  For a name [k] that is no key of [o] and that [o] inherits,
    [o[k]] is the inherited member, so no array is stored, and [push], which
    the member does not have, throws a [TypeError]: [None]. *)
Definition obj_push {A} (o : Obj (list A)) (k : string) (x : A)
  : option (Obj (list A)) :=
  match obj_get o k with
  | Some l => Some (obj_set o k (l ++ [x])%list)
  | None => if inherited k then None else Some (obj_set o k [x])
  end.

Definition is_digit (c : ascii) : bool :=
  let n := nat_of_ascii c in ((48 <=? n) && (n <=? 57))%nat.

Fixpoint all_digits (s : string) : bool :=
  match s with
  | EmptyString => true
  | String c s' => is_digit c && all_digits s'
  end.

Fixpoint digits_value (acc : Z) (s : string) : Z :=
  match s with
  | EmptyString => acc
  | String c s' => digits_value (10 * acc + (Z.of_nat (nat_of_ascii c) - 48)) s'
  end.

(** A key is an array index when it is the canonical numeral of an integer in
    [0 .. 2^32 - 2]. *)
Definition array_index (k : string) : option Z :=
  match k with
  | EmptyString => None
  | String c rest =>
      if all_digits k
         && (negb (Ascii.eqb c "0") || String.eqb rest "")
         && (String.length k <=? 10)%nat
         && (digits_value 0 k <? 4294967295)
      then Some (digits_value 0 k)
      else None
  end.

Definition index_keys {V} (o : Obj V) : list (Z * string) :=
  omap (fun kv => match array_index kv.1 with
                  | Some n => Some (n, kv.1)
                  | None => None
                  end) o.

Definition name_keys {V} (o : Obj V) : list string :=
  omap (fun kv => match array_index kv.1 with
                  | Some _ => None
                  | None => Some kv.1
                  end) o.

Definition Object_keys {V} (o : Obj V) : list string :=
  (sort (fun a b => a.1 - b.1) (index_keys o)).*2 ++ name_keys o.

(** *** Numbers that need not be integral

    The only non-integral numbers of the program are quotients of integers by
    [86400000] and by [7] (the week of the year).  They are kept as exact
    rationals: every such value is a multiple of [1 / 604800000], hence either
    an integer, computed exactly in double precision, or further from every
    integer than the rounding error of the three operations involved, so
    [Math.ceil] returns the same integer on the double and on the rational. *)
Definition Math_ceil (x : Q) : Z := Qceiling x.

(** [Math.floor(a / b)] and [Math.min(a, b)] for integers. *)
Definition Math_floor_div (a b : Z) : Z := a / b.
Definition Math_min (a b : Z) : Z := Z.min a b.

(** *** Dates

    A [Date] is an instant, in milliseconds since the epoch.  The local zone
    of the host is taken to have a constant offset [tz], in minutes east of
    UTC. *)
Record Date : Type := mkDate { getTime : Z }.

Definition msPerDay : Z := 86400000.

(** Day number (days since 1970-01-01) to proleptic Gregorian year, month
    (1 to 12) and day of month, and back. *)
Definition civil_from_days (z : Z) : Z * Z * Z :=
  let z := z + 719468 in
  let era := z / 146097 in
  let doe := z - era * 146097 in
  let yoe := (doe - doe / 1460 + doe / 36524 - doe / 146096) / 365 in
  let y := yoe + era * 400 in
  let doy := doe - (365 * yoe + yoe / 4 - yoe / 100) in
  let mp := (5 * doy + 2) / 153 in
  let d := doy - (153 * mp + 2) / 5 + 1 in
  let m := if mp <? 10 then mp + 3 else mp - 9 in
  (if m <=? 2 then y + 1 else y, m, d).

Definition days_from_civil (y m d : Z) : Z :=
  let y := if m <=? 2 then y - 1 else y in
  let era := y / 400 in
  let yoe := y - era * 400 in
  let doy := (153 * (if 2 <? m then m - 3 else m + 9) + 2) / 5 + d - 1 in
  let doe := yoe * 365 + yoe / 4 - yoe / 100 + doy in
  era * 146097 + doe - 719468.

Definition pad2 (n : Z) : string := padStart 2 "0" (String_of n).

(** The local zone, as an offset of [tz] minutes east of UTC that is the
    same at every instant.  A zone with daylight saving has two offsets in a
    year and is not covered: there the local midnight of January 1 and the
    local time of [now] are taken with different offsets. *)
Section LocalZone.
Variable tz : Z.

Definition localTime (d : Date) : Z := getTime d + tz * 60000.
Definition localDay (d : Date) : Z := localTime d / msPerDay.

Definition getFullYear (d : Date) : Z := (civil_from_days (localDay d)).1.1.
(** [getMonth] counts from 0. *)
Definition getMonth (d : Date) : Z := (civil_from_days (localDay d)).1.2 - 1.
Definition getDate (d : Date) : Z := (civil_from_days (localDay d)).2.
(** [getDay]: 0 is Sunday; 1970-01-01 was a Thursday. *)
Definition getDay (d : Date) : Z := (localDay d + 4) mod 7.

(** [new Date(year, monthIndex, day)], local midnight, for a month index in
    [0 .. 11]; a year in [0 .. 99] stands for [1900 + year]. *)
Definition new_Date_ymd (year monthIndex day : Z) : Date :=
  let y := if (0 <=? year) && (year <=? 99) then 1900 + year else year in
  mkDate (days_from_civil y (monthIndex + 1) day * msPerDay - tz * 60000).
End LocalZone.

(** [toISOString]: the UTC fields, ["YYYY-MM-DDTHH:mm:ss.sssZ"], the year
    signed and six digits wide outside [0 .. 9999]. *)
Definition toISOString (d : Date) : string :=
  let t := getTime d in
  let '(y, m, dd) := civil_from_days (t / msPerDay) in
  let r := t mod msPerDay in
  let ys :=
    if (0 <=? y) && (y <=? 9999) then padStart 4 "0" (String_of y)
    else (if y <? 0 then "-" else "+") +:+ padStart 6 "0" (String_of (Z.abs y)) in
  ys +:+ "-" +:+ pad2 m +:+ "-" +:+ pad2 dd +:+ "T"
     +:+ pad2 (r / 3600000) +:+ ":" +:+ pad2 (r / 60000 mod 60) +:+ ":"
     +:+ pad2 (r / 1000 mod 60) +:+ "." +:+ padStart 3 "0" (String_of (r mod 1000))
     +:+ "Z".

End JS.


(** ** The host application: files and folders *)

Module Host.

(** [TFile] and [TFolder], the two kinds of [TAbstractFile].  A file has a
    [path], a [name] and a [basename] (the name without its extension); a
    folder has a [path], a [name] and its [children]. *)
#[warnings="-register-all"] Inductive TAbstractFile : Type :=
| TFile (path name basename : string)
| TFolder (path name : string) (children : list TAbstractFile).

Definition path (f : TAbstractFile) : string :=
  match f with TFile p _ _ => p | TFolder p _ _ => p end.

Definition name (f : TAbstractFile) : string :=
  match f with TFile _ n _ => n | TFolder _ n _ => n end.

(** The host keeps [path] equal to the parent's path, a slash and the name,
    for every entry below a folder other than the vault root; names are not
    empty. *)
Fixpoint well_formed_below (parent : string) (f : TAbstractFile) : bool :=
  match f with
  | TFile p n _ => String.eqb p (parent +:+ "/" +:+ n) && negb (String.eqb n "")
  | TFolder p n cs =>
      String.eqb p (parent +:+ "/" +:+ n) && negb (String.eqb n "")
      && forallb (well_formed_below p) cs
  end.

Definition well_formed_root (f : TAbstractFile) : bool :=
  match f with
  | TFile _ _ _ => false
  | TFolder p _ cs => forallb (well_formed_below p) cs
  end.

(** [vault.getAbstractFileByPath], searching the tree below [f]. *)
Fixpoint getAbstractFileByPath (f : TAbstractFile) (p : string)
  : option TAbstractFile :=
  if String.eqb (path f) p then Some f
  else
    match f with
    | TFile _ _ _ => None
    | TFolder _ _ cs =>
        (fix among (l : list TAbstractFile) : option TAbstractFile :=
           match l with
           | [] => None
           | c :: l' =>
               match getAbstractFileByPath c p with
               | Some r => Some r
               | None => among l'
               end
           end) cs
    end.

End Host.

(** ** Plugin settings *)

Module Settings.

(** One entry of [TinyTemplatesSettings.templates].  [titleFormat] exists in
    the later revision only, [isCommandRegistered] in the earlier one only. *)
Record TemplateSettings : Type := mkTemplateSettings {
  name : string;
  targetFolder : option string;
  dateFields : option (gmap string bool);
  titleFormat : option string;
  isCommandRegistered : option bool
}.

Record TinyTemplatesSettings : Type := mkSettings {
  templateFolder : string;
  templates : gmap string TemplateSettings
}.

Definition DEFAULT_SETTINGS : TinyTemplatesSettings := mkSettings "" ∅.

(** [{ name: basename }]. *)
Definition only_name (n : string) : TemplateSettings :=
  mkTemplateSettings n None None None None.

Definition set_name (n : string) (t : TemplateSettings) : TemplateSettings :=
  mkTemplateSettings n (targetFolder t) (dateFields t) (titleFormat t)
    (isCommandRegistered t).

Definition set_dateFields (d : gmap string bool) (t : TemplateSettings)
  : TemplateSettings :=
  mkTemplateSettings (name t) (targetFolder t) (Some d) (titleFormat t)
    (isCommandRegistered t).

(** The step shared by both folder scans:
    [if (!templates[p]) templates[p] = { name: b } else templates[p].name = b]. *)
Definition ensure_template (p b : string) (s : TinyTemplatesSettings)
  : TinyTemplatesSettings :=
  match templates s !! p with
  | None => mkSettings (templateFolder s) (<[p := only_name b]> (templates s))
  | Some t => mkSettings (templateFolder s) (<[p := set_name b t]> (templates s))
  end.

Definition EXCLUDED_FIELDS : list string := ["tags"; "aliases"; "cssclasses"].

End Settings.

(** The value type of the [templates] maps of the picker and of the settings
    page. *)
Record TemplateInfo : Type := mkTemplateInfo { path : string; category : string }.

(** ** The template picker *)

Module TinyTemplatesModal.

(** The fields of the picker.  [selectedTemplate] is [None] for [null] and
    for [undefined]; [sortedCategories] exists in the later revision only and
    stays empty in the earlier one. *)
Record Modal : Type := mkModal {
  templates : JS.Map TemplateInfo;
  selectedTemplate : option string;
  currentCategoryIndex : Z;
  currentTemplateIndex : Z;
  categorizedTemplates : JS.Obj (list string);
  sortedCategories : list string
}.

(** The constructor. *)
Definition new_Modal : Modal := mkModal [] None 0 0 [] [].

Definition set_templates (t : JS.Map TemplateInfo) (m : Modal) : Modal :=
  mkModal t (selectedTemplate m) (currentCategoryIndex m)
    (currentTemplateIndex m) (categorizedTemplates m) (sortedCategories m).

Definition set_categorizedTemplates (c : JS.Obj (list string)) (m : Modal)
  : Modal :=
  mkModal (templates m) (selectedTemplate m) (currentCategoryIndex m)
    (currentTemplateIndex m) c (sortedCategories m).

Definition set_sortedCategories (l : list string) (m : Modal) : Modal :=
  mkModal (templates m) (selectedTemplate m) (currentCategoryIndex m)
    (currentTemplateIndex m) (categorizedTemplates m) l.

(** [scanFolder(folder, category, basePath)], the same in both revisions; it
    writes to the plugin settings and to [this.templates].  [relativePath],
    computed from [basePath] and never used, is left out. *)
Fixpoint scanFolder (folder : Host.TAbstractFile) (category : string)
  (st : Settings.TinyTemplatesSettings * Modal)
  : Settings.TinyTemplatesSettings * Modal :=
  match folder with
  | Host.TFile _ _ _ => st
  | Host.TFolder fpath _ children =>
      let isTemplateRoot :=
        String.eqb fpath (Settings.templateFolder st.1) in
      (fix each (l : list Host.TAbstractFile)
           (st : Settings.TinyTemplatesSettings * Modal) :=
         match l with
         | [] => st
         | child :: l' =>
             each l'
               match child with
               | Host.TFolder _ cname _ => scanFolder child cname st
               | Host.TFile cpath _ cbasename =>
                   let templateCategory :=
                     if isTemplateRoot then "" else category in
                   (Settings.ensure_template cpath cbasename st.1,
                    set_templates
                      (JS.Map_set (templates st.2) cpath
                         (mkTemplateInfo cpath templateCategory))
                      st.2)
               end
         end) children st
  end.

(** [selectTemplate(categoryIndex, templateIndex, templatePath)]; the changes
    to the cards on screen are not modelled. *)
Definition selectTemplate (categoryIndex templateIndex : Z)
  (templatePath : option string) (m : Modal) : Modal :=
  mkModal (templates m) templatePath categoryIndex templateIndex
    (categorizedTemplates m) (sortedCategories m).

(** [this.categorizedTemplates[key] || []], where [key] is an element of an
    array of categories, [undefined] when read out of range; an undefined key
    reads the property named ["undefined"].  The arrays of categories are
    made of keys of the index, and the grouping loop stores no key that
    names a member of [Object.prototype]; the read is that of an own
    property. *)
Definition templates_of (m : Modal) (key : option string) : list string :=
  default [] (JS.obj_get (categorizedTemplates m) (default "undefined" key)).

(** [navigateWithinCategory(direction)], over the array [categories] that the
    revision uses: [Object.keys(this.categorizedTemplates)] in the earlier
    one, [this.sortedCategories] in the later one.  The text of the method is
    otherwise the same. *)
Definition navigateWithinCategory_over (categories : list string)
  (direction : Z) (m : Modal) : Modal :=
  if JS.len categories =? 0 then m
  else
    let currentCategoryTemplates :=
      templates_of m (JS.index categories (currentCategoryIndex m)) in
    let newTemplateIndex := currentTemplateIndex m + direction in
    let newCategoryIndex := currentCategoryIndex m in
    let '(newCategoryIndex, newTemplateIndex) :=
      if newTemplateIndex <? 0 then
        let newCategoryIndex :=
          Z.rem (newCategoryIndex - 1 + JS.len categories) (JS.len categories) in
        let prevTemplates :=
          templates_of m (JS.index categories newCategoryIndex) in
        (newCategoryIndex, JS.len prevTemplates - 1)
      else if JS.len currentCategoryTemplates <=? newTemplateIndex then
        (Z.rem (newCategoryIndex + 1) (JS.len categories), 0)
      else (newCategoryIndex, newTemplateIndex) in
    let newTemplates := templates_of m (JS.index categories newCategoryIndex) in
    if 0 <? JS.len newTemplates then
      selectTemplate newCategoryIndex newTemplateIndex
        (JS.index newTemplates newTemplateIndex) m
    else m.

(** The comparison that orders the categories: the empty label first, then
    [localeCompare]. *)
Definition compareCategories (localeCompare : string -> string -> Z)
  (a b : string) : Z :=
  if String.eqb a "" then -1
  else if String.eqb b "" then 1
  else localeCompare a b.

(** One round of the grouping loop of [loadTemplates], for an entry of
    [this.templates] and the index [o]:
    [if (!o[category]) o[category] = []; o[category].push(templatePath)],
    with the empty category for a file without category.  The index is a
    plain object: the round throws for a category that names a member of
    [Object.prototype]. *)
Definition group_template (o : JS.Obj (list string))
  (e : string * TemplateInfo) : option (JS.Obj (list string)) :=
  let templatePath := e.1 in
  let category := category e.2 in
  JS.obj_push o category templatePath.

(** The grouping loop, from the index [o]: the index as the loop leaves it,
    and whether the loop ended by throwing. *)
Fixpoint group_templates (o : JS.Obj (list string))
  (entries : JS.Map TemplateInfo) : JS.Obj (list string) * bool :=
  match entries with
  | [] => (o, false)
  | e :: entries =>
      match group_template o e with
      | Some o => group_templates o entries
      | None => (o, true)
      end
  end.

(** The loop that sorts the templates of each category by file name:
    [getAbstractFileByPath(a)?.name || ''] compared by [localeCompare]. *)
Definition sort_each_category (localeCompare : string -> string -> Z)
  (vault : Host.TAbstractFile) (o : JS.Obj (list string))
  : JS.Obj (list string) :=
  let name_of p := default "" (Host.name <$> Host.getAbstractFileByPath vault p) in
  (fun kv => (kv.1, JS.sort (fun a b => localeCompare (name_of a) (name_of b)) kv.2))
    <$> o.

(** One card of the rendered list: its path and the two indices it carries. *)
Record Card : Type := mkCard {
  card_path : string;
  card_categoryIndex : Z;
  card_templateIndex : Z
}.

(** The body of [renderTemplateList] after the array of categories is chosen:
    one group per category, in order, with one card per template whose path
    still names a file. *)
Definition render_categories (vault : Host.TAbstractFile) (m : Modal)
  (categories : list string) : list (string * list Card) :=
  imap (fun categoryIndex category =>
          let templatePaths :=
            default [] (JS.obj_get (categorizedTemplates m) category) in
          (category,
           omap id
             (imap (fun templateIndex templatePath =>
                      match Host.getAbstractFileByPath vault templatePath with
                      | Some (Host.TFile _ _ _) =>
                          Some (mkCard templatePath (Z.of_nat categoryIndex)
                                  (Z.of_nat templateIndex))
                      | _ => None
                      end) templatePaths)))
       categories.

(** The arrow keys registered by [onOpen]. *)
Inductive Key : Type := ArrowUp | ArrowDown | ArrowLeft | ArrowRight.

End TinyTemplatesModal.

(** The double quote, for the texts of the notices. *)
Definition dq : string := String (ascii_of_nat 34) EmptyString.

(** The parts of [loadTemplates] and of the key handlers that the two
    revisions share.  [localeCompare] stands for
    [a.localeCompare(b, 'zh-CN')], the collation of the host. *)
Module PickerCommon.
Import TinyTemplatesModal.

Definition notice_no_template_folder (templateFolder : string) : string :=
  "模板目录" +:+ dq +:+ templateFolder +:+ dq +:+ "不存在！".

(** The end of [loadTemplates]: the cursor is reset and, when the first
    category of [categories] holds a template, that template is selected. *)
Definition reset_selection (categories : list string) (m : Modal) : Modal :=
  let m := selectTemplate 0 0 None m in
  match categories with
  | [] => m
  | firstCategory :: _ =>
      match JS.obj_get (categorizedTemplates m) firstCategory with
      | Some l =>
          if 0 <? JS.len l then selectTemplate 0 0 (JS.index l 0) m else m
      | None => m
      end
  end.

(** How far [loadTemplates] has got after the sort of each category: it has
    returned before the scan, or the grouping loop has thrown, or the
    categories are grouped and sorted. *)
Inductive Progress : Type := Returned | Threw | Grouped.

(** [loadTemplates] up to and including the sort of each category, with the
    notice it shows, if any, and how far it has got.  When the grouping loop
    throws, the picker stays as the loop leaves it: the error is not caught
    in [loadTemplates]. *)
Definition scan_and_group (localeCompare : string -> string -> Z)
  (vault : Host.TAbstractFile)
  (st : Settings.TinyTemplatesSettings * Modal)
  : Settings.TinyTemplatesSettings * Modal * list string * Progress :=
  let m := set_categorizedTemplates [] (set_templates [] st.2) in
  let templateFolder := Settings.templateFolder st.1 in
  if String.eqb templateFolder "" then (st.1, m, [], Returned)
  else
    match Host.getAbstractFileByPath vault templateFolder with
    | Some (Host.TFolder _ _ _ as folder) =>
        let st' := scanFolder folder "" (st.1, m) in
        let '(grouped, threw) := group_templates [] (templates st'.2) in
        if threw then (st'.1, set_categorizedTemplates grouped st'.2, [], Threw)
        else
          (st'.1,
           set_categorizedTemplates
             (sort_each_category localeCompare vault grouped) st'.2,
           [], Grouped)
    | _ => (st.1, m, [notice_no_template_folder templateFolder], Returned)
    end.

End PickerCommon.

(** ** The picker of the earlier revision ([src/main.ts]) *)

Module MainTs.
Import TinyTemplatesModal PickerCommon.

(** [loadTemplates]: the sorted categories are a local constant, used for the
    first selection only.  The result is the picker as the method leaves it,
    by returning or by throwing. *)
Definition loadTemplates (localeCompare : string -> string -> Z)
  (vault : Host.TAbstractFile)
  (st : Settings.TinyTemplatesSettings * Modal)
  : Settings.TinyTemplatesSettings * Modal * list string :=
  let '(s, m, notices, progress) := scan_and_group localeCompare vault st in
  match progress with
  | Grouped =>
      let categories :=
        JS.sort (compareCategories localeCompare)
          (JS.Object_keys (categorizedTemplates m)) in
      (s, reset_selection categories m, notices)
  | _ => (s, m, notices)
  end.

(** [renderTemplateList] sorts the keys again. *)
Definition renderTemplateList (localeCompare : string -> string -> Z)
  (vault : Host.TAbstractFile) (m : Modal) : list (string * list Card) :=
  let categories :=
    JS.sort (compareCategories localeCompare)
      (JS.Object_keys (categorizedTemplates m)) in
  render_categories vault m categories.

(** [navigateCategory(direction)]: the keys as [Object.keys] lists them; the
    last template of the new category when moving up, the first otherwise. *)
Definition navigateCategory (direction : Z) (m : Modal) : Modal :=
  let categories := JS.Object_keys (categorizedTemplates m) in
  if JS.len categories =? 0 then m
  else
    let newCategoryIndex :=
      Z.rem (currentCategoryIndex m + direction + JS.len categories)
        (JS.len categories) in
    let newTemplates := templates_of m (JS.index categories newCategoryIndex) in
    if 0 <? JS.len newTemplates then
      let templateIndex :=
        if direction <? 0 then JS.len newTemplates - 1 else 0 in
      selectTemplate newCategoryIndex templateIndex
        (JS.index newTemplates templateIndex) m
    else m.

Definition navigateWithinCategory (direction : Z) (m : Modal) : Modal :=
  navigateWithinCategory_over (JS.Object_keys (categorizedTemplates m))
    direction m.

(** The handlers that [onOpen] registers for the arrow keys. *)
Definition press (k : Key) (m : Modal) : Modal :=
  match k with
  | ArrowUp => navigateCategory (-1) m
  | ArrowDown => navigateCategory 1 m
  | ArrowLeft => navigateWithinCategory (-1) m
  | ArrowRight => navigateWithinCategory 1 m
  end.

End MainTs.

(** ** The picker of the later revision ([src/unnamed/part_000]) *)

Module Part000.
Import TinyTemplatesModal PickerCommon.

(** [loadTemplates]: the sorted categories are stored in
    [this.sortedCategories].  The result is the picker as the method leaves
    it, by returning or by throwing. *)
Definition loadTemplates (localeCompare : string -> string -> Z)
  (vault : Host.TAbstractFile)
  (st : Settings.TinyTemplatesSettings * Modal)
  : Settings.TinyTemplatesSettings * Modal * list string :=
  let '(s, m, notices, progress) := scan_and_group localeCompare vault st in
  match progress with
  | Grouped =>
      let m :=
        set_sortedCategories
          (JS.sort (compareCategories localeCompare)
             (JS.Object_keys (categorizedTemplates m))) m in
      (s, reset_selection (sortedCategories m) m, notices)
  | _ => (s, m, notices)
  end.

(** [renderTemplateList] reads the stored list. *)
Definition renderTemplateList (vault : Host.TAbstractFile) (m : Modal)
  : list (string * list Card) :=
  render_categories vault m (sortedCategories m).

(** [navigateCategory(direction)]: the stored list; the template at the same
    position in the new category, or its last one. *)
Definition navigateCategory (direction : Z) (m : Modal) : Modal :=
  if JS.len (sortedCategories m) =? 0 then m
  else
    let currentIndex := currentTemplateIndex m in
    let newCategoryIndex :=
      Z.rem (currentCategoryIndex m + direction + JS.len (sortedCategories m))
        (JS.len (sortedCategories m)) in
    let newTemplates :=
      templates_of m (JS.index (sortedCategories m) newCategoryIndex) in
    if 0 <? JS.len newTemplates then
      let templateIndex := JS.Math_min currentIndex (JS.len newTemplates - 1) in
      selectTemplate newCategoryIndex templateIndex
        (JS.index newTemplates templateIndex) m
    else m.

Definition navigateWithinCategory (direction : Z) (m : Modal) : Modal :=
  navigateWithinCategory_over (sortedCategories m) direction m.

Definition press (k : Key) (m : Modal) : Modal :=
  match k with
  | ArrowUp => navigateCategory (-1) m
  | ArrowDown => navigateCategory 1 m
  | ArrowLeft => navigateWithinCategory (-1) m
  | ArrowRight => navigateWithinCategory 1 m
  end.

End Part000.

(** ** The settings page *)

Module TinyTemplatesSettingTab.

(** The two maps of the settings page. *)
Record Tab : Type := mkTab {
  templateFolders : JS.Map (list string);
  templates : JS.Map TemplateInfo
}.

(** [scanFolder(folder, category, allFolderPaths)], the same in both
    revisions.  The entries of [this.templates] are keyed by basename. *)
Fixpoint scanFolder (folder : Host.TAbstractFile) (category : string)
  (allFolderPaths : list string)
  (st : Settings.TinyTemplatesSettings * Tab)
  : Settings.TinyTemplatesSettings * Tab :=
  match folder with
  | Host.TFile _ _ _ => st
  | Host.TFolder fpath _ children =>
      let isTemplateRoot :=
        String.eqb fpath (Settings.templateFolder st.1) in
      (fix each (l : list Host.TAbstractFile)
           (st : Settings.TinyTemplatesSettings * Tab) :=
         match l with
         | [] => st
         | child :: l' =>
             each l'
               match child with
               | Host.TFolder _ cname _ =>
                   let newCategory :=
                     if String.eqb category "" then cname
                     else category +:+ "/" +:+ cname in
                   scanFolder child newCategory allFolderPaths st
               | Host.TFile cpath _ cbasename =>
                   let templateCategory :=
                     if isTemplateRoot then "" else category in
                   (Settings.ensure_template cpath cbasename st.1,
                    mkTab
                      (JS.Map_set (templateFolders st.2) cpath allFolderPaths)
                      (JS.Map_set (templates st.2) cbasename
                         (mkTemplateInfo cpath templateCategory)))
               end
         end) children st
  end.

End TinyTemplatesSettingTab.

(** ** What the scans are compared with

    The files below a folder, in the order the scans visit them, each with its
    path, its basename and the names of the folders that enclose it, from the
    one directly below the scanned root down to the one that holds the
    file. *)
Fixpoint files_below (enclosing : list string) (f : Host.TAbstractFile)
  : list (string * string * list string) :=
  match f with
  | Host.TFile p _ b => [(p, b, enclosing)]
  | Host.TFolder _ n cs => List.flat_map (files_below (enclosing ++ [n])) cs
  end.

Definition files_of_root (root : Host.TAbstractFile)
  : list (string * string * list string) :=
  match root with
  | Host.TFile _ _ _ => []
  | Host.TFolder _ _ cs => List.flat_map (files_below []) cs
  end.

(** The three candidate categories of a file enclosed by [enclosing]: the
    name of the outermost folder, the name of the innermost one, and all the
    names joined by a slash. *)
Definition outermost (enclosing : list string) : string :=
  default "" (head enclosing).
Definition innermost (enclosing : list string) : string :=
  default "" (last enclosing).
Definition joined (enclosing : list string) : string :=
  String.concat "/" enclosing.

(** One write of the picker's scan to [this.templates], for a file and the
    category [pick] makes of the folders that enclose it; and one write of
    the scan of the settings page. *)
Definition picker_write (pick : list string -> string)
  (acc : JS.Map TemplateInfo) (e : string * string * list string)
  : JS.Map TemplateInfo :=
  JS.Map_set acc e.1.1 (mkTemplateInfo e.1.1 (pick e.2)).

Definition page_write (pick : list string -> string)
  (acc : JS.Map TemplateInfo) (e : string * string * list string)
  : JS.Map TemplateInfo :=
  JS.Map_set acc e.1.2 (mkTemplateInfo e.1.1 (pick e.2)).

(** A collation for the examples: text compared byte by byte. *)
Fixpoint byteCompare (a b : string) : Z :=
  match a, b with
  | EmptyString, EmptyString => 0
  | EmptyString, String _ _ => -1
  | String _ _, EmptyString => 1
  | String x a', String y b' =>
      let d := Z.of_nat (nat_of_ascii x) - Z.of_nat (nat_of_ascii y) in
      if d =? 0 then byteCompare a' b' else d
  end.

(** ** The host application: the vault seen through paths, and the clock

    The instantiation engine addresses the vault by path only.  The text of a
    note is kept as the host's front-matter parser presents it: the
    front-matter block as a map from key to value, and the rest. *)

Module Vault.

Record Note : Type := mkNote {
  frontmatter : gmap string string;
  body : string
}.

Inductive Entry : Type :=
| File (content : Note)
| Folder.

(** Whether [c] occurs in [s]; the part of [s] after its last [c] ([s]
    itself without any [c]) and the part before it. *)
Fixpoint has_char (c : ascii) (s : string) : bool :=
  match s with
  | EmptyString => false
  | String x s' => Ascii.eqb x c || has_char c s'
  end.

Fixpoint after_last (c : ascii) (s : string) : string :=
  match s with
  | EmptyString => EmptyString
  | String x s' =>
      if has_char c s' then after_last c s'
      else if Ascii.eqb x c then s' else s
  end.

Fixpoint before_last (c : ascii) (s : string) : string :=
  match s with
  | EmptyString => EmptyString
  | String x s' =>
      if has_char c s' then String x (before_last c s')
      else if Ascii.eqb x c then EmptyString else s
  end.

(** [file.basename]: the last segment of the path without its extension. *)
Definition basename (filePath : string) : string :=
  before_last "." (after_last "/" filePath).

(** A call of the host that returns a promise, which the host may reject:
    [vault.create], [fileManager.processFrontMatter] and
    [workspace.getLeaf('tab').openFile], each with the path of its file. *)
Inductive HostCall : Type :=
| CreateCall (filePath : string)
| ProcessFrontMatterCall (filePath : string)
| OpenFileCall (filePath : string).

(** The state of the host that the engine reads and writes.  [clock] gives
    the instants that successive [new Date()] return and [ticks] counts the
    ones already taken; [patched] lists the files whose front matter
    [processFrontMatter] has processed; [opened] the files opened in a new
    tab; [closed] tells whether the picker was closed.  [rejects] tells which
    calls the host refuses, each with the [message] of the error that
    rejects its promise: a name that the file system does not take, a folder
    that is missing, a permission that is denied, front matter that does not
    parse.  The program puts no condition on it. *)
Record World : Type := mkWorld {
  vault : gmap string Entry;
  clock : nat -> JS.Date;
  ticks : nat;
  notices : list string;
  patched : list string;
  opened : list string;
  closed : bool;
  rejects : HostCall -> option string
}.

Definition set_vault (v : gmap string Entry) (w : World) : World :=
  mkWorld v (clock w) (ticks w) (notices w) (patched w) (opened w) (closed w)
    (rejects w).

(** [new Notice(text)]. *)
Definition Notice (text : string) (w : World) : World :=
  mkWorld (vault w) (clock w) (ticks w) (notices w ++ [text]) (patched w)
    (opened w) (closed w) (rejects w).

(** [new Date()]. *)
Definition new_Date (w : World) : JS.Date * World :=
  (clock w (ticks w),
   mkWorld (vault w) (clock w) (S (ticks w)) (notices w) (patched w)
     (opened w) (closed w) (rejects w)).

(** [await vault.create(path, data)]: the message of the error when the
    promise is rejected, which it is when the path is taken and when the
    host refuses the call; the vault with the new file otherwise. *)
Definition create (filePath : string) (data : Note) (w : World)
  : string + World :=
  match vault w !! filePath with
  | Some _ => inl "File already exists."
  | None =>
      match rejects w (CreateCall filePath) with
      | Some message => inl message
      | None => inr (set_vault (<[filePath := File data]> (vault w)) w)
      end
  end.

(** [await fileManager.processFrontMatter(file, fn)]: unless the host
    refuses the call, [fn] runs once on the front matter of the file, where
    it may read the clock, and the file is written with the front matter
    that [fn] leaves.  The engine passes the file that it has just created;
    for a path that names no file nothing is run and nothing is written. *)
Definition processFrontMatter (filePath : string)
  (fn : gmap string string -> World -> gmap string string * World)
  (w : World) : string + World :=
  match rejects w (ProcessFrontMatterCall filePath) with
  | Some message => inl message
  | None =>
      match vault w !! filePath with
      | Some (File c) =>
          let '(fm, w) := fn (frontmatter c) w in
          inr (mkWorld
                 (<[filePath := File (mkNote fm (body c))]> (vault w))
                 (clock w) (ticks w) (notices w) (patched w ++ [filePath])
                 (opened w) (closed w) (rejects w))
      | _ => inr w
      end
  end.

(** [await workspace.getLeaf('tab').openFile(file)]. *)
Definition openFile (filePath : string) (w : World) : string + World :=
  match rejects w (OpenFileCall filePath) with
  | Some message => inl message
  | None =>
      inr (mkWorld (vault w) (clock w) (ticks w) (notices w) (patched w)
             (opened w ++ [filePath]) (closed w) (rejects w))
  end.

(** [this.close()]. *)
Definition close (w : World) : World :=
  mkWorld (vault w) (clock w) (ticks w) (notices w) (patched w) (opened w) true
    (rejects w).

End Vault.

(** ** The instantiation engine *)

Module Engine.
Import Vault.

Definition notice_no_template (templatePath : string) : string :=
  "模板" +:+ dq +:+ templatePath +:+ dq +:+ "不存在！".
Definition notice_no_settings (templatePath : string) : string :=
  "模板" +:+ dq +:+ templatePath +:+ dq +:+ "的配置项不存在！".
Definition notice_no_target (templateBasename : string) : string :=
  "未设置" +:+ dq +:+ templateBasename +:+ dq +:+ "模板的目标目录！".
Definition notice_target_missing (targetFolder : string) : string :=
  "目标目录" +:+ dq +:+ targetFolder +:+ dq +:+ "不存在！".
Definition notice_failed (message : string) : string :=
  "新建文件失败：" +:+ message.
Definition notice_created (filePath : string) : string :=
  "已新建文件：" +:+ filePath.

Definition placeholder : string := "未命名.md".

(** The loop of the front-matter callback:
    [for ([fieldName, shouldAutoSet] of Object.entries(dateFields))
       if (shouldAutoSet) frontmatter[fieldName] = today]. *)
Definition stamp (dateFields : gmap string bool) (today : string)
  (frontmatter : gmap string string) : gmap string string :=
  map_fold (fun fieldName (shouldAutoSet : bool) fm =>
              if shouldAutoSet then <[fieldName := today]> fm else fm)
    frontmatter dateFields.

(** The four checks that open [createFileFromTemplate] in both revisions.
    The result is the notice of the check that fails, or the content of the
    template, its settings and the target folder.
    [settings.templates[templatePath]] reads a plain object: for a path
    without entry of its own that names a member of [Object.prototype], it
    gives that member, which passes the second check and has no
    [targetFolder], so that the third check fails. *)
Definition resolve (settings : Settings.TinyTemplatesSettings)
  (templatePath : string) (w : World)
  : string + (Note * Settings.TemplateSettings * string) :=
  match vault w !! templatePath with
  | Some (File content) =>
      match Settings.templates settings !! templatePath with
      | None =>
          if JS.inherited templatePath then
            inl (notice_no_target (basename templatePath))
          else inl (notice_no_settings templatePath)
      | Some templateSettings =>
          let targetFolder :=
            default "" (Settings.targetFolder templateSettings) in
          if String.eqb targetFolder "" then
            inl (notice_no_target (basename templatePath))
          else
            match vault w !! targetFolder with
            | Some Folder => inr (content, templateSettings, targetFolder)
            | _ => inl (notice_target_missing targetFolder)
            end
      end
  | _ => inl (notice_no_template templatePath)
  end.

End Engine.

(** ** The title format of the later revision *)

Module TitleFormatModal.

Definition chineseWeekdays : list string :=
  ["日"; "一"; "二"; "三"; "四"; "五"; "六"].

(** What [formatTitle] computes from [now] before it substitutes. *)
Section Fields.
Variable tz : Z.
Variable now : JS.Date.

Definition year : Z := JS.getFullYear tz now.
Definition month : string :=
  JS.padStart 2 "0" (JS.String_of (JS.getMonth tz now + 1)).
Definition day : string := JS.padStart 2 "0" (JS.String_of (JS.getDate tz now)).
Definition date : string := JS.String_of year +:+ "-" +:+ month +:+ "-" +:+ day.
Definition quarter : Z := JS.Math_floor_div (JS.getMonth tz now + 3) 3.
Definition firstDayOfYear : JS.Date := JS.new_Date_ymd tz year 0 1.
Definition pastDaysOfYear : Q :=
  ((JS.getTime now - JS.getTime firstDayOfYear) # 86400000)%Q.
Definition weekNum : Z :=
  JS.Math_ceil
    ((pastDaysOfYear + inject_Z (JS.getDay tz firstDayOfYear) + 1) / 7)%Q.
Definition week : string := JS.padStart 2 "0" (JS.String_of weekNum).
Definition weekday : string :=
  default "undefined" (JS.index chineseWeekdays (JS.getDay tz now)).

(** The seven substitutions, in the order of the source. *)
Definition substitute (format : string) : string :=
  let result := format in
  let result := JS.replaceAll "{{date}}" date result in
  let result := JS.replaceAll "{{year}}" (JS.String_of year) result in
  let result := JS.replaceAll "{{quarter}}" (JS.String_of quarter) result in
  let result := JS.replaceAll "{{month}}" month result in
  let result := JS.replaceAll "{{week}}" week result in
  let result := JS.replaceAll "{{weekday}}" weekday result in
  let result := JS.replaceAll "{{day}}" day result in
  result.
End Fields.

(** [formatTitle(format)]: the clock is read only for a non-empty format. *)
Definition formatTitle (tz : Z) (format : string) (w : Vault.World)
  : string * Vault.World :=
  if String.eqb format "" then ("", w)
  else
    let '(now, w) := Vault.new_Date w in
    (substitute tz now format, w).

End TitleFormatModal.

(** ** [createFileFromTemplate] and the save handler of [DateFieldsModal],
       earlier revision ([src/main.ts]) *)

Module MainTsEngine.
Import Vault Engine.

(** [new Date().toISOString().slice(0, 10)]. *)
Definition today_of (now : JS.Date) : string := JS.slice0 10 (JS.toISOString now).

(** The callback handed to [processFrontMatter]: it reads the clock, then
    stamps the flagged fields. *)
Definition stamp_today (dateFields : gmap string bool)
  (frontmatter : gmap string string) (w : World)
  : gmap string string * World :=
  let '(now, w) := new_Date w in
  (stamp dateFields (today_of now) frontmatter, w).

(** [createFileFromTemplate].  After the four checks the body is one [try]
    block: a promise that is rejected ends the run in the [catch] clause,
    which shows the message of the error; what was done before stays
    done. *)
Definition createFileFromTemplate (settings : Settings.TinyTemplatesSettings)
  (templatePath : string) (w : World) : World :=
  match resolve settings templatePath w with
  | inl text => Notice text w
  | inr (content, templateSettings, targetFolder) =>
      let fileName := placeholder in
      let filePath := targetFolder +:+ "/" +:+ fileName in
      match create filePath content w with
      | inl message => Notice (notice_failed message) w
      | inr w =>
          let dateFields := default ∅ (Settings.dateFields templateSettings) in
          match
            if 0 <? Z.of_nat (size dateFields) then
              processFrontMatter filePath (stamp_today dateFields) w
            else inr w
          with
          | inl message => Notice (notice_failed message) w
          | inr w =>
              match openFile filePath w with
              | inl message => Notice (notice_failed message) w
              | inr w =>
                  let w := Notice (notice_created filePath) w in
                  close w
              end
          end
      end
  end.

(** The click handler of the save button: the toggles changed in the dialog,
    [this.dateFields], are spread over the stored ones. *)
Definition save (templatePath templateName : string)
  (this_dateFields : gmap string bool) (s : Settings.TinyTemplatesSettings)
  : Settings.TinyTemplatesSettings :=
  let t :=
    default (Settings.only_name templateName)
      (Settings.templates s !! templatePath) in
  let stored := default ∅ (Settings.dateFields t) in
  Settings.mkSettings (Settings.templateFolder s)
    (<[templatePath := Settings.set_dateFields (this_dateFields ∪ stored) t]>
       (Settings.templates s)).

End MainTsEngine.

(** ** [createFileFromTemplate] and the save handler of [DateFieldsModal],
       later revision ([src/unnamed/part_000]) *)

Module Part000Engine.
Import Vault Engine.

(** The date of the front-matter callback, from the local fields of [now]. *)
Definition today_of (tz : Z) (now : JS.Date) : string :=
  JS.String_of (JS.getFullYear tz now) +:+ "-"
  +:+ JS.padStart 2 "0" (JS.String_of (JS.getMonth tz now + 1)) +:+ "-"
  +:+ JS.padStart 2 "0" (JS.String_of (JS.getDate tz now)).

(** The name of the new file: the formatted title when a title format is set
    and its result is not empty, the placeholder otherwise. *)
Definition choose_fileName (tz : Z) (templateSettings : Settings.TemplateSettings)
  (w : World) : string * World :=
  match Settings.titleFormat templateSettings with
  | Some format =>
      if String.eqb format "" then (placeholder, w)
      else
        let '(formattedTitle, w) := TitleFormatModal.formatTitle tz format w in
        if String.eqb formattedTitle "" then (placeholder, w)
        else (formattedTitle +:+ ".md", w)
  | None => (placeholder, w)
  end.

(** The callback handed to [processFrontMatter]: it reads the clock, then
    stamps the flagged fields. *)
Definition stamp_today (tz : Z) (dateFields : gmap string bool)
  (frontmatter : gmap string string) (w : World)
  : gmap string string * World :=
  let '(now, w) := new_Date w in
  (stamp dateFields (today_of tz now) frontmatter, w).

(** [createFileFromTemplate].  After the four checks the body is one [try]
    block: a promise that is rejected ends the run in the [catch] clause,
    which shows the message of the error; what was done before stays
    done. *)
Definition createFileFromTemplate (tz : Z)
  (settings : Settings.TinyTemplatesSettings) (templatePath : string)
  (w : World) : World :=
  match resolve settings templatePath w with
  | inl text => Notice text w
  | inr (content, templateSettings, targetFolder) =>
      let '(fileName, w) := choose_fileName tz templateSettings w in
      let filePath := targetFolder +:+ "/" +:+ fileName in
      match create filePath content w with
      | inl message => Notice (notice_failed message) w
      | inr w =>
          let dateFields := default ∅ (Settings.dateFields templateSettings) in
          match
            if 0 <? Z.of_nat (size dateFields) then
              processFrontMatter filePath (stamp_today tz dateFields) w
            else inr w
          with
          | inl message => Notice (notice_failed message) w
          | inr w =>
              match openFile filePath w with
              | inl message => Notice (notice_failed message) w
              | inr w => close w
              end
          end
      end
  end.

(** The click handler of the save button: after the spread, only the fields
    whose value is true are kept, each with the value [true]. *)
Definition save (templatePath templateName : string)
  (this_dateFields : gmap string bool) (s : Settings.TinyTemplatesSettings)
  : Settings.TinyTemplatesSettings :=
  let t :=
    default (Settings.only_name templateName)
      (Settings.templates s !! templatePath) in
  let currentFields := default ∅ (Settings.dateFields t) in
  let updatedFields := this_dateFields ∪ currentFields in
  let finalFields : gmap string bool :=
    (fun _ => true) <$> filter (fun kv => kv.2 = true) updatedFields in
  Settings.mkSettings (Settings.templateFolder s)
    (<[templatePath := Settings.set_dateFields finalFields t]>
       (Settings.templates s)).

End Part000Engine.

(** ** The metadata cache of the host

    [metadataCache.getFileCache(file)?.frontmatter], looked up by the path of
    the file: the keys of the front matter in the order in which
    [Object.keys] and [Object.entries] list them; no entry for a file without
    front matter.  The program never reads the values. *)
Module MetadataCache.

Definition Cache : Type := gmap string (list string).

Definition frontmatter (cache : Cache) (filePath : string)
  : option (list string) :=
  cache !! filePath.

End MetadataCache.

(** ** The plugin object of the later revision: [syncSettingsWithFileSystem] *)

Module Plugin.
Import Host Settings.

Definition children (f : TAbstractFile) : list TAbstractFile :=
  match f with
  | TFile _ _ _ => []
  | TFolder _ _ cs => cs
  end.

(** The [for] loop over [current.children]: folders are pushed on the stack,
    files are appended to [allTemplateFiles].  The head of [stack] is the
    element that [pop] takes. *)
Definition visit (cs : list TAbstractFile)
  (st : list TAbstractFile * list TAbstractFile)
  : list TAbstractFile * list TAbstractFile :=
  foldl (fun (st : list TAbstractFile * list TAbstractFile) child =>
           match child with
           | TFolder _ _ _ => (child :: st.1, st.2)
           | TFile _ _ _ => (st.1, (st.2 ++ [child])%list)
           end) st cs.

(** The [while] loop; [fuel] bounds the number of rounds. *)
Fixpoint walk (fuel : nat) (stack allTemplateFiles : list TAbstractFile)
  : option (list TAbstractFile) :=
  match stack with
  | [] => Some allTemplateFiles
  | current :: stack =>
      match fuel with
      | O => None
      | S fuel =>
          let st := visit (children current) (stack, allTemplateFiles) in
          walk fuel st.1 st.2
      end
  end.

(** The number of folders of a tree, the root included: the loop pops each
    of them once. *)
Fixpoint folders (f : TAbstractFile) : nat :=
  match f with
  | TFile _ _ _ => O
  | TFolder _ _ cs => S (sum_list_with folders cs)
  end.

(** The loop over the keys of the stored date fields: only the keys that the
    front matter of the file still has are kept, with their values. *)
Definition keep_frontmatter_keys (frontmatterKeys : list string)
  (dateFields : gmap string bool) : gmap string bool :=
  filter (fun kv => kv.1 ∈ frontmatterKeys) dateFields.

(** The entry that one round of the loop over [allTemplateFiles] stores for
    the file at [path]: the old entry, or a new one, with the name set to the
    basename and the date fields cut down to the keys of the front matter.
    [templates] is the map read at the start of the method.  The source
    stores the old entry itself in [newTemplates] and writes to it;
    [templates] is dropped when the method ends, and an entry read a second
    time gives the same result, so the write to the old entry is not
    observable. *)
Definition sync_entry (cache : MetadataCache.Cache)
  (templates : gmap string TemplateSettings) (path basename : string)
  : TemplateSettings :=
  let existingSettings := templates !! path in
  let entry := set_name basename (default (only_name basename) existingSettings) in
  match dateFields entry with
  | Some stored =>
      let frontmatterKeys :=
        default [] (MetadataCache.frontmatter cache path) in
      set_dateFields (keep_frontmatter_keys frontmatterKeys stored) entry
  | None => entry
  end.

Definition sync_file (cache : MetadataCache.Cache)
  (templates : gmap string TemplateSettings)
  (newTemplates : gmap string TemplateSettings) (file : TAbstractFile)
  : gmap string TemplateSettings :=
  match file with
  | TFolder _ _ _ => newTemplates
  | TFile path _ basename =>
      <[path := sync_entry cache templates path basename]> newTemplates
  end.

(** [syncSettingsWithFileSystem]; [None] would tell that the loop ran out of
    fuel. *)
Definition syncSettingsWithFileSystem (vault : TAbstractFile)
  (cache : MetadataCache.Cache) (settings : TinyTemplatesSettings)
  : option TinyTemplatesSettings :=
  let templateFolder := templateFolder settings in
  let templates := templates settings in
  if String.eqb templateFolder "" then
    Some (if 0 <? Z.of_nat (size templates)
          then mkSettings templateFolder ∅ else settings)
  else
    match getAbstractFileByPath vault templateFolder with
    | Some (TFolder _ _ _ as folder) =>
        match walk (folders folder) [folder] [] with
        | Some allTemplateFiles =>
            Some (mkSettings templateFolder
                    (foldl (sync_file cache templates) ∅ allTemplateFiles))
        | None => None
        end
    | _ => Some (mkSettings templateFolder ∅)
    end.

End Plugin.

(** ** The date fields of a template *)

Module DateFields.
Import Host Settings.

(** [EXCLUDED_FIELDS.includes(fieldName)]. *)
Definition excluded (fieldName : string) : bool :=
  bool_decide (fieldName ∈ EXCLUDED_FIELDS).

(** [dateFields[fieldName] = value] for a boolean [value], on an object
    literal kept as the map of its own properties: the assignment to
    [__proto__] of a value that is not an object stores nothing. *)
Definition set_field (dateFields : gmap string bool) (fieldName : string)
  (value : bool) : gmap string bool :=
  if String.eqb fieldName "__proto__" then dateFields
  else <[fieldName := value]> dateFields.

(** [checkTemplateDateFields(templatePath)], the same text in the picker and
    in the settings page of both revisions: the own properties of the
    record that it returns. *)
Definition checkTemplateDateFields (vault : TAbstractFile)
  (cache : MetadataCache.Cache) (templatePath : string) : gmap string bool :=
  match getAbstractFileByPath vault templatePath with
  | Some (TFile p _ _) =>
      match MetadataCache.frontmatter cache p with
      | None => ∅
      | Some frontmatter =>
          foldl (fun (dateFields : gmap string bool) fieldName =>
                   if excluded fieldName then dateFields
                   else set_field dateFields fieldName false)
                ∅ frontmatter
      end
  | _ => ∅
  end.

End DateFields.

(** ** The dialog of the date fields *)

Module DateFieldsModal.
Import Host Settings.

(** One row of the dialog: the name of the field and whether its toggle is
    on at first, that is, whether the value handed to [setValue] is
    truthy. *)
Record Row : Type := mkRow { fieldName : string; value : bool }.

(** [settings.templates[templatePath]?.dateFields?.[fieldName] || false].
    The stored [dateFields] is a plain object: for a field that it does not
    hold and that names a member of [Object.prototype], the read gives that
    member, which is truthy.  Without entry of its own for the path,
    [settings.templates[templatePath]] is undefined or an inherited member,
    which has no [dateFields]. *)
Definition stored_value (settings : TinyTemplatesSettings)
  (templatePath fieldName : string) : bool :=
  match templates settings !! templatePath with
  | Some t =>
      match dateFields t with
      | Some d =>
          match d !! fieldName with
          | Some value => value
          | None => JS.inherited fieldName
          end
      | None => false
      end
  | None => false
  end.

(** [onOpen] up to the rows: nothing is listed unless the template is a file
    with front matter; the keys that are not excluded are sorted by
    [localeCompare], and each toggle shows the stored value. *)
Definition onOpen (localeCompare : string -> string -> Z)
  (vault : TAbstractFile) (cache : MetadataCache.Cache)
  (settings : TinyTemplatesSettings) (templatePath : string) : list Row :=
  match getAbstractFileByPath vault templatePath with
  | Some (TFile p _ _) =>
      match MetadataCache.frontmatter cache p with
      | None => []
      | Some frontmatter =>
          let sortedFields :=
            JS.sort localeCompare
              (List.filter (fun k => negb (DateFields.excluded k)) frontmatter) in
          List.map (fun k => mkRow k (stored_value settings templatePath k))
            sortedFields
      end
  | _ => []
  end.

(** The handler of a toggle: [this.dateFields[fieldName] = value]. *)
Definition onChange (fieldName : string) (value : bool)
  (this_dateFields : gmap string bool) : gmap string bool :=
  DateFields.set_field this_dateFields fieldName value.

End DateFieldsModal.

(** ** The two folder choosers *)

Module SuggestModal.
Import Host.

(** [s.split(sep)] for a separator of one character. *)
Fixpoint split (sep : ascii) (s : string) : list string :=
  match s with
  | EmptyString => [EmptyString]
  | String c s' =>
      if Ascii.eqb c sep then EmptyString :: split sep s'
      else
        match split sep s' with
        | [] => [String c EmptyString]
        | part :: parts => String c part :: parts
        end
  end.

(** [s.contains(sub)]. *)
Fixpoint contains (s sub : string) : bool :=
  String.prefix sub s
  || match s with
     | EmptyString => false
     | String _ s' => contains s' sub
     end.

Section Choosers.
(** [toLowerCase] is the host's. *)
Variable toLowerCase : string -> string.
Variable vault : TAbstractFile.

Definition is_TFolder (folder : string) : bool :=
  match getAbstractFileByPath vault folder with
  | Some (TFolder _ _ _) => true
  | _ => false
  end.

(** [TemplateFolderSuggestModal.getSuggestions(query)]. *)
Definition template_getSuggestions (folders : list string) (query : string)
  : list string :=
  let lowerQuery := toLowerCase query in
  List.filter
    (fun folder =>
       if negb (is_TFolder folder) then false
       else
         let pathParts := split "/" folder in
         let isRootLevel := (length pathParts =? 1)%nat in
         isRootLevel && contains (toLowerCase folder) lowerQuery)
    folders.

(** [TargetFolderSuggestModal.getSuggestions(query)]. *)
Definition target_getSuggestions (folders : list string) (query : string)
  : list string :=
  let lowerQuery := toLowerCase query in
  List.filter
    (fun folder =>
       if negb (is_TFolder folder) then false
       else contains (toLowerCase folder) lowerQuery)
    folders.
End Choosers.

End SuggestModal.

(** ** The commands of the earlier revision ([src/main.ts])

    The command list of the host, [app.commands.commands], is a map from the
    full id of a command, [manifest.id:id], to its name; [addCommand]
    replaces a command that has the same id. *)

Module Commands.
Import Settings.

Section Registration.
Variable manifest_id : string.

Definition full_id (id : string) : string := manifest_id +:+ ":" +:+ id.

(** [`create-from-template-${templatePath}`]. *)
Definition template_command (templatePath : string) : string :=
  "create-from-template-" +:+ templatePath.

(** [this.addCommand({ id, name, callback })] and
    [app.commands.removeCommand(fullId)]. *)
Definition addCommand (id name : string) (r : gmap string string)
  : gmap string string :=
  <[full_id id := name]> r.

Definition removeCommand (fullId : string) (r : gmap string string)
  : gmap string string :=
  delete fullId r.

(** The part of [onload] that registers commands: the command that opens the
    picker, then one command for each stored template whose
    [isCommandRegistered] is true. *)
Definition onload (settings : TinyTemplatesSettings) (r : gmap string string)
  : gmap string string :=
  let r := addCommand "open" "Open Tiny Templates" r in
  map_fold (fun templatePath templateSettings r =>
              if default false (isCommandRegistered templateSettings)
              then addCommand (template_command templatePath)
                     (name templateSettings) r
              else r)
    r (templates settings).

Definition set_isCommandRegistered (b : bool) (t : TemplateSettings)
  : TemplateSettings :=
  mkTemplateSettings (name t) (targetFolder t) (dateFields t) (titleFormat t)
    (Some b).

(** [settings.templates[template.path]?.isCommandRegistered], read when the
    button is rendered. *)
Definition isRegistered (settings : TinyTemplatesSettings)
  (templatePath : string) : bool :=
  default false (templates settings !! templatePath ≫= isCommandRegistered).

Definition notice_removed (basename : string) : string :=
  "已将模板 " +:+ basename +:+ " 从命令列表中移除".

Definition notice_added (basename : string) : string :=
  "已将模板 " +:+ basename +:+ " 添加到命令列表" +:+ String (ascii_of_nat 10)
    "现在可以为该模板配置快捷键了".

(** The click handler of the command button of a template card.
    [isRegistered] is the value read when the button was rendered. *)
Definition onClick (isRegistered : bool) (templatePath basename : string)
  (st : TinyTemplatesSettings * gmap string string * list string)
  : TinyTemplatesSettings * gmap string string * list string :=
  let '(settings, r, notices) := st in
  let t := default (only_name basename) (templates settings !! templatePath) in
  if isRegistered then
    (mkSettings (templateFolder settings)
       (<[templatePath := set_isCommandRegistered false t]> (templates settings)),
     removeCommand (full_id (template_command templatePath)) r,
     (notices ++ [notice_removed basename])%list)
  else
    (mkSettings (templateFolder settings)
       (<[templatePath := set_isCommandRegistered true t]> (templates settings)),
     addCommand (template_command templatePath) basename r,
     (notices ++ [notice_added basename])%list).

End Registration.

End Commands.

(** ** The list of templates of the settings page *)

Module TemplateList.

(** [{ path, basename }], one card of the settings page. *)
Record Item : Type := mkItem { item_path : string; item_basename : string }.

(** [Object.entries(o)]: the keys as [Object.keys] lists them, each with its
    value. *)
Definition Object_entries {V} (o : JS.Obj V) : list (string * V) :=
  omap (fun k => (fun v => (k, v)) <$> JS.obj_get o k) (JS.Object_keys o).

(** One round of the loop of [displayTemplateSettings] over
    [this.templates]: the item of the entry is pushed to
    [uncategorizedTemplates], the second component, or to the array of its
    category in [categorizedTemplates], a plain object, where the push
    throws for a category that names a member of [Object.prototype]:
    [None]. *)
Definition list_item (st : JS.Obj (list Item) * list Item)
  (e : string * TemplateInfo) : option (JS.Obj (list Item) * list Item) :=
  let basename := e.1 in
  let templatePath := path e.2 in
  let category := category e.2 in
  if String.eqb category "" then
    Some (st.1, (st.2 ++ [mkItem templatePath basename])%list)
  else
    match JS.obj_push st.1 category (mkItem templatePath basename) with
    | Some categorizedTemplates => Some (categorizedTemplates, st.2)
    | None => None
    end.

Fixpoint list_items (st : JS.Obj (list Item) * list Item)
  (entries : JS.Map TemplateInfo) : option (JS.Obj (list Item) * list Item) :=
  match entries with
  | [] => Some st
  | e :: entries =>
      match list_item st e with
      | Some st => list_items st entries
      | None => None
      end
  end.

(** [displayTemplateSettings], the same in both revisions, up to the groups
    it hands to [renderTemplateGroup]: the templates without category,
    sorted by basename, then the categories sorted by name, each with its
    templates sorted by basename.  The first group is rendered when it is
    not empty.  [None] when the loop over the templates throws: no group is
    rendered then. *)
Definition displayTemplateSettings (localeCompare : string -> string -> Z)
  (templates : JS.Map TemplateInfo)
  : option (list Item * list (string * list Item)) :=
  match list_items ([], []) templates with
  | None => None
  | Some st =>
      let byBasename a b :=
        localeCompare (item_basename a) (item_basename b) in
      let uncategorizedTemplates := JS.sort byBasename st.2 in
      let categorizedTemplates : JS.Obj (list Item) :=
        (fun kv => (kv.1, JS.sort byBasename kv.2)) <$> st.1 in
      let sortedCategories :=
        JS.sort (fun a b : string * list Item => localeCompare a.1 b.1)
          (Object_entries categorizedTemplates) in
      Some (uncategorizedTemplates, sortedCategories)
  end.

End TemplateList.

(** ** Notions that the properties are stated with *)

Module SaveSpec.
Import Settings.

(** The date fields stored for a template, empty when there are none. *)
Definition stored_dateFields (s : TinyTemplatesSettings) (p : string)
  : gmap string bool :=
  default ∅ (templates s !! p ≫= dateFields).


End SaveSpec.

Module DateFieldsSpec.

(** A key of the front matter gets a field unless it is excluded or is
    [__proto__]. *)
Definition gets_field (k : string) : bool :=
  negb (DateFields.excluded k) && negb (String.eqb k "__proto__").

End DateFieldsSpec.

Module EngineSpec.
Import Vault Engine.

(** A vault with a template, [Templates/Daily.md], and a folder [Inbox]; the
    clock stands at [now] and the host refuses no call. *)
Definition inbox_world (now : JS.Date) : World :=
  mkWorld
    (<["Templates/Daily.md" :=
         File (mkNote (<["created" := "2000-01-01"]>
                         (<["title" := "Daily"]> ∅)) "# Daily")]>
       (<["Inbox" := Folder]> (<["Templates" := Folder]> ∅)))
    (fun _ => now) 0 [] [] [] false (fun _ => None).

(** The same vault on a host that refuses to process front matter; every
    other call goes through. *)
Definition strict_world (now : JS.Date) : World :=
  mkWorld (vault (inbox_world now)) (fun _ => now) 0 [] [] [] false
    (fun call =>
       match call with
       | ProcessFrontMatterCall _ => Some "YAMLParseError"
       | _ => None
       end).

(** Settings that hold [t] for that template. *)
Definition settings_with (t : Settings.TemplateSettings)
  : Settings.TinyTemplatesSettings :=
  Settings.mkSettings "Templates" (<["Templates/Daily.md" := t]> ∅).


(** The local calendar date of an instant, as year, month (from 1) and day. *)
Definition local_date (tz : Z) (now : JS.Date) : Z * Z * Z :=
  JS.civil_from_days ((JS.getTime now + tz * 60000) / 86400000).

(** The same for UTC. *)
Definition utc_date (now : JS.Date) : Z * Z * Z :=
  JS.civil_from_days (JS.getTime now / 86400000).

(** A date written as year, month and day, the last two on two digits. *)
Definition ymd (d : Z * Z * Z) : string :=
  JS.String_of d.1.1 +:+ "-" +:+ JS.pad2 d.1.2 +:+ "-" +:+ JS.pad2 d.2.

(** The value that the front matter of the file at [filePath] gives to [k]. *)
Definition frontmatter_at (w : World) (filePath k : string) : option string :=
  match vault w !! filePath with
  | Some (File c) => frontmatter c !! k
  | _ => None
  end.

End EngineSpec.

Module TitleSpec.
Import TitleFormatModal.

(** Text without an opening brace. *)
Definition brace_free (s : string) : Prop := Vault.has_char "{" s = false.

(** Following the words of the specification: the day number of [now] within
    its year (1 on January 1), the weekday of January 1 of that year (0 on a
    Sunday), and the week as the quotient of their sum by 7, rounded up, on
    two digits. *)
Definition dayOfYear (tz : Z) (now : JS.Date) : Z :=
  JS.localDay tz now - JS.days_from_civil (year tz now) 1 1 + 1.

Definition firstWeekdayOffset (tz : Z) (now : JS.Date) : Z :=
  (JS.days_from_civil (year tz now) 1 1 + 4) mod 7.

Definition ceil_div (a b : Z) : Z := - (- a / b).

Definition week_of_specification (tz : Z) (now : JS.Date) : string :=
  JS.padStart 2 "0"
    (JS.String_of (ceil_div (dayOfYear tz now + firstWeekdayOffset tz now) 7)).

(** An empty vault whose clock stands at [now]. *)
Definition world_at (now : JS.Date) : Vault.World :=
  Vault.mkWorld ∅ (fun _ => now) 0 [] [] [] false (fun _ => None).

(** 2023-01-07, a Saturday, in a zone eight hours east of UTC, at midnight
    and at noon; January 1 of 2023 is a Sunday. *)
Definition saturday_midnight : JS.Date := JS.mkDate 1673020800000.

Definition saturday_noon : JS.Date := JS.mkDate 1673064000000.

End TitleSpec.

Module ScanSpec.
Import Host.

(** The loop of the picker's [scanFolder] over the children of a folder, as
    a function of its own; [isTemplateRoot] and [category] are those of the
    call that runs the loop. *)
Fixpoint picker_children (isTemplateRoot : bool) (category : string)
  (l : list TAbstractFile)
  (st : Settings.TinyTemplatesSettings * TinyTemplatesModal.Modal)
  : Settings.TinyTemplatesSettings * TinyTemplatesModal.Modal :=
  match l with
  | [] => st
  | child :: l' =>
      picker_children isTemplateRoot category l'
        match child with
        | TFolder _ cname _ => TinyTemplatesModal.scanFolder child cname st
        | TFile cpath _ cbasename =>
            (Settings.ensure_template cpath cbasename st.1,
             TinyTemplatesModal.set_templates
               (JS.Map_set (TinyTemplatesModal.templates st.2) cpath
                  (mkTemplateInfo cpath
                     (if isTemplateRoot then "" else category)))
               st.2)
        end
  end.

(** The same for the scan of the settings page. *)
Fixpoint page_children (isTemplateRoot : bool) (category : string)
  (afp : list string) (l : list TAbstractFile)
  (st : Settings.TinyTemplatesSettings * TinyTemplatesSettingTab.Tab)
  : Settings.TinyTemplatesSettings * TinyTemplatesSettingTab.Tab :=
  match l with
  | [] => st
  | child :: l' =>
      page_children isTemplateRoot category afp l'
        match child with
        | TFolder _ cname _ =>
            TinyTemplatesSettingTab.scanFolder child
              (if String.eqb category "" then cname
               else category +:+ "/" +:+ cname) afp st
        | TFile cpath _ cbasename =>
            (Settings.ensure_template cpath cbasename st.1,
             TinyTemplatesSettingTab.mkTab
               (JS.Map_set (TinyTemplatesSettingTab.templateFolders st.2)
                  cpath afp)
               (JS.Map_set (TinyTemplatesSettingTab.templates st.2) cbasename
                  (mkTemplateInfo cpath
                     (if isTemplateRoot then "" else category))))
        end
  end.

(** A child [c] of a folder whose path is [parent], visited while the scan
    of that folder holds the category [category]: the entries written are
    those of the files below [c], each with the name of its innermost
    folder. *)
Definition picker_visits (tf : string) (c : TAbstractFile) : Prop :=
  forall parent enclosing category st,
    well_formed_below parent c = true ->
    (String.length tf <= String.length parent)%nat ->
    Settings.templateFolder st.1 = tf ->
    (if String.eqb parent tf then "" else category) = innermost enclosing ->
    let st' := picker_children (String.eqb parent tf) category [c] st in
    Settings.templateFolder st'.1 = tf
    /\ TinyTemplatesModal.templates st'.2
       = foldl (picker_write innermost) (TinyTemplatesModal.templates st.2)
           (files_below enclosing c).

(** The same for the scan of the settings page, where the category held is
    the names of the enclosing folders joined by a slash. *)
Definition page_visits (tf : string) (c : TAbstractFile) : Prop :=
  forall parent enclosing category afp st,
    well_formed_below parent c = true ->
    (String.length tf <= String.length parent)%nat ->
    Settings.templateFolder st.1 = tf ->
    category = joined enclosing ->
    (String.eqb parent tf = true -> enclosing = []) ->
    Forall (fun x => x <> "") enclosing ->
    let st' := page_children (String.eqb parent tf) category afp [c] st in
    Settings.templateFolder st'.1 = tf
    /\ TinyTemplatesSettingTab.templates st'.2
       = foldl (page_write joined) (TinyTemplatesSettingTab.templates st.2)
           (files_below enclosing c).

(** A template root with a file of its own, a file one folder deep and a
    file two folders deep. *)
Definition nested_tree : TAbstractFile :=
  TFolder "T" "T"
    [ TFile "T/a.md" "a.md" "a";
      TFolder "T/Work" "Work"
        [ TFile "T/Work/b.md" "b.md" "b";
          TFolder "T/Work/Deep" "Deep"
            [ TFile "T/Work/Deep/c.md" "c.md" "c" ] ] ].

End ScanSpec.

Module CursorSpec.
Import TinyTemplatesModal.

(** The sum of the first [k] sizes. *)
Definition before (sizes : list nat) (k : nat) : nat := sum_list (take k sizes).

(** The number of templates of each listed category. *)
Definition sizes (categories : list string) (m : Modal) : list nat :=
  (fun c => length (templates_of m (Some c))) <$> categories.

(** The number of templates, summed over the listed categories. *)
Definition total (categories : list string) (m : Modal) : nat :=
  sum_list (sizes categories m).

(** A non-empty index: at least one category, and each listed category holds
    at least one template. *)
Definition populated (categories : list string) (m : Modal) : Prop :=
  categories <> [] /\ Forall (fun c => templates_of m (Some c) <> []) categories.

(** The cursor addresses the template [p] of the listing. *)
Definition addresses (categories : list string) (m : Modal) (p : string) : Prop :=
  exists c,
    JS.index categories (currentCategoryIndex m) = Some c
    /\ JS.index (templates_of m (Some c)) (currentTemplateIndex m) = Some p.

(** The same in numbers: the cursor is at category [c], template [t], and
    the category holds [n] templates, more than [t]. *)
Definition placed (categories : list string) (m : Modal) (c t n : nat) : Prop :=
  currentCategoryIndex m = Z.of_nat c
  /\ currentTemplateIndex m = Z.of_nat t
  /\ sizes categories m !! c = Some n
  /\ (t < n)%nat.

(** The template that the code reads at category [c], position [t]. *)
Definition template_at (categories : list string) (m : Modal) (c t : nat)
  : option string :=
  JS.index (templates_of m (JS.index categories (Z.of_nat c))) (Z.of_nat t).

(** The selected template is the one that the cursor addresses. *)
Definition selected_at_cursor (categories : list string) (m : Modal) : Prop :=
  exists p, addresses categories m p /\ selectedTemplate m = Some p.

(** The position after [(c, t)] in a listing of [k] categories, where the
    category at [c] holds [n] templates. *)
Definition next_position (k c t n : nat) : nat * nat :=
  if (S t <? n)%nat then (c, S t) else (S c mod k, 0)%nat.

(** One step to the right, [navigateWithinCategory(+1)], over the array of
    categories that [categories_of] reads from the picker. *)
Definition right (categories_of : Modal -> list string) (m : Modal) : Modal :=
  navigateWithinCategory_over (categories_of m) 1 m.

(** [m'] is [m] with the cursor moved to an existing position. *)
Definition lands (categories : list string) (m m' : Modal) : Prop :=
  exists c t n,
    m' = selectTemplate (Z.of_nat c) (Z.of_nat t)
           (template_at categories m c t) m
    /\ sizes categories m !! c = Some n
    /\ (t < n)%nat.

(** The index is non-empty and the cursor addresses one of its templates. *)
Definition cursor_valid (categories : list string) (m : Modal) : Prop :=
  populated categories m /\ exists p, addresses categories m p.

(** The category that a call of [navigateCategory], or of
    [navigateWithinCategory], addresses: the one whose templates it reads
    before it selects. *)
Definition category_addressed (categories : list string) (d : Z) (m : Modal)
  : option string :=
  JS.index categories
    (Z.rem (currentCategoryIndex m + d + JS.len categories) (JS.len categories)).

Definition within_addressed (categories : list string) (d : Z) (m : Modal)
  : option string :=
  JS.index categories
    (if currentTemplateIndex m + d <? 0 then
       Z.rem (currentCategoryIndex m - 1 + JS.len categories) (JS.len categories)
     else if JS.len (templates_of m
                       (JS.index categories (currentCategoryIndex m)))
             <=? currentTemplateIndex m + d then
       Z.rem (currentCategoryIndex m + 1) (JS.len categories)
     else currentCategoryIndex m).

(** A picker with the categories [""] (two templates) and ["Work"] (one),
    the cursor on the second template of the first category. *)
Definition sample_modal : Modal :=
  mkModal [] (Some "T/b.md") 0 1
    [("", ["T/a.md"; "T/b.md"]); ("Work", ["T/Work/c.md"])]
    [""; "Work"].

End CursorSpec.

Module OrderSpec.
Import TinyTemplatesModal.

(** A vault whose template folder [T] holds the folder [B] before the folder
    [A], each with one template. *)
Definition vault_B_then_A : Host.TAbstractFile :=
  Host.TFolder "/" ""
    [ Host.TFolder "T" "T"
        [ Host.TFolder "T/B" "B" [ Host.TFile "T/B/b.md" "b.md" "b" ];
          Host.TFolder "T/A" "A" [ Host.TFile "T/A/a.md" "a.md" "a" ] ] ].

(** The picker of each revision once [loadTemplates] has run on that vault,
    with [byteCompare] for collation. *)
Definition opened_by_main_ts : Modal :=
  (MainTs.loadTemplates byteCompare vault_B_then_A
     (Settings.mkSettings "T" ∅, new_Modal)).1.2.

Definition opened_by_part000 : Modal :=
  (Part000.loadTemplates byteCompare vault_B_then_A
     (Settings.mkSettings "T" ∅, new_Modal)).1.2.

(** A vault whose template folder [T] holds the folder [B], with three
    templates, before the folder [A], with one. *)
Definition vault_B3_then_A : Host.TAbstractFile :=
  Host.TFolder "/" ""
    [ Host.TFolder "T" "T"
        [ Host.TFolder "T/B" "B"
            [ Host.TFile "T/B/b1.md" "b1.md" "b1";
              Host.TFile "T/B/b2.md" "b2.md" "b2";
              Host.TFile "T/B/b3.md" "b3.md" "b3" ];
          Host.TFolder "T/A" "A" [ Host.TFile "T/A/a.md" "a.md" "a" ] ] ].

(** The picker of each revision once [loadTemplates] has run on that vault,
    and the settings that the earlier revision then holds: an entry with a
    name and nothing else for each template. *)
Definition listed_by_main_ts : Modal :=
  (MainTs.loadTemplates byteCompare vault_B3_then_A
     (Settings.mkSettings "T" ∅, new_Modal)).1.2.

Definition listed_by_part000 : Modal :=
  (Part000.loadTemplates byteCompare vault_B3_then_A
     (Settings.mkSettings "T" ∅, new_Modal)).1.2.

Definition settings_of_main_ts : Settings.TinyTemplatesSettings :=
  (MainTs.loadTemplates byteCompare vault_B3_then_A
     (Settings.mkSettings "T" ∅, new_Modal)).1.1.

(** The same vault as the engine sees it, the picker open. *)
Definition world_B3_then_A : Vault.World :=
  Vault.mkWorld
    (<["T/B/b1.md" := Vault.File (Vault.mkNote ∅ "b1")]>
       (<["T/B/b2.md" := Vault.File (Vault.mkNote ∅ "b2")]>
          (<["T/B/b3.md" := Vault.File (Vault.mkNote ∅ "b3")]>
             (<["T/A/a.md" := Vault.File (Vault.mkNote ∅ "a")]>
                (<["T/B" := Vault.Folder]>
                   (<["T/A" := Vault.Folder]> (<["T" := Vault.Folder]> ∅)))))))
    (fun _ => JS.mkDate 0) 0 [] [] [] false (fun _ => None).

(** The cards that a rendered list shows, category by category. *)
Definition cards_of (rendered : list (string * list Card))
  : list (string * list (string * Z * Z)) :=
  List.map
    (fun g : string * list Card =>
       (g.1,
        List.map (fun c => (card_path c, card_categoryIndex c,
                            card_templateIndex c)) g.2))
    rendered.

(** [x] does not sort after [y]. *)
Definition before_or_equal {A} (cmp : A -> A -> Z) (x y : A) : Prop :=
  cmp x y <= 0.

(** The order that [compareCategories] describes: the empty label before
    every label, then the order of the collation. *)
Definition category_before (localeCompare : string -> string -> Z)
  (a b : string) : Prop :=
  a = "" \/ (b <> "" /\ localeCompare a b <= 0).

End OrderSpec.

Module SyncSpec.
Import Host.

(** The files below [f], [f] itself when it is a file. *)
Fixpoint all_files (f : TAbstractFile) : list TAbstractFile :=
  match f with
  | TFile _ _ _ => [f]
  | TFolder _ _ cs => List.flat_map all_files cs
  end.

Definition is_folder (f : TAbstractFile) : Prop :=
  match f with
  | TFile _ _ _ => False
  | TFolder _ _ _ => True
  end.

(** The step of both folder scans on the plugin settings, for one file. *)
Definition ensure_file (s : Settings.TinyTemplatesSettings) (f : TAbstractFile)
  : Settings.TinyTemplatesSettings :=
  match f with
  | TFile p _ b => Settings.ensure_template p b s
  | TFolder _ _ _ => s
  end.

(** A template folder [T] that holds one file directly and one in the folder
    [Work], and a vault with that folder and a folder [Inbox]. *)
Definition template_root : TAbstractFile :=
  TFolder "T" "T"
    [ TFile "T/a.md" "a.md" "a";
      TFolder "T/Work" "Work" [ TFile "T/Work/b.md" "b.md" "b" ] ].

Definition small_vault : TAbstractFile :=
  TFolder "/" "" [ template_root; TFolder "Inbox" "Inbox" [] ].

(** The front matter of [T/a.md] has the keys [created] and [tags]; the
    other file has no front matter. *)
Definition small_cache : MetadataCache.Cache :=
  <["T/a.md" := ["created"; "tags"]]> ∅.

(** Settings for [small_vault]: an entry for [T/a.md] under an old name with
    two date fields, one of them gone from the front matter, and an entry
    for a file that is gone. *)
Definition stale_settings : Settings.TinyTemplatesSettings :=
  Settings.mkSettings "T"
    (<["T/a.md" :=
         Settings.mkTemplateSettings "old" (Some "Inbox")
           (Some (<["created" := true]> (<["due" := true]> ∅)))
           (Some "{{date}}") None]>
       (<["T/gone.md" := Settings.only_name "gone"]> ∅)).

(** What [syncSettingsWithFileSystem] makes of them. *)
Definition synced_settings : Settings.TinyTemplatesSettings :=
  Settings.mkSettings "T"
    (<["T/a.md" :=
         Settings.mkTemplateSettings "a" (Some "Inbox")
           (Some (<["created" := true]> ∅)) (Some "{{date}}") None]>
       (<["T/Work/b.md" := Settings.only_name "b"]> ∅)).

End SyncSpec.

Module GroupSpec.

(** The entries before the first one whose category names a member of
    [Object.prototype]. *)
Fixpoint before_inherited (entries : JS.Map TemplateInfo)
  : JS.Map TemplateInfo :=
  match entries with
  | [] => []
  | e :: entries =>
      if JS.inherited (category e.2) then []
      else e :: before_inherited entries
  end.

(** No entry has a category that names a member of [Object.prototype]. *)
Definition own_categories (entries : JS.Map TemplateInfo) : Prop :=
  Forall (fun e => JS.inherited (category e.2) = false) entries.

(** The paths of the entries grouped by category, each category at the place
    of its first entry and each path at the end of the list of its
    category. *)
Definition own_groups (entries : JS.Map TemplateInfo) : JS.Obj (list string) :=
  foldl (fun o e =>
           JS.obj_set o (category e.2)
             (default [] (JS.obj_get o (category e.2)) ++ [e.1])%list)
        [] entries.

(** The cursor, the selection and the stored categories of two pickers are
    the same. *)
Definition same_selection (m m' : TinyTemplatesModal.Modal) : Prop :=
  TinyTemplatesModal.selectedTemplate m' = TinyTemplatesModal.selectedTemplate m
  /\ TinyTemplatesModal.currentCategoryIndex m'
     = TinyTemplatesModal.currentCategoryIndex m
  /\ TinyTemplatesModal.currentTemplateIndex m'
     = TinyTemplatesModal.currentTemplateIndex m
  /\ TinyTemplatesModal.sortedCategories m'
     = TinyTemplatesModal.sortedCategories m.

End GroupSpec.

Module IndexSpec.

(** The entries of the picker's [templates] have distinct keys, and each
    holds its key as path. *)
Definition keyed (t : JS.Map TemplateInfo) : Prop :=
  NoDup t.*1 /\ Forall (fun kv => path kv.2 = kv.1) t.

End IndexSpec.

Module CommandSpec.
Import Settings Commands.

(** The command list and the settings are in step: a template has its
    command exactly when its [isCommandRegistered] is true. *)
Definition in_step (manifest_id : string) (settings : TinyTemplatesSettings)
  (r : gmap string string) : Prop :=
  forall templatePath,
    is_Some (r !! full_id manifest_id (template_command templatePath))
    <-> isRegistered settings templatePath = true.

End CommandSpec.

(** * Properties *)

(** ** Text *)

Module StringFacts.

Lemma append_empty_r (s : string) : s +:+ "" = s.
Proof.
  induction s as [|x s IH]; [reflexivity|].
  change (String x s +:+ "") with (String x (s +:+ "")). f_equal. exact IH.
Qed.

Lemma append_assoc (a b c : string) : (a +:+ b) +:+ c = a +:+ (b +:+ c).
Proof.
  induction a as [|x a IH]; [reflexivity|].
  change (String x ((a +:+ b) +:+ c) = String x (a +:+ (b +:+ c))).
  f_equal. exact IH.
Qed.

Lemma length_append (a b : string) :
  String.length (a +:+ b) = (String.length a + String.length b)%nat.
Proof.
  induction a as [|x a IH]; [reflexivity|].
  change (String x a +:+ b) with (String x (a +:+ b)). simpl. rewrite IH.
  reflexivity.
Qed.

End StringFacts.

(** ** The save handler of the date-field dialog *)

Module SaveFacts.
Import Settings SaveSpec.


End SaveFacts.

(** ** The instantiation engine *)

Module EngineFacts.
Import Vault Engine EngineSpec.

(** The loop of the front-matter callback sets every field flagged true to
    [today] and leaves every other key as it was. *)
Lemma stamp_lookup (dateFields : gmap string bool) (today : string)
  (fm : gmap string string) (k : string) :
  stamp dateFields today fm !! k =
  if default false (dateFields !! k) then Some today else fm !! k.
Proof.
  unfold stamp.
  apply (map_fold_weak_ind
           (fun r (m : gmap string bool) =>
              r !! k = if default false (m !! k) then Some today else fm !! k)).
  - rewrite lookup_empty. reflexivity.
  - intros i x m r Hi IH. destruct (decide (i = k)) as [->|Hne].
    + rewrite lookup_insert_eq. simpl. destruct x.
      * apply lookup_insert_eq.
      * rewrite IH, Hi. reflexivity.
    + rewrite (lookup_insert_ne m), <- IH by exact Hne.
      destruct x; [apply lookup_insert_ne; exact Hne | reflexivity].
Qed.

Lemma resolve_no_target (settings : Settings.TinyTemplatesSettings)
  (templatePath : string) (w : World) (content : Note)
  (t : Settings.TemplateSettings) :
  vault w !! templatePath = Some (File content) ->
  Settings.templates settings !! templatePath = Some t ->
  Settings.targetFolder t = None \/ Settings.targetFolder t = Some "" ->
  resolve settings templatePath w = inl (notice_no_target (basename templatePath)).
Proof.
  intros Hf Ht Htf. unfold resolve. rewrite Hf, Ht.
  destruct Htf as [-> | ->]; reflexivity.
Qed.

(** C7.  When the settings of an existing template have no target folder
    (absent or empty), [createFileFromTemplate] of either revision shows the
    notice that the target folder is not set and does nothing else: the vault
    is unchanged, no front matter is processed, no file is opened and the
    clock is not read. *)
Theorem createFileFromTemplate_without_target_folder (tz : Z)
  (settings : Settings.TinyTemplatesSettings) (templatePath : string)
  (w : World) (content : Note) (t : Settings.TemplateSettings) :
  vault w !! templatePath = Some (File content) ->
  Settings.templates settings !! templatePath = Some t ->
  Settings.targetFolder t = None \/ Settings.targetFolder t = Some "" ->
  Part000Engine.createFileFromTemplate tz settings templatePath w
    = Notice (notice_no_target (basename templatePath)) w
  /\ MainTsEngine.createFileFromTemplate settings templatePath w
    = Notice (notice_no_target (basename templatePath)) w
  /\ vault (Notice (notice_no_target (basename templatePath)) w) = vault w
  /\ patched (Notice (notice_no_target (basename templatePath)) w) = patched w
  /\ opened (Notice (notice_no_target (basename templatePath)) w) = opened w
  /\ notices (Notice (notice_no_target (basename templatePath)) w)
     = (notices w ++ [notice_no_target (basename templatePath)])%list.
Proof.
  intros Hf Ht Htf.
  pose proof (resolve_no_target settings templatePath w content t Hf Ht Htf) as R.
  unfold Part000Engine.createFileFromTemplate,
    MainTsEngine.createFileFromTemplate.
  rewrite R. repeat split.
Qed.

Lemma createFileFromTemplate_without_target_folder_witness :
  Part000Engine.createFileFromTemplate 480
    (settings_with (Settings.only_name "Daily")) "Templates/Daily.md"
    (inbox_world (JS.mkDate 0))
  = Notice (notice_no_target "Daily") (inbox_world (JS.mkDate 0)).
Proof.
  refine (proj1 (createFileFromTemplate_without_target_folder 480
            (settings_with (Settings.only_name "Daily")) "Templates/Daily.md"
            (inbox_world (JS.mkDate 0)) _ (Settings.only_name "Daily")
            _ _ _)).
  - vm_compute. reflexivity.
  - vm_compute. reflexivity.
  - left. reflexivity.
Defined.

Lemma resolve_inr (settings : Settings.TinyTemplatesSettings)
  (templatePath : string) (w : World) (content : Note)
  (t : Settings.TemplateSettings) (targetFolder : string) :
  resolve settings templatePath w = inr (content, t, targetFolder) ->
  vault w !! templatePath = Some (File content)
  /\ Settings.templates settings !! templatePath = Some t
  /\ default "" (Settings.targetFolder t) = targetFolder
  /\ targetFolder <> ""
  /\ vault w !! targetFolder = Some Folder.
Proof.
  unfold resolve.
  destruct (vault w !! templatePath) as [[c|]|] eqn:Hf; try discriminate.
  destruct (Settings.templates settings !! templatePath) as [t0|] eqn:Ht;
    [|destruct (JS.inherited templatePath); discriminate].
  destruct (String.eqb (default "" (Settings.targetFolder t0)) "") eqn:He;
    try discriminate.
  destruct (vault w !! default "" (Settings.targetFolder t0)) as [[c'|]|] eqn:Hd;
    try discriminate.
  intros [= <- <- <-]. repeat split; try assumption.
  apply String.eqb_neq. exact He.
Qed.

(** Choosing the file name reads the clock at most once and touches nothing
    else. *)
Lemma choose_fileName_frame (tz : Z) (t : Settings.TemplateSettings) (w : World) :
  let w' := (Part000Engine.choose_fileName tz t w).2 in
  vault w' = vault w /\ clock w' = clock w /\ notices w' = notices w
  /\ patched w' = patched w /\ opened w' = opened w /\ closed w' = closed w.
Proof.
  unfold Part000Engine.choose_fileName, TitleFormatModal.formatTitle.
  destruct (Settings.titleFormat t) as [f|]; simpl; [|repeat split].
  destruct (String.eqb f ""); simpl; [repeat split|].
  destruct (String.eqb _ ""); simpl; repeat split.
Qed.

Lemma choose_fileName_without_format (tz : Z) (t : Settings.TemplateSettings)
  (w : World) :
  Settings.titleFormat t = None \/ Settings.titleFormat t = Some "" ->
  Part000Engine.choose_fileName tz t w = (placeholder, w).
Proof.
  unfold Part000Engine.choose_fileName. intros [-> | ->]; reflexivity.
Qed.



Lemma today_of_local_date (tz : Z) (now : JS.Date) :
  Part000Engine.today_of tz now = ymd (local_date tz now).
Proof.
  unfold Part000Engine.today_of, ymd, local_date, JS.getFullYear, JS.getMonth,
    JS.getDate, JS.localDay, JS.localTime, JS.msPerDay, JS.pad2.
  rewrite Z.sub_add. reflexivity.
Qed.

(** The later revision, on success: one file is created; in its front matter
    every field flagged true holds the local date of the instant read by the
    front-matter callback (the last reading of the clock), and every other
    key holds what the template gives it; the rest of the text is the
    template's. *)
Theorem part000_stamps_the_local_date (tz : Z)
  (settings : Settings.TinyTemplatesSettings) (templatePath : string)
  (w : World) (content : Note) (t : Settings.TemplateSettings) :
  closed w = false ->
  vault w !! templatePath = Some (File content) ->
  Settings.templates settings !! templatePath = Some t ->
  let w' := Part000Engine.createFileFromTemplate tz settings templatePath w in
  closed w' = true ->
  exists filePath fm,
    (opened w' = opened w ++ [filePath])%list
    /\ vault w !! filePath = None
    /\ vault w' = <[filePath := File (mkNote fm (body content))]> (vault w)
    /\ forall k,
         fm !! k =
         if default false (default ∅ (Settings.dateFields t) !! k)
         then Some (ymd (local_date tz (clock w (pred (ticks w')))))
         else frontmatter content !! k.
Proof.
  intros Hc Hf Ht w'. subst w'.
  unfold Part000Engine.createFileFromTemplate.
  destruct (resolve settings templatePath w) as [text | [[c t'] f]] eqn:R.
  { simpl. rewrite Hc. discriminate. }
  apply resolve_inr in R. destruct R as (Hf' & Ht' & _).
  assert (c = content) by congruence. assert (t' = t) by congruence.
  subst c t'.
  pose proof (choose_fileName_frame tz t w) as Fr.
  destruct (Part000Engine.choose_fileName tz t w) as [fileName w1].
  simpl in Fr. destruct Fr as (Fv & Fk & _ & _ & Fo & Fc).
  unfold create. rewrite Fv.
  destruct (vault w !! (f +:+ "/" +:+ fileName)) as [e|] eqn:Hfree.
  { simpl. rewrite Fc, Hc. discriminate. }
  destruct (rejects w1 (CreateCall (f +:+ "/" +:+ fileName))).
  { simpl. rewrite Fc, Hc. discriminate. }
  destruct (0 <? Z.of_nat (size (default ∅ (Settings.dateFields t)))) eqn:Hs.
  - unfold processFrontMatter, openFile. simpl.
    destruct (rejects w1 (ProcessFrontMatterCall (f +:+ "/" +:+ fileName))).
    { simpl. rewrite Fc, Hc. discriminate. }
    rewrite lookup_insert_eq. simpl.
    destruct (rejects w1 (OpenFileCall (f +:+ "/" +:+ fileName))).
    { simpl. rewrite Fc, Hc. discriminate. }
    intros _. exists (f +:+ "/" +:+ fileName). eexists. simpl. rewrite Fo.
    split; [reflexivity|]. split; [exact Hfree|].
    split; [rewrite insert_insert_eq; reflexivity|].
    intros k. rewrite stamp_lookup, Fk, today_of_local_date. reflexivity.
  - unfold openFile. simpl.
    destruct (rejects w1 (OpenFileCall (f +:+ "/" +:+ fileName))).
    { simpl. rewrite Fc, Hc. discriminate. }
    intros _. exists (f +:+ "/" +:+ fileName), (frontmatter content).
    simpl. rewrite Fo.
    split; [reflexivity|]. split; [exact Hfree|].
    split; [destruct content; reflexivity|].
    intros k.
    assert (He : default ∅ (Settings.dateFields t) = ∅).
    { apply map_size_empty_iff. apply Z.ltb_ge in Hs. lia. }
    rewrite He, lookup_empty. reflexivity.
Qed.

Lemma part000_stamps_the_local_date_witness :
  exists (filePath : string) (fm : gmap string string),
    vault (inbox_world (JS.mkDate 1710545400000)) !! filePath = None
    /\ fm !! "created" = Some "2024-03-16"
    /\ fm !! "title" = Some "Daily".
Proof.
  assert (Hclosed :
            closed (Part000Engine.createFileFromTemplate 480
                      (settings_with
                         (Settings.mkTemplateSettings "Daily" (Some "Inbox")
                            (Some (<["created" := true]> ∅)) None None))
                      "Templates/Daily.md"
                      (inbox_world (JS.mkDate 1710545400000))) = true)
    by (vm_compute; reflexivity).
  destruct (part000_stamps_the_local_date 480
              (settings_with
                 (Settings.mkTemplateSettings "Daily" (Some "Inbox")
                    (Some (<["created" := true]> ∅)) None None))
              "Templates/Daily.md" (inbox_world (JS.mkDate 1710545400000))
              (mkNote (<["created" := "2000-01-01"]> (<["title" := "Daily"]> ∅))
                 "# Daily")
              (Settings.mkTemplateSettings "Daily" (Some "Inbox")
                 (Some (<["created" := true]> ∅)) None None)
              eq_refl eq_refl eq_refl Hclosed)
    as (filePath & fm & _ & Hnew & _ & Hfm).
  exists filePath, fm. split; [exact Hnew|].
  split; [exact (Hfm "created") | exact (Hfm "title")].
Defined.

(** C1, at an instant where the UTC date and the local date differ.  The
    clock reads 2024-03-15T23:30Z in a zone eight hours east of UTC, where the
    local date is 2024-03-16.  The earlier revision stamps the flagged field
    with the UTC date, 2024-03-15; the later revision stamps the local date.
    Both leave the field that is not flagged as the template has it. *)
Theorem main_ts_stamps_the_utc_date :
  let now := JS.mkDate 1710545400000 in
  let t := Settings.mkTemplateSettings "Daily" (Some "Inbox")
             (Some (<["created" := true]> ∅)) None None in
  let earlier :=
    MainTsEngine.createFileFromTemplate (settings_with t) "Templates/Daily.md"
      (inbox_world now) in
  let later :=
    Part000Engine.createFileFromTemplate 480 (settings_with t)
      "Templates/Daily.md" (inbox_world now) in
  local_date 480 now = (2024, 3, 16)
  /\ utc_date now = (2024, 3, 15)
  /\ closed earlier = true
  /\ frontmatter_at earlier "Inbox/未命名.md" "created" = Some "2024-03-15"
  /\ frontmatter_at earlier "Inbox/未命名.md" "title" = Some "Daily"
  /\ closed later = true
  /\ frontmatter_at later "Inbox/未命名.md" "created" = Some "2024-03-16"
  /\ frontmatter_at later "Inbox/未命名.md" "title" = Some "Daily".
Proof.
  vm_compute. repeat split.
Qed.

End EngineFacts.

(** ** The title formatter *)

Module TitleFacts.
Import TitleFormatModal StringFacts TitleSpec.

Lemma brace_free_app (a b : string) :
  brace_free a -> brace_free b -> brace_free (a +:+ b).
Proof.
  unfold brace_free. intros Ha Hb. induction a as [|x a IH].
  - exact Hb.
  - change (String x a +:+ b) with (String x (a +:+ b)). simpl in *.
    apply orb_false_iff in Ha. destruct Ha as [Hx Ha].
    rewrite Hx. simpl. apply IH. exact Ha.
Qed.

Lemma brace_free_repeat_zero (n : nat) : brace_free (JS.repeat_char "0" n).
Proof. induction n as [|n IH]; [reflexivity | exact IH]. Qed.

Lemma brace_free_padStart (n : nat) (s : string) :
  brace_free s -> brace_free (JS.padStart n "0" s).
Proof.
  intros Hs. unfold JS.padStart.
  apply brace_free_app; [apply brace_free_repeat_zero | exact Hs].
Qed.

Lemma brace_free_uint (d : Decimal.uint) :
  brace_free (NilEmpty.string_of_uint d).
Proof. induction d; simpl; try reflexivity; exact IHd. Qed.

Lemma brace_free_numeral (d : Decimal.uint) :
  brace_free (NilZero.string_of_uint d).
Proof.
  unfold NilZero.string_of_uint.
  destruct d; [reflexivity | apply brace_free_uint ..].
Qed.

Lemma brace_free_String_of (n : Z) : brace_free (JS.String_of n).
Proof.
  unfold JS.String_of, NilZero.string_of_int.
  destruct (Z.to_int n) as [d | d].
  - apply brace_free_numeral.
  - apply (brace_free_numeral d).
Qed.

(** A replacement whose pattern opens with a brace steps over brace-free
    text. *)
Lemma replaceAll_brace_free_prefix (pat rep a b : string) :
  brace_free a ->
  JS.replaceAll (String "{" pat) rep (a +:+ b)
  = a +:+ JS.replaceAll (String "{" pat) rep b.
Proof.
  unfold JS.replaceAll, brace_free. intros Ha.
  induction a as [|x a IH]; [reflexivity|].
  simpl in Ha. apply orb_false_iff in Ha. destruct Ha as [Hx Ha].
  change (String x a +:+ b) with (String x (a +:+ b)).
  cbn [JS.replace_go String.prefix].
  destruct (ascii_dec "{" x) as [<- | _]; [discriminate Hx|].
  rewrite (IH Ha). reflexivity.
Qed.

Lemma replaceAll_brace_free (pat rep a : string) :
  brace_free a -> JS.replaceAll (String "{" pat) rep a = a.
Proof.
  intros Ha. rewrite <- (append_empty_r a) at 1.
  rewrite (replaceAll_brace_free_prefix pat rep a "" Ha).
  apply append_empty_r.
Qed.

Lemma brace_free_year (tz : Z) (now : JS.Date) :
  brace_free (JS.String_of (year tz now)).
Proof. apply brace_free_String_of. Qed.

Lemma brace_free_month (tz : Z) (now : JS.Date) : brace_free (month tz now).
Proof. apply brace_free_padStart, brace_free_String_of. Qed.

Lemma brace_free_day (tz : Z) (now : JS.Date) : brace_free (day tz now).
Proof. apply brace_free_padStart, brace_free_String_of. Qed.

Lemma brace_free_date (tz : Z) (now : JS.Date) : brace_free (date tz now).
Proof.
  unfold date.
  apply brace_free_app; [apply brace_free_year|].
  apply brace_free_app; [reflexivity|].
  apply brace_free_app; [apply brace_free_month|].
  apply brace_free_app; [reflexivity | apply brace_free_day].
Qed.

(** No substitution changes a brace-free text. *)
Lemma substitute_brace_free (tz : Z) (now : JS.Date) (s : string) :
  brace_free s -> substitute tz now s = s.
Proof.
  intros Hs. unfold substitute.
  do 7 rewrite (replaceAll_brace_free _ _ s Hs). reflexivity.
Qed.

(** C6.  For every zone and every state of the host, hence every instant
    that the clock gives: the empty format gives the empty title (and the
    clock is not read); the format [{{unknown}}] is returned unchanged; and
    the formats [{{year}}-{{month}}-{{day}}] and [{{date}}] give the same
    title. *)
Theorem formatTitle_laws (tz : Z) (w : Vault.World) :
  formatTitle tz "" w = ("", w)
  /\ (formatTitle tz "{{unknown}}" w).1 = "{{unknown}}"
  /\ (formatTitle tz "{{year}}-{{month}}-{{day}}" w).1
     = (formatTitle tz "{{date}}" w).1.
Proof.
  split; [reflexivity|]. split; [reflexivity|].
  unfold formatTitle. simpl.
  set (now := Vault.clock w (Vault.ticks w)).
  pose proof (brace_free_year tz now) as Hy.
  pose proof (brace_free_month tz now) as Hm.
  pose proof (brace_free_day tz now) as Hd.
  pose proof (brace_free_date tz now) as Hdate.
  assert (R : substitute tz now "{{date}}" = date tz now).
  { unfold substitute.
    change (JS.replaceAll "{{date}}" (date tz now) "{{date}}")
      with (date tz now +:+ "").
    rewrite append_empty_r.
    do 6 rewrite (replaceAll_brace_free _ _ _ Hdate). reflexivity. }
  rewrite R. unfold substitute.
  change (JS.replaceAll "{{date}}" (date tz now) "{{year}}-{{month}}-{{day}}")
    with "{{year}}-{{month}}-{{day}}".
  change (JS.replaceAll "{{year}}" (JS.String_of (year tz now))
            "{{year}}-{{month}}-{{day}}")
    with (JS.String_of (year tz now) +:+ "-{{month}}-{{day}}").
  rewrite (replaceAll_brace_free_prefix _ _ _ _ Hy).
  change (JS.replaceAll "{{quarter}}" (JS.String_of (quarter tz now))
            "-{{month}}-{{day}}")
    with "-{{month}}-{{day}}".
  rewrite (replaceAll_brace_free_prefix _ _ _ _ Hy).
  change (JS.replaceAll "{{month}}" (month tz now) "-{{month}}-{{day}}")
    with ("-" +:+ month tz now +:+ "-{{day}}").
  assert (Hp : brace_free (JS.String_of (year tz now) +:+ "-" +:+ month tz now)).
  { apply brace_free_app; [exact Hy|].
    apply brace_free_app; [reflexivity | exact Hm]. }
  rewrite <- !append_assoc.
  rewrite (append_assoc (JS.String_of (year tz now))) in *.
  rewrite (replaceAll_brace_free_prefix _ _ _ _ Hp).
  change (JS.replaceAll "{{week}}" (week tz now) "-{{day}}") with "-{{day}}".
  rewrite (replaceAll_brace_free_prefix _ _ _ _ Hp).
  change (JS.replaceAll "{{weekday}}" (weekday tz now) "-{{day}}")
    with "-{{day}}".
  rewrite (replaceAll_brace_free_prefix _ _ _ _ Hp).
  change (JS.replaceAll "{{day}}" (day tz now) "-{{day}}")
    with ("-" +:+ day tz now +:+ "").
  rewrite append_empty_r. unfold date. rewrite !append_assoc. reflexivity.
Qed.

(** *** The week of the year *)

Lemma Math_ceil_fraction (n : Z) (d : positive) :
  JS.Math_ceil (n # d) = ceil_div n (Z.pos d).
Proof. reflexivity. Qed.

Lemma ceil_div_whole (k m : Z) :
  0 < m -> ceil_div (k * m) (7 * m) = ceil_div k 7.
Proof.
  intros Hm. unfold ceil_div. f_equal.
  rewrite <- Z.mul_opp_l. apply Z.div_mul_cancel_r; lia.
Qed.

Lemma ceil_div_started (k m r : Z) :
  0 < r < m -> ceil_div (k * m + r) (7 * m) = k / 7 + 1.
Proof.
  intros Hr. unfold ceil_div.
  pose proof (Z.div_mod k 7 ltac:(lia)) as E.
  pose proof (Z.mod_pos_bound k 7 ltac:(lia)) as B.
  assert (H : - (k * m + r) / (7 * m) = - (k / 7) - 1).
  { symmetry.
    apply (Z.div_unique_pos _ _ _ (7 * m - ((k mod 7) * m + r))); nia. }
  rewrite H. lia.
Qed.

(** What the code computes in a zone with the constant offset [tz], for a
    year outside 0 .. 99: at local midnight, the week of the specification;
    at any later time of the day, one more than the quotient rounded
    down. *)
Lemma weekNum_by_time_of_day (tz : Z) (now : JS.Date) :
  ~ (0 <= year tz now <= 99) ->
  weekNum tz now =
  if JS.localTime tz now mod 86400000 =? 0
  then ceil_div (dayOfYear tz now + firstWeekdayOffset tz now) 7
  else (dayOfYear tz now + firstWeekdayOffset tz now) / 7 + 1.
Proof.
  intros Hy. unfold weekNum, pastDaysOfYear, firstDayOfYear, JS.new_Date_ymd.
  assert (Hq : (0 <=? year tz now) && (year tz now <=? 99) = false).
  { apply andb_false_iff. rewrite Z.leb_gt, Z.leb_gt. lia. }
  rewrite Hq. change (0 + 1) with 1.
  set (D := JS.days_from_civil (year tz now) 1 1).
  assert (Hw : JS.getDay tz (JS.mkDate (D * JS.msPerDay - tz * 60000))
               = firstWeekdayOffset tz now).
  { unfold JS.getDay, JS.localDay, JS.localTime, firstWeekdayOffset. simpl.
    fold D. replace (D * JS.msPerDay - tz * 60000 + tz * 60000)
      with (D * JS.msPerDay) by lia.
    rewrite Z.div_mul by (unfold JS.msPerDay; lia). reflexivity. }
  rewrite Hw. simpl JS.getTime.
  set (wd := firstWeekdayOffset tz now).
  set (L := JS.localTime tz now).
  assert (HL : JS.getTime now = L - tz * 60000)
    by (unfold L, JS.localTime; lia).
  rewrite HL.
  assert (Hn : (((L - tz * 60000 - (D * JS.msPerDay - tz * 60000) # 86400000)
                 + inject_Z wd + 1) / 7
                == ((dayOfYear tz now + wd) * 86400000 + L mod 86400000
                    # 604800000))%Q).
  { unfold dayOfYear, JS.localDay. fold L. fold D. unfold JS.msPerDay.
    pose proof (Z.div_mod L 86400000 ltac:(lia)) as E.
    unfold Qeq, Qdiv, Qmult, Qplus, Qinv, inject_Z. simpl. lia. }
  unfold JS.Math_ceil. rewrite Hn. fold (JS.Math_ceil).
  change (Qceiling ((dayOfYear tz now + wd) * 86400000 + L mod 86400000
                    # 604800000))
    with (ceil_div ((dayOfYear tz now + wd) * 86400000 + L mod 86400000)
            (7 * 86400000)).
  pose proof (Z.mod_pos_bound L 86400000 ltac:(lia)) as B.
  destruct (Z.eqb_spec (L mod 86400000) 0) as [E0 | N0].
  - rewrite E0, Z.add_0_r. apply ceil_div_whole. lia.
  - apply ceil_div_started. lia.
Qed.

Lemma weekNum_by_time_of_day_witness :
  weekNum 480 saturday_midnight = 1 /\ weekNum 480 saturday_noon = 2.
Proof.
  assert (Em : year 480 saturday_midnight = 2023) by (vm_compute; reflexivity).
  assert (En : year 480 saturday_noon = 2023) by (vm_compute; reflexivity).
  split.
  - apply (weekNum_by_time_of_day 480 saturday_midnight). rewrite Em. lia.
  - apply (weekNum_by_time_of_day 480 saturday_noon). rewrite En. lia.
Defined.

(** C5, at two instants of one day.  At midnight and at noon of 2023-01-07
    the day number within the year (7) and the weekday of January 1 (Sunday)
    are the same, and the week of the specification is 01, the first week of
    the year ending on that Saturday.  [formatTitle] gives 01 for [{{week}}]
    at midnight but 02 at noon: the time of day, which the code does not
    remove from the days elapsed, tips the quotient over. *)
Theorem week_changes_within_a_day :
  JS.toISOString (JS.mkDate (JS.localTime 480 saturday_midnight))
    = "2023-01-07T00:00:00.000Z"
  /\ JS.toISOString (JS.mkDate (JS.localTime 480 saturday_noon))
    = "2023-01-07T12:00:00.000Z"
  /\ dayOfYear 480 saturday_midnight = 7
  /\ dayOfYear 480 saturday_noon = 7
  /\ firstWeekdayOffset 480 saturday_midnight = 0
  /\ firstWeekdayOffset 480 saturday_noon = 0
  /\ week_of_specification 480 saturday_midnight = "01"
  /\ week_of_specification 480 saturday_noon = "01"
  /\ (formatTitle 480 "{{week}}" (world_at saturday_midnight)).1 = "01"
  /\ (formatTitle 480 "{{week}}" (world_at saturday_noon)).1 = "02".
Proof.
  vm_compute. repeat split.
Qed.

(** Every occurrence of [{{week}}] is replaced, here three of them, next to
    text that is not a token. *)
Example week_every_occurrence :
  (formatTitle 480 "{{week}}/{{week}} w{{week}}" (world_at saturday_noon)).1
  = "02/02 w02".
Proof. vm_compute. reflexivity. Qed.

End TitleFacts.

(** ** The folder scans *)

Module ScanFacts.
Import Host StringFacts ScanSpec.

Section TAbstractFile_induction.
Variable P : TAbstractFile -> Prop.
Hypothesis file_case : forall p n b, P (TFile p n b).
Hypothesis folder_case : forall p n cs, Forall P cs -> P (TFolder p n cs).

Lemma TAbstractFile_nested_ind (f : TAbstractFile) : P f.
Proof.
  revert f. fix IH 1. intros [p n b | p n cs].
  - apply file_case.
  - apply folder_case. induction cs as [| c cs IHcs]; constructor.
    + apply IH.
    + exact IHcs.
Qed.
End TAbstractFile_induction.

Lemma picker_scanFolder_unfold (p n : string) (cs : list TAbstractFile)
  (category : string) st :
  TinyTemplatesModal.scanFolder (TFolder p n cs) category st
  = picker_children (String.eqb p (Settings.templateFolder st.1)) category cs st.
Proof.
  simpl. generalize (String.eqb p (Settings.templateFolder st.1)). intros r.
  revert st. induction cs as [|c cs IH]; intros st; [reflexivity|].
  simpl. rewrite IH. reflexivity.
Qed.

Lemma page_scanFolder_unfold (p n : string) (cs : list TAbstractFile)
  (category : string) (afp : list string) st :
  TinyTemplatesSettingTab.scanFolder (TFolder p n cs) category afp st
  = page_children (String.eqb p (Settings.templateFolder st.1)) category afp
      cs st.
Proof.
  simpl. generalize (String.eqb p (Settings.templateFolder st.1)). intros r.
  revert st. induction cs as [|c cs IH]; intros st; [reflexivity|].
  simpl. rewrite IH. reflexivity.
Qed.

Lemma picker_children_app (r : bool) (category : string)
  (l1 l2 : list TAbstractFile) st :
  picker_children r category (l1 ++ l2) st
  = picker_children r category l2 (picker_children r category l1 st).
Proof.
  revert st. induction l1 as [|c l1 IH]; intros st; [reflexivity|].
  simpl. apply IH.
Qed.

Lemma page_children_app (r : bool) (category : string) (afp : list string)
  (l1 l2 : list TAbstractFile) st :
  page_children r category afp (l1 ++ l2) st
  = page_children r category afp l2 (page_children r category afp l1 st).
Proof.
  revert st. induction l1 as [|c l1 IH]; intros st; [reflexivity|].
  simpl. apply IH.
Qed.

Lemma ensure_template_templateFolder (p b : string) s :
  Settings.templateFolder (Settings.ensure_template p b s)
  = Settings.templateFolder s.
Proof.
  unfold Settings.ensure_template.
  destruct (Settings.templates s !! p); reflexivity.
Qed.

(** Below a folder, every path is longer than the folder's. *)
Lemma well_formed_below_longer (parent : string) (f : TAbstractFile) :
  well_formed_below parent f = true ->
  (String.length parent < String.length (path f))%nat.
Proof.
  destruct f as [p n b | p n cs]; simpl; intros H;
    repeat (apply andb_true_iff in H; destruct H as [H ?]);
    apply String.eqb_eq in H; subst p;
    rewrite !length_append; simpl; lia.
Qed.

Lemma longer_differs (a b : string) :
  (String.length a < String.length b)%nat -> String.eqb b a = false.
Proof.
  intros H. apply String.eqb_neq. intros ->. lia.
Qed.

(** *** The scan of the picker *)

Lemma picker_children_all (tf parent category : string)
  (enclosing : list string) (cs : list TAbstractFile) :
  Forall (picker_visits tf) cs ->
  forall st,
    forallb (well_formed_below parent) cs = true ->
    (String.length tf <= String.length parent)%nat ->
    Settings.templateFolder st.1 = tf ->
    (if String.eqb parent tf then "" else category) = innermost enclosing ->
    let st' := picker_children (String.eqb parent tf) category cs st in
    Settings.templateFolder st'.1 = tf
    /\ TinyTemplatesModal.templates st'.2
       = foldl (picker_write innermost) (TinyTemplatesModal.templates st.2)
           (List.flat_map (files_below enclosing) cs).
Proof.
  induction 1 as [|c cs Hc _ IH]; intros st Hwf Hlen Htf Hcat.
  - split; [exact Htf | reflexivity].
  - simpl in Hwf. apply andb_true_iff in Hwf. destruct Hwf as [Hwc Hwf].
    destruct (Hc parent enclosing category st Hwc Hlen Htf Hcat) as [Htf1 Ht1].
    simpl in Htf1, Ht1.
    change (picker_children (String.eqb parent tf) category (c :: cs) st)
      with (picker_children (String.eqb parent tf) category cs
              (picker_children (String.eqb parent tf) category [c] st)).
    destruct (IH (picker_children (String.eqb parent tf) category [c] st) Hwf Hlen Htf1 Hcat)
      as [Htf2 Ht2].
    split; [exact Htf2|].
    simpl. rewrite foldl_app, <- Ht1. exact Ht2.
Qed.

Lemma picker_visits_all (tf : string) (c : TAbstractFile) : picker_visits tf c.
Proof.
  induction c as [p n b | p n cs IH] using TAbstractFile_nested_ind;
    intros parent enclosing category st Hwf Hlen Htf Hcat.
  - simpl. rewrite ensure_template_templateFolder. split; [exact Htf|].
    unfold picker_write. simpl. rewrite Hcat. reflexivity.
  - pose proof (well_formed_below_longer _ _ Hwf) as Hlong. simpl in Hlong.
    simpl in Hwf. apply andb_true_iff in Hwf. destruct Hwf as [_ Hwf].
    change (picker_children (String.eqb parent tf) category [TFolder p n cs] st)
      with (TinyTemplatesModal.scanFolder (TFolder p n cs) n st).
    rewrite picker_scanFolder_unfold, Htf.
    apply (picker_children_all tf p n (enclosing ++ [n]) cs IH st Hwf);
      [lia | exact Htf |].
    rewrite (longer_differs tf p) by lia.
    unfold innermost. rewrite last_snoc. reflexivity.
Qed.

(** The scan of the picker from the template root. *)
Lemma picker_scan_root (root : TAbstractFile)
  (st : Settings.TinyTemplatesSettings * TinyTemplatesModal.Modal) :
  well_formed_root root = true ->
  Settings.templateFolder st.1 = path root ->
  TinyTemplatesModal.templates (TinyTemplatesModal.scanFolder root "" st).2
  = foldl (picker_write innermost) (TinyTemplatesModal.templates st.2)
      (files_of_root root).
Proof.
  destruct root as [p n b | p n cs]; [discriminate|].
  intros Hwf Htf. simpl in Hwf, Htf. rewrite picker_scanFolder_unfold, Htf.
  apply (picker_children_all p p "" [] cs); auto.
  - apply Forall_forall. intros c _. apply picker_visits_all.
  - rewrite String.eqb_refl. reflexivity.
Qed.

(** *** The scan of the settings page *)

Lemma joined_snoc (l : list string) (x : string) :
  l <> [] -> joined (l ++ [x]) = joined l +:+ "/" +:+ x.
Proof.
  unfold joined. induction l as [|y l IH]; [congruence|]. intros _.
  destruct l as [|z l]; [reflexivity|].
  change (String.concat "/" ((y :: z :: l) ++ [x]))
    with (y +:+ "/" +:+ String.concat "/" ((z :: l) ++ [x])).
  rewrite IH by discriminate.
  change (String.concat "/" (y :: z :: l))
    with (y +:+ "/" +:+ String.concat "/" (z :: l)).
  rewrite !append_assoc. reflexivity.
Qed.

Lemma joined_not_empty (l : list string) :
  l <> [] -> Forall (fun x => x <> "") l -> joined l <> "".
Proof.
  unfold joined. destruct l as [|y l]; [congruence|]. intros _ H.
  apply Forall_cons_1 in H. destruct H as [Hy _].
  destruct y as [|c y]; [congruence|].
  destruct l; discriminate.
Qed.

Lemma page_children_all (tf parent category : string) (afp : list string)
  (enclosing : list string) (cs : list TAbstractFile) :
  Forall (page_visits tf) cs ->
  forall st,
    forallb (well_formed_below parent) cs = true ->
    (String.length tf <= String.length parent)%nat ->
    Settings.templateFolder st.1 = tf ->
    category = joined enclosing ->
    (String.eqb parent tf = true -> enclosing = []) ->
    Forall (fun x => x <> "") enclosing ->
    let st' := page_children (String.eqb parent tf) category afp cs st in
    Settings.templateFolder st'.1 = tf
    /\ TinyTemplatesSettingTab.templates st'.2
       = foldl (page_write joined) (TinyTemplatesSettingTab.templates st.2)
           (List.flat_map (files_below enclosing) cs).
Proof.
  induction 1 as [|c cs Hc _ IH]; intros st Hwf Hlen Htf Hcat Hroot Hne.
  - split; [exact Htf | reflexivity].
  - simpl in Hwf. apply andb_true_iff in Hwf. destruct Hwf as [Hwc Hwf].
    destruct (Hc parent enclosing category afp st Hwc Hlen Htf Hcat Hroot Hne)
      as [Htf1 Ht1].
    simpl in Htf1, Ht1.
    change (page_children (String.eqb parent tf) category afp (c :: cs) st)
      with (page_children (String.eqb parent tf) category afp cs
              (page_children (String.eqb parent tf) category afp [c] st)).
    destruct (IH (page_children (String.eqb parent tf) category afp [c] st)
                Hwf Hlen Htf1 Hcat Hroot Hne) as [Htf2 Ht2].
    split; [exact Htf2|].
    simpl. rewrite foldl_app, <- Ht1. exact Ht2.
Qed.

Lemma page_visits_all (tf : string) (c : TAbstractFile) : page_visits tf c.
Proof.
  induction c as [p n b | p n cs IH] using TAbstractFile_nested_ind;
    intros parent enclosing category afp st Hwf Hlen Htf Hcat Hroot Hne.
  - simpl. rewrite ensure_template_templateFolder. split; [exact Htf|].
    unfold page_write. simpl.
    destruct (String.eqb parent tf) eqn:E; [|rewrite Hcat; reflexivity].
    rewrite (Hroot eq_refl). reflexivity.
  - pose proof (well_formed_below_longer _ _ Hwf) as Hlong. simpl in Hlong.
    simpl in Hwf. apply andb_true_iff in Hwf. destruct Hwf as [Hn Hwf].
    apply andb_true_iff in Hn. destruct Hn as [_ Hn].
    apply negb_true_iff, String.eqb_neq in Hn.
    change (page_children (String.eqb parent tf) category afp [TFolder p n cs] st)
      with (TinyTemplatesSettingTab.scanFolder (TFolder p n cs)
              (if String.eqb category "" then n else category +:+ "/" +:+ n)
              afp st).
    rewrite page_scanFolder_unfold, Htf.
    apply (page_children_all tf p _ afp (enclosing ++ [n]) cs IH st Hwf);
      [lia | exact Htf | | |].
    + destruct enclosing as [|e enclosing].
      * subst category. reflexivity.
      * rewrite joined_snoc by discriminate. subst category.
        destruct (String.eqb_spec (joined (e :: enclosing)) "") as [E|_];
          [|reflexivity].
        exfalso. revert E. apply joined_not_empty; [discriminate | exact Hne].
    + rewrite (longer_differs tf p) by lia. discriminate.
    + apply Forall_app. split; [exact Hne|]. constructor; [exact Hn | constructor].
Qed.

(** The scan of the settings page from the template root. *)
Lemma page_scan_root (root : TAbstractFile) (afp : list string)
  (st : Settings.TinyTemplatesSettings * TinyTemplatesSettingTab.Tab) :
  well_formed_root root = true ->
  Settings.templateFolder st.1 = path root ->
  TinyTemplatesSettingTab.templates
    (TinyTemplatesSettingTab.scanFolder root "" afp st).2
  = foldl (page_write joined) (TinyTemplatesSettingTab.templates st.2)
      (files_of_root root).
Proof.
  destruct root as [p n b | p n cs]; [discriminate|].
  intros Hwf Htf. simpl in Hwf, Htf. rewrite page_scanFolder_unfold, Htf.
  apply (page_children_all p p "" afp [] cs); auto.
  apply Forall_forall. intros c _. apply page_visits_all.
Qed.

(** *** Reading the category of one file *)

Lemma Map_get_set {V} (m : JS.Map V) (k k' : string) (v : V) :
  JS.Map_get (JS.Map_set m k v) k'
  = if String.eqb k k' then Some v else JS.Map_get m k'.
Proof.
  induction m as [|[k0 v0] m IH]; simpl.
  - reflexivity.
  - destruct (String.eqb_spec k0 k) as [->|Hne]; simpl.
    + destruct (String.eqb k k'); reflexivity.
    + rewrite IH. destruct (String.eqb_spec k0 k') as [->|]; [|reflexivity].
      destruct (String.eqb_spec k k') as [->|]; [congruence | reflexivity].
Qed.

(** After a run of writes under keys that are pairwise distinct, the entry of
    each key is the one written for it. *)
Lemma Map_get_after_writes {E V} (key : E -> string) (val : E -> V)
  (l : list E) (m : JS.Map V) (e : E) :
  NoDup (key <$> l) -> e ∈ l ->
  JS.Map_get (foldl (fun acc x => JS.Map_set acc (key x) (val x)) m l) (key e)
  = Some (val e).
Proof.
  revert m. induction l as [|x l IH] using rev_ind; intros m Hnd Hin.
  - inversion Hin.
  - rewrite foldl_app. simpl. rewrite Map_get_set.
    rewrite fmap_app in Hnd. apply NoDup_app in Hnd.
    destruct Hnd as (Hnd & Hdisj & _).
    apply elem_of_app in Hin. destruct Hin as [Hin | Hin].
    + destruct (String.eqb_spec (key x) (key e)) as [Heq|_].
      * exfalso. apply (Hdisj (key e)).
        -- apply list_elem_of_fmap. exists e. split; [reflexivity | exact Hin].
        -- rewrite <- Heq. simpl. apply list_elem_of_here.
      * apply IH; assumption.
    + apply list_elem_of_singleton in Hin. subst x.
      rewrite String.eqb_refl. reflexivity.
Qed.

(** A file held directly by the root, or by a folder directly below the
    root, has one name for its three candidate categories. *)
Lemma shallow_categories_agree (enclosing : list string) :
  (length enclosing <= 1)%nat ->
  innermost enclosing = outermost enclosing
  /\ joined enclosing = outermost enclosing.
Proof.
  destruct enclosing as [|x [|y l]]; simpl; intros H;
    [split; reflexivity | split; reflexivity | lia].
Qed.

(** C2, as the code has it.  For a well-formed tree scanned from the
    template root: the picker writes one entry per file, whose category is
    the name of the folder that holds the file (the innermost one), empty
    for a file held by the root; the settings page writes one entry per
    file, whose category is the names of the enclosing folders joined by a
    slash.  For a file at most one folder deep both are the name of the
    folder directly below the root.  When the paths are pairwise distinct,
    the entry that the picker keeps for a file has that category. *)
Theorem scans_compute_categories (root : TAbstractFile) (afp : list string)
  (s : Settings.TinyTemplatesSettings) (m : TinyTemplatesModal.Modal)
  (tab : TinyTemplatesSettingTab.Tab) :
  well_formed_root root = true ->
  Settings.templateFolder s = path root ->
  TinyTemplatesModal.templates (TinyTemplatesModal.scanFolder root "" (s, m)).2
  = foldl (picker_write innermost) (TinyTemplatesModal.templates m)
      (files_of_root root)
  /\ TinyTemplatesSettingTab.templates
       (TinyTemplatesSettingTab.scanFolder root "" afp (s, tab)).2
     = foldl (page_write joined) (TinyTemplatesSettingTab.templates tab)
         (files_of_root root)
  /\ (forall e, e ∈ files_of_root root -> (length e.2 <= 1)%nat ->
        innermost e.2 = outermost e.2 /\ joined e.2 = outermost e.2)
  /\ (NoDup ((fun e => e.1.1) <$> files_of_root root) ->
      forall e, e ∈ files_of_root root ->
        JS.Map_get
          (TinyTemplatesModal.templates
             (TinyTemplatesModal.scanFolder root "" (s, m)).2) e.1.1
        = Some (mkTemplateInfo e.1.1 (innermost e.2))).
Proof.
  intros Hwf Htf.
  pose proof (picker_scan_root root (s, m) Hwf Htf) as Hp.
  split; [exact Hp|].
  split; [exact (page_scan_root root afp (s, tab) Hwf Htf)|].
  split; [intros e _; apply shallow_categories_agree|].
  intros Hnd e He. rewrite Hp. unfold picker_write.
  apply (Map_get_after_writes (fun e => e.1.1)
           (fun e => mkTemplateInfo e.1.1 (innermost e.2))); assumption.
Qed.

Lemma scans_compute_categories_witness :
  TinyTemplatesModal.templates
    (TinyTemplatesModal.scanFolder nested_tree ""
       (Settings.mkSettings "T" ∅, TinyTemplatesModal.new_Modal)).2
  = [ ("T/a.md", mkTemplateInfo "T/a.md" "");
      ("T/Work/b.md", mkTemplateInfo "T/Work/b.md" "Work");
      ("T/Work/Deep/c.md", mkTemplateInfo "T/Work/Deep/c.md" "Deep") ]
  /\ TinyTemplatesSettingTab.templates
       (TinyTemplatesSettingTab.scanFolder nested_tree "" []
          (Settings.mkSettings "T" ∅, TinyTemplatesSettingTab.mkTab [] [])).2
     = [ ("a", mkTemplateInfo "T/a.md" "");
         ("b", mkTemplateInfo "T/Work/b.md" "Work");
         ("c", mkTemplateInfo "T/Work/Deep/c.md" "Work/Deep") ].
Proof.
  destruct (scans_compute_categories nested_tree []
              (Settings.mkSettings "T" ∅) TinyTemplatesModal.new_Modal
              (TinyTemplatesSettingTab.mkTab [] []) eq_refl eq_refl)
    as (Hp & Hs & _).
  split; [exact Hp | exact Hs].
Defined.

(** C2, as the specification words it for the picker, fails on
    [nested_tree]: the
    file two folders deep is enclosed by [Work] and then [Deep]; the
    outermost name is [Work], and the picker gives it the category [Deep]. *)
Lemma picker_category_is_not_the_outermost_name :
  well_formed_root nested_tree = true
  /\ ("T/Work/Deep/c.md", "c", ["Work"; "Deep"]) ∈ files_of_root nested_tree
  /\ outermost ["Work"; "Deep"] = "Work"
  /\ JS.Map_get
       (TinyTemplatesModal.templates
          (TinyTemplatesModal.scanFolder nested_tree ""
             (Settings.mkSettings "T" ∅, TinyTemplatesModal.new_Modal)).2)
       "T/Work/Deep/c.md"
     = Some (mkTemplateInfo "T/Work/Deep/c.md" "Deep")
  /\ TinyTemplatesModal.templates
       (TinyTemplatesModal.scanFolder nested_tree ""
          (Settings.mkSettings "T" ∅, TinyTemplatesModal.new_Modal)).2
     <> foldl (picker_write outermost) [] (files_of_root nested_tree).
Proof.
  split; [reflexivity|]. split; [|split; [reflexivity|split; [reflexivity|]]].
  - simpl. repeat constructor.
  - vm_compute. discriminate.
Qed.

End ScanFacts.

(** ** The selection cursor *)

Module CursorFacts.
Import TinyTemplatesModal CursorSpec.

(** *** Counting in a list of sizes *)

Lemma before_S (sizes : list nat) (k n : nat) :
  sizes !! k = Some n -> before sizes (S k) = (before sizes k + n)%nat.
Proof.
  intros H. unfold before. rewrite (take_S_r _ _ _ H), sum_list_with_app.
  simpl. lia.
Qed.

Lemma before_all (sizes : list nat) :
  before sizes (length sizes) = sum_list sizes.
Proof. unfold before. rewrite take_ge by lia. reflexivity. Qed.

Lemma before_mono (sizes : list nat) (a b : nat) :
  (a <= b)%nat -> (before sizes a <= before sizes b)%nat.
Proof.
  intros H. unfold before.
  replace b with (a + (b - a))%nat by lia.
  rewrite <- take_take_drop, sum_list_with_app. lia.
Qed.

(** A position [(c, t)] with [t] below the size at [c] lies before the end
    of its category. *)
Lemma position_below_next (sizes : list nat) (c t n : nat) :
  sizes !! c = Some n -> (t < n)%nat ->
  (before sizes c + t < before sizes (S c))%nat.
Proof. intros H Ht. rewrite (before_S _ _ _ H). lia. Qed.

Lemma position_below_total (sizes : list nat) (c t n : nat) :
  sizes !! c = Some n -> (t < n)%nat ->
  (before sizes c + t < sum_list sizes)%nat.
Proof.
  intros H Ht. pose proof (position_below_next _ _ _ _ H Ht).
  pose proof (lookup_lt_Some _ _ _ H).
  pose proof (before_mono sizes (S c) (length sizes) ltac:(lia)).
  rewrite before_all in *. lia.
Qed.

(** Two positions at the same distance from the start are the same. *)
Lemma position_unique (sizes : list nat) (c1 t1 n1 c2 t2 n2 : nat) :
  sizes !! c1 = Some n1 -> (t1 < n1)%nat ->
  sizes !! c2 = Some n2 -> (t2 < n2)%nat ->
  (before sizes c1 + t1 = before sizes c2 + t2)%nat ->
  c1 = c2 /\ t1 = t2.
Proof.
  intros H1 Ht1 H2 Ht2 E.
  pose proof (position_below_next _ _ _ _ H1 Ht1).
  pose proof (position_below_next _ _ _ _ H2 Ht2).
  destruct (Nat.lt_trichotomy c1 c2) as [L | [-> | L]].
  - pose proof (before_mono sizes (S c1) c2 ltac:(lia)). lia.
  - split; [reflexivity | lia].
  - pose proof (before_mono sizes (S c2) c1 ltac:(lia)). lia.
Qed.

(** *** The index and the cursor *)

Lemma index_of_nat {A} (a : list A) (k : nat) : JS.index a (Z.of_nat k) = a !! k.
Proof.
  unfold JS.index. destruct (Z.ltb_spec (Z.of_nat k) 0); [lia|].
  rewrite Nat2Z.id. reflexivity.
Qed.

Lemma index_Some {A} (a : list A) (i : Z) (x : A) :
  JS.index a i = Some x -> exists k, i = Z.of_nat k /\ a !! k = Some x.
Proof.
  unfold JS.index. destruct (Z.ltb_spec i 0); [discriminate|].
  intros H0. exists (Z.to_nat i). split; [lia | exact H0].
Qed.

Lemma addresses_placed (categories : list string) (m : Modal) (p : string) :
  addresses categories m p -> exists c t n, placed categories m c t n.
Proof.
  intros (cat & Hc & Hp).
  apply index_Some in Hc. destruct Hc as (c & Ec & Hc).
  apply index_Some in Hp. destruct Hp as (t & Et & Hp).
  exists c, t, (length (templates_of m (Some cat))).
  repeat split; try assumption.
  - unfold sizes. rewrite list_lookup_fmap, Hc. reflexivity.
  - apply (lookup_lt_Some _ _ _ Hp).
Qed.

Lemma placed_addresses (categories : list string) (m : Modal) (c t n : nat) :
  placed categories m c t n -> exists p, addresses categories m p.
Proof.
  intros (Ec & Et & Hn & Ht). unfold sizes in Hn.
  rewrite list_lookup_fmap in Hn.
  destruct (categories !! c) as [cat|] eqn:Hc; [|discriminate].
  simpl in Hn. injection Hn as Hn. subst n.
  destruct (lookup_lt_is_Some_2 _ _ Ht) as [p Hp].
  exists p, cat. rewrite Ec, Et, !index_of_nat. split; assumption.
Qed.

Lemma length_sizes (categories : list string) (m : Modal) :
  length (sizes categories m) = length categories.
Proof. unfold sizes. apply length_fmap. Qed.

(** The size that the code reads for the category at a listed position. *)
Lemma size_read (categories : list string) (m : Modal) (k n : nat) :
  sizes categories m !! k = Some n ->
  JS.len (templates_of m (JS.index categories (Z.of_nat k))) = Z.of_nat n.
Proof.
  unfold sizes. rewrite list_lookup_fmap, index_of_nat. intros H.
  destruct (categories !! k) as [cat|]; [|discriminate].
  simpl in H. injection H as <-. reflexivity.
Qed.

Lemma populated_size (categories : list string) (m : Modal) (k : nat) :
  populated categories m -> (k < length categories)%nat ->
  exists n, sizes categories m !! k = Some n /\ (0 < n)%nat.
Proof.
  intros [_ Hall] Hk.
  destruct (lookup_lt_is_Some_2 _ _ Hk) as [cat Hc].
  exists (length (templates_of m (Some cat))). split.
  - unfold sizes. rewrite list_lookup_fmap, Hc. reflexivity.
  - pose proof (Forall_lookup_1 _ _ _ _ Hall Hc) as Hne. simpl in Hne.
    destruct (templates_of m (Some cat)); [congruence | simpl; lia].
Qed.

Lemma populated_length (categories : list string) (m : Modal) :
  populated categories m -> (0 < length categories)%nat.
Proof. intros [Hne _]. destruct categories; [congruence | simpl; lia]. Qed.

(** [selectTemplate] moves the cursor and nothing of the index. *)
Lemma sizes_selectTemplate (categories : list string) (m : Modal)
  (ci ti : Z) (p : option string) :
  sizes categories (selectTemplate ci ti p m) = sizes categories m.
Proof. reflexivity. Qed.

Lemma populated_selectTemplate (categories : list string) (m : Modal)
  (ci ti : Z) (p : option string) :
  populated categories m -> populated categories (selectTemplate ci ti p m).
Proof. intros H. exact H. Qed.

Lemma placed_selectTemplate (categories : list string) (m : Modal)
  (c t n : nat) (p : option string) :
  sizes categories m !! c = Some n -> (t < n)%nat ->
  placed categories (selectTemplate (Z.of_nat c) (Z.of_nat t) p m) c t n.
Proof. intros Hn Ht. repeat split; assumption. Qed.

Lemma len_categories (categories : list string) :
  JS.len categories = Z.of_nat (length categories).
Proof. reflexivity. Qed.

Lemma rem_of_nat (a : Z) (n : nat) :
  0 <= a -> (0 < n)%nat ->
  Z.rem a (Z.of_nat n) = Z.of_nat (Z.to_nat a mod n).
Proof.
  intros Ha Hn. rewrite Z.rem_mod_nonneg by lia.
  rewrite Nat2Z.inj_mod, Z2Nat.id by lia. reflexivity.
Qed.

(** *** One step to the right *)

Lemma within_forward (categories : list string) (m : Modal) (c t n : nat) :
  populated categories m -> placed categories m c t n ->
  exists n',
    navigateWithinCategory_over categories 1 m
    = selectTemplate
        (Z.of_nat (next_position (length categories) c t n).1)
        (Z.of_nat (next_position (length categories) c t n).2)
        (template_at categories m
           (next_position (length categories) c t n).1
           (next_position (length categories) c t n).2) m
    /\ sizes categories m !! (next_position (length categories) c t n).1 = Some n'
    /\ ((next_position (length categories) c t n).2 < n')%nat.
Proof.
  intros Hpop (Ec & Et & Hn & Ht).
  pose proof (populated_length _ _ Hpop) as Hlen.
  unfold navigateWithinCategory_over, next_position.
  rewrite len_categories, Ec, Et, (size_read _ _ _ _ Hn).
  destruct (Z.eqb_spec (Z.of_nat (length categories)) 0); [lia|].
  destruct (Z.ltb_spec (Z.of_nat t + 1) 0); [lia|].
  destruct (Z.leb_spec (Z.of_nat n) (Z.of_nat t + 1)) as [Hend | Hin];
    destruct (Nat.ltb_spec (S t) n); try lia.
  - rewrite rem_of_nat by lia.
    replace (Z.to_nat (Z.of_nat c + 1)) with (S c) by lia.
    assert (Hk : (S c mod length categories < length categories)%nat)
      by (apply Nat.mod_upper_bound; lia).
    destruct (populated_size _ _ _ Hpop Hk) as (n' & Hn' & Hpos).
    rewrite (size_read _ _ _ _ Hn').
    destruct (Z.ltb_spec 0 (Z.of_nat n')); [|lia].
    exists n'. split; [reflexivity|]. split; [exact Hn' | exact Hpos].
  - rewrite (size_read _ _ _ _ Hn).
    destruct (Z.ltb_spec 0 (Z.of_nat n)); [|lia].
    exists n. split; [|split; [exact Hn | simpl; lia]].
    simpl. replace (Z.of_nat t + 1) with (Z.of_nat (S t)) by lia. reflexivity.
Qed.

(** A step to the right adds one to the distance from the start, modulo the
    number of templates. *)
Lemma next_position_distance (sz : list nat) (c t n : nat) :
  Forall (fun x => (0 < x)%nat) sz ->
  sz !! c = Some n -> (t < n)%nat ->
  (before sz (next_position (length sz) c t n).1
   + (next_position (length sz) c t n).2
   = S (before sz c + t) mod sum_list sz)%nat.
Proof.
  intros Hpos Hn Ht. unfold next_position.
  pose proof (lookup_lt_Some _ _ _ Hn) as Hc.
  destruct (Nat.ltb_spec (S t) n) as [Hin | Hend]; simpl.
  - pose proof (position_below_total sz c (S t) n Hn Hin).
    rewrite Nat.mod_small by lia. lia.
  - assert (S t = n) by lia. subst n.
    pose proof (before_S _ _ _ Hn) as HS.
    destruct (Nat.eq_dec (S c) (length sz)) as [E | NE].
    + rewrite E, Nat.Div0.mod_same.
      rewrite E, before_all in HS.
      replace (S (before sz c + t)) with (sum_list sz) by lia.
      rewrite Nat.Div0.mod_same. reflexivity.
    + rewrite (Nat.mod_small (S c)) by lia.
      destruct (lookup_lt_is_Some_2 sz (S c) ltac:(lia)) as [n' Hn'].
      pose proof (Forall_lookup_1 _ _ _ _ Hpos Hn') as Hp'. simpl in Hp'.
      pose proof (position_below_total sz (S c) 0 n' Hn' Hp').
      rewrite Nat.mod_small by lia. lia.
Qed.

Lemma populated_sizes_positive (categories : list string) (m : Modal) :
  populated categories m ->
  Forall (fun x => (0 < x)%nat) (sizes categories m).
Proof.
  intros [_ H]. unfold sizes. apply Forall_fmap.
  eapply Forall_impl; [exact H|]. simpl. intros c Hc.
  destruct (templates_of m (Some c)); [congruence | simpl; lia].
Qed.

(** *** Going around

    [categories_of] is the array of categories that a revision navigates
    over; selecting a template does not change it. *)
Section Cycle.
Variable categories_of : Modal -> list string.
Hypothesis categories_of_selectTemplate :
  forall ci ti p m, categories_of (selectTemplate ci ti p m) = categories_of m.

Lemma right_steps (k : nat) (m : Modal) (c t n : nat) :
  populated (categories_of m) m ->
  placed (categories_of m) m c t n ->
  exists c' t' n',
    categories_of (Nat.iter k (right categories_of) m) = categories_of m
    /\ sizes (categories_of m) (Nat.iter k (right categories_of) m) = sizes (categories_of m) m
    /\ populated (categories_of m) (Nat.iter k (right categories_of) m)
    /\ placed (categories_of m) (Nat.iter k (right categories_of) m) c' t' n'
    /\ (before (sizes (categories_of m) m) c' + t'
        = (before (sizes (categories_of m) m) c + t + k)
          mod total (categories_of m) m)%nat.
Proof.
  intros Hpop Hpl. induction k as [|k IH].
  - exists c, t, n. simpl.
    split; [reflexivity|]. split; [reflexivity|]. split; [exact Hpop|].
    split; [exact Hpl|].
    destruct Hpl as (_ & _ & Hn & Ht).
    pose proof (position_below_total _ _ _ _ Hn Ht) as Hlt.
    rewrite Nat.add_0_r, Nat.mod_small; [reflexivity | exact Hlt].
  - destruct IH as (c1 & t1 & n1 & Hcat & Hsz & Hpop1 & Hpl1 & Hd).
    simpl. set (m1 := Nat.iter k (right categories_of) m) in *.
    destruct (within_forward _ _ _ _ _ Hpop1 Hpl1) as (n' & E & Hn' & Ht').
    assert (Er : right categories_of m1
                 = selectTemplate
                     (Z.of_nat (next_position (length (categories_of m)) c1 t1 n1).1)
                     (Z.of_nat (next_position (length (categories_of m)) c1 t1 n1).2)
                     (template_at (categories_of m) m1
                        (next_position (length (categories_of m)) c1 t1 n1).1
                        (next_position (length (categories_of m)) c1 t1 n1).2)
                     m1).
    { unfold right. rewrite Hcat. exact E. }
    rewrite Er. clear E Er.
    pose proof Hpl1 as (_ & _ & Hn1 & Ht1).
    rewrite Hsz in Hn1, Hn'.
    eexists _, _, n'. rewrite categories_of_selectTemplate.
    split; [exact Hcat|]. split; [exact Hsz|]. split; [exact Hpop1|].
    split; [repeat split; [rewrite sizes_selectTemplate, Hsz; exact Hn' | exact Ht']|].
    pose proof (next_position_distance _ c1 t1 n1
                  (populated_sizes_positive _ _ Hpop) Hn1 Ht1) as Hnext.
    rewrite length_sizes in Hnext. rewrite Hnext, Hd. unfold total.
    rewrite <- Nat.add_1_r, Nat.Div0.add_mod_idemp_l. f_equal. lia.
Qed.

(** After as many steps to the right as there are templates, the cursor is
    back where it was. *)
Lemma right_cycle (m : Modal) (p : string) :
  populated (categories_of m) m ->
  addresses (categories_of m) m p ->
  let m' := Nat.iter (total (categories_of m) m) (right categories_of) m in
  currentCategoryIndex m' = currentCategoryIndex m
  /\ currentTemplateIndex m' = currentTemplateIndex m.
Proof.
  intros Hpop Hadd.
  destruct (addresses_placed _ _ _ Hadd) as (c & t & n & Hpl).
  destruct (right_steps (total (categories_of m) m) m c t n Hpop Hpl)
    as (c' & t' & n' & _ & Hsz & _ & Hpl' & Hd).
  destruct Hpl as (Ec & Et & Hn & Ht).
  destruct Hpl' as (Ec' & Et' & Hn' & Ht'). rewrite Hsz in Hn'.
  pose proof (position_below_total _ _ _ _ Hn Ht) as Hlt.
  fold (total (categories_of m) m) in Hlt.
  rewrite <- Nat.Div0.add_mod_idemp_r, Nat.Div0.mod_same, Nat.add_0_r,
    Nat.mod_small in Hd by exact Hlt.
  destruct (position_unique _ _ _ _ _ _ _ Hn' Ht' Hn Ht Hd) as [-> ->].
  simpl. rewrite Ec, Et, Ec', Et'. split; reflexivity.
Qed.
End Cycle.

(** *** Every arrow key keeps the cursor inside the listing *)

Lemma lands_addresses (categories : list string) (m m' : Modal) :
  lands categories m m' -> exists p, addresses categories m' p.
Proof.
  intros (c & t & n & -> & Hn & Ht).
  apply (placed_addresses _ _ c t n). apply placed_selectTemplate; assumption.
Qed.

Lemma lands_selected (categories : list string) (m m' : Modal) :
  lands categories m m' -> selected_at_cursor categories m'.
Proof.
  intros (c & t & n & -> & Hn & Ht).
  unfold sizes in Hn. rewrite list_lookup_fmap in Hn.
  destruct (categories !! c) as [cat|] eqn:Hc; [|discriminate].
  simpl in Hn. injection Hn as Hn. subst n.
  destruct (lookup_lt_is_Some_2 _ _ Ht) as [p Hp].
  assert (Ht' : template_at categories m c t = Some p).
  { unfold template_at. rewrite (index_of_nat categories), Hc.
    rewrite index_of_nat. exact Hp. }
  exists p. rewrite Ht'. split; [|reflexivity].
  exists cat. simpl. rewrite !index_of_nat. split; [exact Hc | exact Hp].
Qed.

Lemma lands_populated (categories : list string) (m m' : Modal) :
  lands categories m m' -> populated categories m -> populated categories m'.
Proof. intros (c & t & n & -> & _ & _) H. exact H. Qed.

Lemma within_forward_lands (categories : list string) (m : Modal) (c t n : nat) :
  populated categories m -> placed categories m c t n ->
  lands categories m (navigateWithinCategory_over categories 1 m).
Proof.
  intros Hpop Hpl.
  destruct (within_forward _ _ _ _ _ Hpop Hpl) as (n' & E & Hn' & Ht').
  eexists _, _, n'. split; [exact E|]. split; assumption.
Qed.

Lemma within_backward_lands (categories : list string) (m : Modal) (c t n : nat) :
  populated categories m -> placed categories m c t n ->
  lands categories m (navigateWithinCategory_over categories (-1) m).
Proof.
  intros Hpop (Ec & Et & Hn & Ht).
  pose proof (populated_length _ _ Hpop) as Hlen.
  pose proof (lookup_lt_Some _ _ _ Hn) as Hc. rewrite length_sizes in Hc.
  unfold navigateWithinCategory_over.
  rewrite len_categories, Ec, Et, (size_read _ _ _ _ Hn).
  destruct (Z.eqb_spec (Z.of_nat (length categories)) 0); [lia|].
  destruct (Z.ltb_spec (Z.of_nat t + -1) 0) as [Hfirst | Hin].
  - rewrite rem_of_nat by lia.
    set (c' := (Z.to_nat (Z.of_nat c - 1 + Z.of_nat (length categories))
                mod length categories)%nat).
    assert (Hk : (c' < length categories)%nat)
      by (apply Nat.mod_upper_bound; lia).
    destruct (populated_size _ _ _ Hpop Hk) as (n' & Hn' & Hpos).
    rewrite (size_read _ _ _ _ Hn').
    destruct (Z.ltb_spec 0 (Z.of_nat n')); [|lia].
    exists c', (n' - 1)%nat, n'. split; [|split; [exact Hn' | lia]].
    unfold template_at.
    replace (Z.of_nat (n' - 1)) with (Z.of_nat n' - 1) by lia. reflexivity.
  - destruct (Z.leb_spec (Z.of_nat n) (Z.of_nat t + -1)); [lia|].
    rewrite (size_read _ _ _ _ Hn).
    destruct (Z.ltb_spec 0 (Z.of_nat n)); [|lia].
    exists c, (t - 1)%nat, n. split; [|split; [exact Hn | lia]].
    unfold template_at.
    replace (Z.of_nat (t - 1)) with (Z.of_nat t + -1) by lia. reflexivity.
Qed.

Lemma part000_navigateCategory_lands (m : Modal) (d : Z) (c t n : nat) :
  d = 1 \/ d = -1 ->
  populated (sortedCategories m) m -> placed (sortedCategories m) m c t n ->
  lands (sortedCategories m) m (Part000.navigateCategory d m).
Proof.
  intros Hd Hpop (Ec & Et & Hn & Ht).
  pose proof (populated_length _ _ Hpop) as Hlen.
  pose proof (lookup_lt_Some _ _ _ Hn) as Hc. rewrite length_sizes in Hc.
  unfold Part000.navigateCategory.
  rewrite len_categories, Ec, Et.
  destruct (Z.eqb_spec (Z.of_nat (length (sortedCategories m))) 0); [lia|].
  rewrite rem_of_nat by lia.
  set (c' := (Z.to_nat (Z.of_nat c + d + Z.of_nat (length (sortedCategories m)))
              mod length (sortedCategories m))%nat).
  assert (Hk : (c' < length (sortedCategories m))%nat)
    by (apply Nat.mod_upper_bound; lia).
  destruct (populated_size _ _ _ Hpop Hk) as (n' & Hn' & Hpos).
  rewrite (size_read _ _ _ _ Hn').
  destruct (Z.ltb_spec 0 (Z.of_nat n')); [|lia].
  exists c', (Nat.min t (n' - 1)), n'.
  split; [|split; [exact Hn' | lia]].
  unfold JS.Math_min, template_at.
  replace (Z.of_nat (Nat.min t (n' - 1)))
    with (Z.min (Z.of_nat t) (Z.of_nat n' - 1)) by lia.
  reflexivity.
Qed.

Lemma main_ts_navigateCategory_lands (m : Modal) (d : Z) (c t n : nat) :
  d = 1 \/ d = -1 ->
  populated (JS.Object_keys (categorizedTemplates m)) m ->
  placed (JS.Object_keys (categorizedTemplates m)) m c t n ->
  lands (JS.Object_keys (categorizedTemplates m)) m (MainTs.navigateCategory d m).
Proof.
  intros Hd Hpop (Ec & Et & Hn & Ht).
  set (categories := JS.Object_keys (categorizedTemplates m)) in *.
  pose proof (populated_length _ _ Hpop) as Hlen.
  pose proof (lookup_lt_Some _ _ _ Hn) as Hc. rewrite length_sizes in Hc.
  unfold MainTs.navigateCategory. fold categories.
  rewrite len_categories, Ec.
  destruct (Z.eqb_spec (Z.of_nat (length categories)) 0); [lia|].
  rewrite rem_of_nat by lia.
  set (c' := (Z.to_nat (Z.of_nat c + d + Z.of_nat (length categories))
              mod length categories)%nat).
  assert (Hk : (c' < length categories)%nat)
    by (apply Nat.mod_upper_bound; lia).
  destruct (populated_size _ _ _ Hpop Hk) as (n' & Hn' & Hpos).
  rewrite (size_read _ _ _ _ Hn').
  destruct (Z.ltb_spec 0 (Z.of_nat n')); [|lia].
  destruct (Z.ltb_spec d 0).
  - exists c', (n' - 1)%nat, n'.
    split; [|split; [exact Hn' | lia]].
    unfold template_at.
    replace (Z.of_nat (n' - 1)) with (Z.of_nat n' - 1) by lia. reflexivity.
  - exists c', 0%nat, n'.
    split; [|split; [exact Hn' | lia]]. reflexivity.
Qed.

Lemma part000_press_lands (k : Key) (m : Modal) (c t n : nat) :
  populated (sortedCategories m) m -> placed (sortedCategories m) m c t n ->
  lands (sortedCategories m) m (Part000.press k m).
Proof.
  intros Hpop Hpl. destruct k; simpl.
  - apply (part000_navigateCategory_lands m (-1) c t n); auto.
  - apply (part000_navigateCategory_lands m 1 c t n); auto.
  - apply (within_backward_lands _ m c t n); assumption.
  - apply (within_forward_lands _ m c t n); assumption.
Qed.

Lemma main_ts_press_lands (k : Key) (m : Modal) (c t n : nat) :
  populated (JS.Object_keys (categorizedTemplates m)) m ->
  placed (JS.Object_keys (categorizedTemplates m)) m c t n ->
  lands (JS.Object_keys (categorizedTemplates m)) m (MainTs.press k m).
Proof.
  intros Hpop Hpl. destruct k; simpl.
  - apply (main_ts_navigateCategory_lands m (-1) c t n); auto.
  - apply (main_ts_navigateCategory_lands m 1 c t n); auto.
  - apply (within_backward_lands _ m c t n); assumption.
  - apply (within_forward_lands _ m c t n); assumption.
Qed.

Lemma cursor_valid_lands (categories : list string) (m m' : Modal) :
  populated categories m -> lands categories m m' -> cursor_valid categories m'.
Proof.
  intros Hpop Hl. split.
  - apply (lands_populated _ _ _ Hl Hpop).
  - apply (lands_addresses _ _ _ Hl).
Qed.

Lemma part000_keys_keep_cursor_valid (keys : list Key) (m : Modal) :
  cursor_valid (sortedCategories m) m ->
  cursor_valid
    (sortedCategories (foldl (fun m k => Part000.press k m) m keys))
    (foldl (fun m k => Part000.press k m) m keys).
Proof.
  revert m. induction keys as [|k keys IH]; intros m Hv; [exact Hv|].
  simpl. apply IH. destruct Hv as [Hpop [p Hp]].
  destruct (addresses_placed _ _ _ Hp) as (c & t & n & Hpl).
  pose proof (part000_press_lands k m c t n Hpop Hpl) as Hl.
  pose proof (cursor_valid_lands _ _ _ Hpop Hl) as Hv'.
  destruct Hl as (c' & t' & n' & E & _). rewrite E in *. exact Hv'.
Qed.

Lemma main_ts_keys_keep_cursor_valid (keys : list Key) (m : Modal) :
  cursor_valid (JS.Object_keys (categorizedTemplates m)) m ->
  cursor_valid
    (JS.Object_keys
       (categorizedTemplates (foldl (fun m k => MainTs.press k m) m keys)))
    (foldl (fun m k => MainTs.press k m) m keys).
Proof.
  revert m. induction keys as [|k keys IH]; intros m Hv; [exact Hv|].
  simpl. apply IH. destruct Hv as [Hpop [p Hp]].
  destruct (addresses_placed _ _ _ Hp) as (c & t & n & Hpl).
  pose proof (main_ts_press_lands k m c t n Hpop Hpl) as Hl.
  pose proof (cursor_valid_lands _ _ _ Hpop Hl) as Hv'.
  destruct Hl as (c' & t' & n' & E & _). rewrite E in *. exact Hv'.
Qed.

Lemma part000_keys_select (keys : list Key) (m : Modal) :
  cursor_valid (sortedCategories m) m -> keys <> [] ->
  selected_at_cursor
    (sortedCategories (foldl (fun m k => Part000.press k m) m keys))
    (foldl (fun m k => Part000.press k m) m keys).
Proof.
  intros Hv Hne. destruct keys as [|k keys _] using rev_ind; [congruence|].
  rewrite foldl_app. simpl.
  pose proof (part000_keys_keep_cursor_valid keys m Hv) as [Hpop [p Hp]].
  destruct (addresses_placed _ _ _ Hp) as (c & t & n & Hpl).
  pose proof (part000_press_lands k _ c t n Hpop Hpl) as Hl.
  pose proof (lands_selected _ _ _ Hl) as Hs.
  destruct Hl as (c' & t' & n' & E & _). rewrite E in *. exact Hs.
Qed.

Lemma main_ts_keys_select (keys : list Key) (m : Modal) :
  cursor_valid (JS.Object_keys (categorizedTemplates m)) m -> keys <> [] ->
  selected_at_cursor
    (JS.Object_keys
       (categorizedTemplates (foldl (fun m k => MainTs.press k m) m keys)))
    (foldl (fun m k => MainTs.press k m) m keys).
Proof.
  intros Hv Hne. destruct keys as [|k keys _] using rev_ind; [congruence|].
  rewrite foldl_app. simpl.
  pose proof (main_ts_keys_keep_cursor_valid keys m Hv) as [Hpop [p Hp]].
  destruct (addresses_placed _ _ _ Hp) as (c & t & n & Hpl).
  pose proof (main_ts_press_lands k _ c t n Hpop Hpl) as Hl.
  pose proof (lands_selected _ _ _ Hl) as Hs.
  destruct Hl as (c' & t' & n' & E & _). rewrite E in *. exact Hs.
Qed.

(** *** Nothing to navigate *)

Lemma within_nothing (categories : list string) (d : Z) (m : Modal) :
  categories = []
  \/ templates_of m (within_addressed categories d m) = [] ->
  navigateWithinCategory_over categories d m = m.
Proof.
  unfold navigateWithinCategory_over, within_addressed.
  intros [-> | Hnone]; [reflexivity|].
  destruct (JS.len categories =? 0); [reflexivity|].
  destruct (currentTemplateIndex m + d <? 0).
  - rewrite Hnone. reflexivity.
  - destruct (JS.len _ <=? _); rewrite Hnone; reflexivity.
Qed.

Lemma part000_category_nothing (d : Z) (m : Modal) :
  sortedCategories m = []
  \/ templates_of m (category_addressed (sortedCategories m) d m) = [] ->
  Part000.navigateCategory d m = m.
Proof.
  unfold Part000.navigateCategory, category_addressed.
  intros [-> | Hnone]; [reflexivity|].
  destruct (JS.len (sortedCategories m) =? 0); [reflexivity|].
  rewrite Hnone. reflexivity.
Qed.

Lemma main_ts_category_nothing (d : Z) (m : Modal) :
  JS.Object_keys (categorizedTemplates m) = []
  \/ templates_of m
       (category_addressed (JS.Object_keys (categorizedTemplates m)) d m) = [] ->
  MainTs.navigateCategory d m = m.
Proof.
  unfold MainTs.navigateCategory, category_addressed.
  intros [-> | Hnone]; [reflexivity|].
  destruct (JS.len _ =? 0); [reflexivity|].
  rewrite Hnone. reflexivity.
Qed.

(** The later revision.  In a non-empty index (at least one category, each
    listed category with at least one template), from any cursor that
    addresses a template, [navigateWithinCategory(+1)] applied as many times
    as there are templates in all the categories brings the cursor back to
    its category index and template index; the array of categories is
    [sortedCategories], the one that [renderTemplateList] draws. *)
Theorem part000_navigateWithinCategory_cycles (m : Modal) (p : string) :
  populated (sortedCategories m) m ->
  addresses (sortedCategories m) m p ->
  currentCategoryIndex
    (Nat.iter (total (sortedCategories m) m)
       (Part000.navigateWithinCategory 1) m)
  = currentCategoryIndex m
  /\ currentTemplateIndex
       (Nat.iter (total (sortedCategories m) m)
          (Part000.navigateWithinCategory 1) m)
     = currentTemplateIndex m.
Proof.
  intros Hpop Hadd.
  apply (right_cycle sortedCategories (fun _ _ _ _ => eq_refl) m p Hpop Hadd).
Qed.

(** The earlier revision goes around in the same way over the array that
    its navigation reads, the keys of [categorizedTemplates] as
    [Object.keys] lists them, which need not be the order in which the list
    is rendered. *)
Lemma main_ts_cycles_over_Object_keys (m : Modal) (p : string) :
  populated (JS.Object_keys (categorizedTemplates m)) m ->
  addresses (JS.Object_keys (categorizedTemplates m)) m p ->
  currentCategoryIndex
    (Nat.iter (total (JS.Object_keys (categorizedTemplates m)) m)
       (MainTs.navigateWithinCategory 1) m)
  = currentCategoryIndex m
  /\ currentTemplateIndex
       (Nat.iter (total (JS.Object_keys (categorizedTemplates m)) m)
          (MainTs.navigateWithinCategory 1) m)
     = currentTemplateIndex m.
Proof.
  intros Hpop Hadd.
  apply (right_cycle (fun m => JS.Object_keys (categorizedTemplates m))
           (fun _ _ _ _ => eq_refl) m p Hpop Hadd).
Qed.

Lemma sample_modal_populated :
  populated (sortedCategories sample_modal) sample_modal.
Proof. split; [discriminate | repeat constructor; discriminate]. Qed.

Lemma sample_modal_addresses :
  addresses (sortedCategories sample_modal) sample_modal "T/b.md".
Proof. exists "". split; reflexivity. Qed.

Lemma part000_navigateWithinCategory_cycles_witness :
  currentCategoryIndex
    (Nat.iter 3 (Part000.navigateWithinCategory 1) sample_modal) = 0
  /\ currentTemplateIndex
       (Nat.iter 3 (Part000.navigateWithinCategory 1) sample_modal) = 1.
Proof.
  exact (part000_navigateWithinCategory_cycles sample_modal "T/b.md"
           sample_modal_populated sample_modal_addresses).
Defined.

(** The navigation of either revision does nothing when there is no
    category, or when the category that the call addresses holds no
    template, whatever the direction. *)
Lemma navigation_without_template (m : Modal) (d : Z) :
  (sortedCategories m = []
   \/ templates_of m (category_addressed (sortedCategories m) d m) = [] ->
   Part000.navigateCategory d m = m)
  /\ (sortedCategories m = []
      \/ templates_of m (within_addressed (sortedCategories m) d m) = [] ->
      Part000.navigateWithinCategory d m = m)
  /\ (JS.Object_keys (categorizedTemplates m) = []
      \/ templates_of m
           (category_addressed (JS.Object_keys (categorizedTemplates m)) d m)
         = [] ->
      MainTs.navigateCategory d m = m)
  /\ (JS.Object_keys (categorizedTemplates m) = []
      \/ templates_of m
           (within_addressed (JS.Object_keys (categorizedTemplates m)) d m)
         = [] ->
      MainTs.navigateWithinCategory d m = m).
Proof.
  split; [|split; [|split]]; intros H.
  - apply part000_category_nothing, H.
  - apply within_nothing, H.
  - apply main_ts_category_nothing, H.
  - apply within_nothing, H.
Qed.

(** The later revision.  In a non-empty index, from a cursor that addresses
    a template, after any sequence of arrow keys (that is, of calls of
    [navigateCategory] and [navigateWithinCategory] with the directions that
    the handlers pass) the index and the stored categories are the same and
    the cursor addresses one of the templates of [sortedCategories], the
    array that [renderTemplateList] draws; it is the selected template once
    a key has been pressed. *)
Theorem part000_navigation_is_safe (m : Modal) (keys : list Key) :
  cursor_valid (sortedCategories m) m ->
  let m' := foldl (fun m k => Part000.press k m) m keys in
  categorizedTemplates m' = categorizedTemplates m
  /\ sortedCategories m' = sortedCategories m
  /\ cursor_valid (sortedCategories m') m'
  /\ (keys <> [] -> selected_at_cursor (sortedCategories m') m').
Proof.
  intros Hv m'. subst m'.
  split; [|split; [|split; [apply part000_keys_keep_cursor_valid, Hv
                           |apply part000_keys_select, Hv]]].
  - clear Hv. revert m. induction keys as [|k keys IH]; intros m; [reflexivity|].
    simpl. rewrite IH. destruct k; simpl;
      unfold Part000.navigateCategory, Part000.navigateWithinCategory,
        navigateWithinCategory_over;
      repeat match goal with
             | |- context [if ?b then _ else _] => destruct b
             end; reflexivity.
  - clear Hv. revert m. induction keys as [|k keys IH]; intros m; [reflexivity|].
    simpl. rewrite IH. destruct k; simpl;
      unfold Part000.navigateCategory, Part000.navigateWithinCategory,
        navigateWithinCategory_over;
      repeat match goal with
             | |- context [if ?b then _ else _] => destruct b
             end; reflexivity.
Qed.

(** The earlier revision keeps the cursor inside the array that its
    navigation reads, the keys of [categorizedTemplates] as [Object.keys]
    lists them, which need not be the order in which the list is
    rendered. *)
Lemma main_ts_navigation_over_Object_keys (m : Modal) (keys : list Key) :
  cursor_valid (JS.Object_keys (categorizedTemplates m)) m ->
  let m' := foldl (fun m k => MainTs.press k m) m keys in
  categorizedTemplates m' = categorizedTemplates m
  /\ cursor_valid (JS.Object_keys (categorizedTemplates m')) m'
  /\ (keys <> [] ->
      selected_at_cursor (JS.Object_keys (categorizedTemplates m')) m').
Proof.
  intros Hv m'. subst m'.
  split; [|split; [apply main_ts_keys_keep_cursor_valid, Hv
                  |apply main_ts_keys_select, Hv]].
  clear Hv. revert m. induction keys as [|k keys IH]; intros m; [reflexivity|].
  simpl. rewrite IH. destruct k; simpl;
    unfold MainTs.navigateCategory, MainTs.navigateWithinCategory,
      navigateWithinCategory_over;
    repeat match goal with
           | |- context [if ?b then _ else _] => destruct b
           end; reflexivity.
Qed.

Lemma part000_navigation_is_safe_witness :
  cursor_valid [""; "Work"]
    (foldl (fun m k => Part000.press k m) sample_modal
       [ArrowRight; ArrowDown; ArrowLeft; ArrowUp; ArrowUp]).
Proof.
  exact (proj1 (proj2 (proj2
           (part000_navigation_is_safe sample_modal
              [ArrowRight; ArrowDown; ArrowLeft; ArrowUp; ArrowUp]
              (conj sample_modal_populated
                 (ex_intro _ "T/b.md" sample_modal_addresses)))))).
Defined.

End CursorFacts.

(** ** The grouping loop of [loadTemplates] *)

Module GroupFacts.
Import TinyTemplatesModal PickerCommon ScanSpec ScanFacts GroupSpec.

(** The scan of the picker writes to [this.templates] only. *)
Lemma picker_children_selection (c : Host.TAbstractFile) :
  forall r category st,
    same_selection st.2 (picker_children r category [c] st).2
    /\ categorizedTemplates (picker_children r category [c] st).2
       = categorizedTemplates st.2.
Proof.
  induction c as [p n b | p n cs IH] using TAbstractFile_nested_ind;
    intros r category st.
  - simpl. repeat split.
  - change (picker_children r category [Host.TFolder p n cs] st)
      with (TinyTemplatesModal.scanFolder (Host.TFolder p n cs) n st).
    rewrite picker_scanFolder_unfold.
    generalize (String.eqb p (Settings.templateFolder st.1)). intros r'.
    revert st.
    induction IH as [|c cs Hc _ IHcs]; intros st; [repeat split|].
    change (c :: cs) with ([c] ++ cs)%list.
    rewrite picker_children_app.
    destruct (IHcs (picker_children r' n [c] st)) as ((S1 & S2 & S3 & S4) & S5).
    destruct (Hc r' n st) as ((T1 & T2 & T3 & T4) & T5).
    unfold same_selection. rewrite S1, S2, S3, S4, S5, T1, T2, T3, T4, T5.
    repeat split.
Qed.

Lemma scanFolder_selection (folder : Host.TAbstractFile) (category : string) st :
  same_selection st.2 (scanFolder folder category st).2
  /\ categorizedTemplates (scanFolder folder category st).2
     = categorizedTemplates st.2.
Proof.
  destruct folder as [p n b | p n cs]; [repeat split|].
  rewrite picker_scanFolder_unfold.
  generalize (String.eqb p (Settings.templateFolder st.1)). intros r.
  revert st. induction cs as [|c cs IH]; intros st; [repeat split|].
  change (c :: cs) with ([c] ++ cs)%list.
  rewrite picker_children_app.
  destruct (IH (picker_children r category [c] st)) as ((S1 & S2 & S3 & S4) & S5).
  destruct (picker_children_selection c r category st)
    as ((T1 & T2 & T3 & T4) & T5).
  unfold same_selection. rewrite S1, S2, S3, S4, S5, T1, T2, T3, T4, T5.
  repeat split.
Qed.

Lemma Map_set_own {V} (o : JS.Map V) (k : string) (v : V) :
  Forall (fun kv => JS.inherited kv.1 = false) o ->
  JS.inherited k = false ->
  Forall (fun kv => JS.inherited kv.1 = false) (JS.Map_set o k v).
Proof.
  intros Ho Hk. induction Ho as [|[k' v'] o Hkv Ho IH]; simpl.
  - constructor; [exact Hk | constructor].
  - destruct (String.eqb k' k); constructor; assumption.
Qed.

Lemma Map_get_own {V} (o : JS.Map V) (k : string) (v : V) :
  Forall (fun kv => JS.inherited kv.1 = false) o ->
  JS.Map_get o k = Some v -> JS.inherited k = false.
Proof.
  intros Ho. induction Ho as [|[k' v'] o Hkv Ho IH]; simpl; [discriminate|].
  destruct (String.eqb_spec k' k) as [<- | Hne]; [intros _; exact Hkv | exact IH].
Qed.

(** The grouping loop, from an index without inherited key: it groups the
    entries before the first one whose category is inherited, and throws at
    that entry. *)
Lemma group_templates_from (o : JS.Obj (list string))
  (entries : JS.Map TemplateInfo) :
  Forall (fun kv => JS.inherited kv.1 = false) o ->
  group_templates o entries
  = (foldl (fun o e =>
              JS.obj_set o (category e.2)
                (default [] (JS.obj_get o (category e.2)) ++ [e.1])%list)
       o (before_inherited entries),
     existsb (fun e => JS.inherited (category e.2)) entries).
Proof.
  revert o. induction entries as [|e entries IH]; intros o Ho; [reflexivity|].
  simpl. unfold group_template, JS.obj_push.
  destruct (JS.obj_get o (category e.2)) as [l|] eqn:G.
  - rewrite (Map_get_own o _ l Ho G). simpl. rewrite G. simpl.
    apply IH. apply Map_set_own; [exact Ho | exact (Map_get_own o _ l Ho G)].
  - destruct (JS.inherited (category e.2)) eqn:I; [reflexivity|].
    simpl. rewrite G. simpl. apply IH. apply Map_set_own; assumption.
Qed.

Lemma group_templates_own (entries : JS.Map TemplateInfo) :
  group_templates [] entries
  = (own_groups (before_inherited entries),
     existsb (fun e => JS.inherited (category e.2)) entries).
Proof. apply group_templates_from. constructor. Qed.

Lemma own_categories_existsb (entries : JS.Map TemplateInfo) :
  existsb (fun e => JS.inherited (category e.2)) entries = false
  <-> own_categories entries.
Proof.
  unfold own_categories. induction entries as [|e entries IH]; simpl.
  - split; [constructor | reflexivity].
  - rewrite orb_false_iff, IH, Forall_cons. reflexivity.
Qed.

Lemma before_inherited_own (entries : JS.Map TemplateInfo) :
  own_categories entries -> before_inherited entries = entries.
Proof.
  induction 1 as [|e entries He _ IH]; [reflexivity|].
  simpl. rewrite He, IH. reflexivity.
Qed.

(** The three ways in which [loadTemplates] leaves the sort of each
    category. *)
Lemma scan_and_group_cases (localeCompare : string -> string -> Z)
  (vault : Host.TAbstractFile)
  (st : Settings.TinyTemplatesSettings * Modal) :
  let m := (scan_and_group localeCompare vault st).1.1.2 in
  match (scan_and_group localeCompare vault st).2 with
  | Returned => m = set_categorizedTemplates [] (set_templates [] st.2)
  | Threw =>
      ~ own_categories (templates m)
      /\ categorizedTemplates m = own_groups (before_inherited (templates m))
      /\ same_selection st.2 m
  | Grouped =>
      own_categories (templates m)
      /\ categorizedTemplates m
         = sort_each_category localeCompare vault (own_groups (templates m))
      /\ same_selection st.2 m
  end.
Proof.
  unfold scan_and_group.
  destruct (String.eqb (Settings.templateFolder st.1) ""); [reflexivity|].
  destruct (Host.getAbstractFileByPath vault (Settings.templateFolder st.1))
    as [[p n b | p n cs]|]; try reflexivity.
  set (m0 := set_categorizedTemplates [] (set_templates [] st.2)).
  destruct (scanFolder_selection (Host.TFolder p n cs) "" (st.1, m0))
    as (Hsel & _).
  set (st' := scanFolder (Host.TFolder p n cs) "" (st.1, m0)) in *.
  rewrite group_templates_own.
  destruct (existsb _ (templates st'.2)) eqn:E; cbn [fst snd].
  - split.
    + intros Hown. apply own_categories_existsb in Hown.
      cbn [fst snd templates set_categorizedTemplates] in Hown. congruence.
    + split; [reflexivity|]. exact Hsel.
  - apply own_categories_existsb in E. split; [exact E|].
    split; [|exact Hsel].
    cbn [categorizedTemplates set_categorizedTemplates templates].
    rewrite (before_inherited_own _ E). reflexivity.
Qed.

End GroupFacts.

(** ** The order of the categories *)

Module OrderFacts.
Import TinyTemplatesModal OrderSpec GroupSpec GroupFacts.

(** C4, on [vault_B_then_A], with a collation that puts [A] before [B].  In
    the earlier revision the list is rendered in sorted order, [A] then [B],
    while the navigation reads the keys in insertion order, [B] then [A]: the
    first arrow-down leaves the selection on the template of [A] and moves the
    cursor to the indices that the rendered list gives to the template of
    [B].  In the later revision the build, the render and the navigation
    share [sortedCategories], and the same key selects the template of
    [B]. *)
Theorem main_ts_navigates_in_another_order :
  cards_of (MainTs.renderTemplateList byteCompare vault_B_then_A opened_by_main_ts)
    = [ ("A", [("T/A/a.md", 0, 0)]); ("B", [("T/B/b.md", 1, 0)]) ]
  /\ JS.Object_keys (categorizedTemplates opened_by_main_ts) = ["B"; "A"]
  /\ selectedTemplate opened_by_main_ts = Some "T/A/a.md"
  /\ selectedTemplate (MainTs.press ArrowDown opened_by_main_ts)
     = Some "T/A/a.md"
  /\ currentCategoryIndex (MainTs.press ArrowDown opened_by_main_ts) = 1
  /\ currentTemplateIndex (MainTs.press ArrowDown opened_by_main_ts) = 0
  /\ cards_of (Part000.renderTemplateList vault_B_then_A opened_by_part000)
     = [ ("A", [("T/A/a.md", 0, 0)]); ("B", [("T/B/b.md", 1, 0)]) ]
  /\ sortedCategories opened_by_part000 = ["A"; "B"]
  /\ selectedTemplate opened_by_part000 = Some "T/A/a.md"
  /\ selectedTemplate (Part000.press ArrowDown opened_by_part000)
     = Some "T/B/b.md"
  /\ currentCategoryIndex (Part000.press ArrowDown opened_by_part000) = 1
  /\ currentTemplateIndex (Part000.press ArrowDown opened_by_part000) = 0.
Proof.
  vm_compute. repeat split.
Qed.

(** *** [sort] with a comparison that is total and transitive *)

Section Sorting.
Context {A : Type} (cmp : A -> A -> Z).
Hypothesis cmp_total : forall x y, 0 < cmp x y -> cmp y x <= 0.
Hypothesis cmp_trans : forall x y z, cmp x y <= 0 -> cmp y z <= 0 -> cmp x z <= 0.

Lemma sort_insert_permutation (x : A) (l : list A) :
  JS.sort_insert cmp x l ≡ₚ x :: l.
Proof.
  induction l as [|y l IH]; simpl; [reflexivity|].
  destruct (cmp x y <=? 0); [reflexivity|].
  rewrite IH. apply Permutation_swap.
Qed.

Lemma sort_permutation (l : list A) : JS.sort cmp l ≡ₚ l.
Proof.
  induction l as [|x l IH]; simpl; [reflexivity|].
  rewrite sort_insert_permutation, IH. reflexivity.
Qed.

Lemma sort_insert_sorted (x : A) (l : list A) :
  Sorted (before_or_equal cmp) l -> Sorted (before_or_equal cmp) (JS.sort_insert cmp x l).
Proof.
  induction l as [|y l IH]; simpl; intros Hs.
  - repeat constructor.
  - destruct (Z.leb_spec (cmp x y) 0) as [Hle | Hgt].
    + constructor; [exact Hs | constructor; exact Hle].
    + apply Sorted_inv in Hs. destruct Hs as [Hs Hhd].
      constructor; [apply IH; exact Hs|].
      destruct l as [|z l]; simpl.
      * constructor. apply cmp_total. exact Hgt.
      * destruct (cmp x z <=? 0); constructor.
        -- apply cmp_total. exact Hgt.
        -- apply HdRel_inv in Hhd. exact Hhd.
Qed.

Lemma sort_sorted (l : list A) : StronglySorted (before_or_equal cmp) (JS.sort cmp l).
Proof.
  apply Sorted_StronglySorted.
  - intros x y z. apply cmp_trans.
  - induction l as [|x l IH]; simpl; [constructor|].
    apply sort_insert_sorted. exact IH.
Qed.
End Sorting.

Lemma compareCategories_before (localeCompare : string -> string -> Z)
  (a b : string) :
  compareCategories localeCompare a b <= 0 <-> category_before localeCompare a b.
Proof.
  unfold compareCategories, category_before.
  destruct (String.eqb_spec a "") as [-> | Ha].
  - split; [left; reflexivity | lia].
  - destruct (String.eqb_spec b "") as [-> | Hb].
    + split; [lia | intros [? | [? _]]; congruence].
    + split; [right; split; assumption | intros [? | [_ ?]]; [congruence | assumption]].
Qed.

Section CategoryOrder.
Variable localeCompare : string -> string -> Z.
Hypothesis collation_total :
  forall x y, 0 < localeCompare x y -> localeCompare y x <= 0.
Hypothesis collation_trans :
  forall x y z,
    localeCompare x y <= 0 -> localeCompare y z <= 0 -> localeCompare x z <= 0.

Lemma compareCategories_total (x y : string) :
  0 < compareCategories localeCompare x y ->
  compareCategories localeCompare y x <= 0.
Proof.
  unfold compareCategories.
  destruct (String.eqb_spec x "") as [-> | Hx]; [lia|].
  destruct (String.eqb_spec y "") as [-> | Hy]; [lia|].
  apply collation_total.
Qed.

Lemma compareCategories_trans (x y z : string) :
  compareCategories localeCompare x y <= 0 ->
  compareCategories localeCompare y z <= 0 ->
  compareCategories localeCompare x z <= 0.
Proof.
  rewrite !compareCategories_before. unfold category_before.
  intros [-> | [Hy Hxy]] [-> | [Hz Hyz]]; try (left; reflexivity); try congruence.
  right. split; [exact Hz | eapply collation_trans; eassumption].
Qed.

Lemma sorted_as_categories (l : list string) :
  StronglySorted (before_or_equal (compareCategories localeCompare)) l ->
  StronglySorted (category_before localeCompare) l.
Proof.
  induction 1 as [|x l _ IH Hall]; [constructor|].
  constructor; [exact IH|].
  eapply Forall_impl; [exact Hall|]. intros y.
  apply compareCategories_before.
Qed.

(** The sorted categories: the same labels, the empty one first when it is
    among them, and every label before the labels that follow it. *)
Lemma sorted_categories_order (keys : list string) :
  JS.sort (compareCategories localeCompare) keys ≡ₚ keys
  /\ ("" ∈ keys ->
      head (JS.sort (compareCategories localeCompare) keys) = Some "")
  /\ StronglySorted (category_before localeCompare)
       (JS.sort (compareCategories localeCompare) keys).
Proof.
  pose proof (sort_permutation (compareCategories localeCompare) keys) as Hp.
  pose proof (sorted_as_categories _
                (sort_sorted (compareCategories localeCompare)
                   compareCategories_total compareCategories_trans keys)) as Hs'.
  split; [exact Hp|]. split; [|exact Hs'].
  intros Hin. rewrite <- Hp in Hin.
  destruct Hs' as [|x l _ Hall]; [inversion Hin|]. simpl.
  apply elem_of_cons in Hin. destruct Hin as [<- | Hin]; [reflexivity|].
  rewrite Forall_forall in Hall.
  destruct (Hall "" Hin) as [-> | [Hne _]]; [reflexivity | congruence].
Qed.

Lemma fst_render_categories (vault : Host.TAbstractFile) (m : Modal)
  (categories : list string) :
  (render_categories vault m categories).*1 = categories.
Proof.
  unfold render_categories. rewrite fmap_imap.
  rewrite (imap_ext _ (const id)) by reflexivity.
  rewrite imap_const. apply list_fmap_id.
Qed.

Lemma reset_selection_index (categories : list string) (m : Modal) :
  sortedCategories (PickerCommon.reset_selection categories m) = sortedCategories m
  /\ categorizedTemplates (PickerCommon.reset_selection categories m)
     = categorizedTemplates m.
Proof.
  unfold PickerCommon.reset_selection.
  destruct categories as [|c l]; [split; reflexivity|]. simpl.
  destruct (JS.obj_get (categorizedTemplates m) c) as [l'|]; [|split; reflexivity].
  destruct (0 <? JS.len l'); split; reflexivity.
Qed.

(** The later revision: once [loadTemplates] has run on a fresh picker and
    has found no template whose category names a member of
    [Object.prototype], the stored [sortedCategories] is the sorted array of
    the keys of the index, ordered as above; the rendered list shows the
    categories in that order and the navigation reads that array. *)
Theorem part000_orders_categories_once (vault : Host.TAbstractFile)
  (s : Settings.TinyTemplatesSettings) :
  let m := (Part000.loadTemplates localeCompare vault (s, new_Modal)).1.2 in
  let keys := JS.Object_keys (categorizedTemplates m) in
  own_categories (templates m) ->
  sortedCategories m = JS.sort (compareCategories localeCompare) keys
  /\ sortedCategories m ≡ₚ keys
  /\ ("" ∈ keys -> head (sortedCategories m) = Some "")
  /\ StronglySorted (category_before localeCompare) (sortedCategories m)
  /\ (Part000.renderTemplateList vault m).*1 = sortedCategories m
  /\ (forall d, Part000.navigateWithinCategory d m
                = navigateWithinCategory_over (sortedCategories m) d m).
Proof.
  intros m keys Hown.
  assert (E : sortedCategories m = JS.sort (compareCategories localeCompare) keys).
  { subst keys m. revert Hown. unfold Part000.loadTemplates.
    pose proof (scan_and_group_cases localeCompare vault (s, new_Modal)) as Hcases.
    destruct (PickerCommon.scan_and_group localeCompare vault (s, new_Modal))
      as [[[s' m'] notices] progress].
    destruct progress; cbn [fst snd] in *.
    - intros _. rewrite Hcases. reflexivity.
    - intros Hown. destruct Hcases as (Hno & _). contradiction.
    - intros _.
      destruct (reset_selection_index
                  (JS.sort (compareCategories localeCompare)
                     (JS.Object_keys (categorizedTemplates m')))
                  (set_sortedCategories
                     (JS.sort (compareCategories localeCompare)
                        (JS.Object_keys (categorizedTemplates m'))) m'))
        as [E1 E2].
      simpl in E1, E2. simpl. rewrite E1, E2. reflexivity. }
  destruct (sorted_categories_order keys) as (Hp & Hh & Hs).
  rewrite E. split; [reflexivity|]. split; [exact Hp|]. split; [exact Hh|].
  split; [exact Hs|]. split.
  - unfold Part000.renderTemplateList. rewrite fst_render_categories. exact E.
  - intros d. unfold Part000.navigateWithinCategory. rewrite E. reflexivity.
Qed.
End CategoryOrder.

(** The byte-wise collation is total and transitive. *)
Lemma byteCompare_total (x y : string) :
  0 < byteCompare x y -> byteCompare y x <= 0.
Proof.
  revert y. induction x as [|a x IH]; intros [|b y]; simpl; try lia.
  destruct (Z.eqb_spec (Z.of_nat (nat_of_ascii a) - Z.of_nat (nat_of_ascii b)) 0)
    as [E|N];
    destruct (Z.eqb_spec (Z.of_nat (nat_of_ascii b) - Z.of_nat (nat_of_ascii a)) 0);
    try lia.
  apply IH.
Qed.

Lemma byteCompare_trans (x y z : string) :
  byteCompare x y <= 0 -> byteCompare y z <= 0 -> byteCompare x z <= 0.
Proof.
  revert y z. induction x as [|a x IH]; intros [|b y] [|c z]; simpl; try lia.
  destruct (Z.eqb_spec (Z.of_nat (nat_of_ascii a) - Z.of_nat (nat_of_ascii b)) 0);
    destruct (Z.eqb_spec (Z.of_nat (nat_of_ascii b) - Z.of_nat (nat_of_ascii c)) 0);
    destruct (Z.eqb_spec (Z.of_nat (nat_of_ascii a) - Z.of_nat (nat_of_ascii c)) 0);
    try lia.
  apply IH.
Qed.

Lemma part000_orders_categories_once_witness :
  sortedCategories opened_by_part000 = ["A"; "B"]
  /\ (Part000.renderTemplateList vault_B_then_A opened_by_part000).*1
     = ["A"; "B"].
Proof.
  destruct (part000_orders_categories_once byteCompare byteCompare_total
              byteCompare_trans vault_B_then_A (Settings.mkSettings "T" ∅))
    as (E & _ & _ & _ & R & _).
  - repeat constructor.
  - split; [exact E | exact R].
Defined.

End OrderFacts.

(** ** The index that [loadTemplates] builds *)

Module LoadFacts.
Import TinyTemplatesModal CursorSpec OrderSpec GroupSpec CursorFacts GroupFacts
  OrderFacts.

Lemma Map_set_values {V} (Q : V -> Prop) (o : JS.Map V) (k : string) (v : V) :
  Forall (fun kv => Q kv.2) o -> Q v ->
  Forall (fun kv => Q kv.2) (JS.Map_set o k v).
Proof.
  intros Ho Hv. induction Ho as [|[k' v'] o Hkv Ho IH]; simpl.
  - constructor; [exact Hv | constructor].
  - destruct (String.eqb k' k); constructor; assumption.
Qed.

(** No category of the grouped index is empty. *)
Lemma own_groups_nonempty (entries : JS.Map TemplateInfo) :
  Forall (fun kv => kv.2 <> []) (own_groups entries).
Proof.
  unfold own_groups.
  assert (G : forall o : JS.Obj (list string),
             Forall (fun kv => kv.2 <> []) o ->
             Forall (fun kv => kv.2 <> [])
               (foldl (fun o e =>
                         JS.obj_set o (category e.2)
                           (default [] (JS.obj_get o (category e.2)) ++ [e.1])%list)
                  o entries)).
  { induction entries as [|e entries IH]; intros o Ho; [exact Ho|].
    simpl. apply IH. apply (Map_set_values (fun l => l <> [])); [exact Ho|].
    destruct (default [] (JS.obj_get o (category e.2))); discriminate. }
  apply G. constructor.
Qed.

Lemma sort_each_category_nonempty (localeCompare : string -> string -> Z)
  (vault : Host.TAbstractFile) (o : JS.Obj (list string)) :
  Forall (fun kv => kv.2 <> []) o ->
  Forall (fun kv => kv.2 <> []) (sort_each_category localeCompare vault o).
Proof.
  intros Ho. unfold sort_each_category. apply Forall_fmap.
  eapply Forall_impl; [exact Ho|]. intros [k l] Hl. simpl in *.
  intros E. apply Hl. apply Permutation_nil_r.
  rewrite <- E. symmetry. apply sort_permutation.
Qed.

Lemma obj_get_listed (o : JS.Obj (list string)) (k : string) :
  Forall (fun kv => kv.2 <> []) o -> k ∈ o.*1 ->
  exists l, JS.obj_get o k = Some l /\ l <> [].
Proof.
  intros Ho Hk. unfold JS.obj_get.
  induction Ho as [|[k' l'] o Hl _ IH]; [inversion Hk|]. simpl in *.
  destruct (String.eqb_spec k' k) as [-> | Hne].
  - exists l'. split; [reflexivity | exact Hl].
  - apply IH. apply elem_of_cons in Hk. destruct Hk as [-> | Hk]; [congruence | exact Hk].
Qed.

Lemma Object_keys_listed {V} (o : JS.Obj V) (k : string) :
  k ∈ JS.Object_keys o -> k ∈ o.*1.
Proof.
  unfold JS.Object_keys, JS.index_keys, JS.name_keys. intros Hk.
  apply elem_of_app in Hk. destruct Hk as [Hk | Hk].
  - apply list_elem_of_fmap in Hk. destruct Hk as ([n k'] & -> & Hk).
    rewrite (sort_permutation _ _) in Hk.
    apply list_elem_of_omap in Hk. destruct Hk as ([k0 v] & Hin & Hf).
    simpl in Hf. destruct (JS.array_index k0); [|discriminate].
    injection Hf as _ <-. apply (list_elem_of_fmap_2 fst _ _ Hin).
  - apply list_elem_of_omap in Hk. destruct Hk as ([k0 v] & Hin & Hf).
    simpl in Hf. destruct (JS.array_index k0); [discriminate|].
    injection Hf as <-. apply (list_elem_of_fmap_2 fst _ _ Hin).
Qed.

(** A picker whose index has no empty category, with the cursor reset by the
    end of [loadTemplates] over a non-empty array of keys of the index. *)
Lemma reset_selection_valid (categories : list string) (m : Modal) :
  Forall (fun kv => kv.2 <> []) (categorizedTemplates m) ->
  categories <> [] ->
  (forall c, c ∈ categories -> c ∈ (categorizedTemplates m).*1) ->
  cursor_valid categories (PickerCommon.reset_selection categories m)
  /\ currentCategoryIndex (PickerCommon.reset_selection categories m) = 0
  /\ currentTemplateIndex (PickerCommon.reset_selection categories m) = 0
  /\ exists p, selectedTemplate (PickerCommon.reset_selection categories m) = Some p
               /\ addresses categories
                    (PickerCommon.reset_selection categories m) p.
Proof.
  intros Ho Hne Hin.
  assert (Hpop : populated categories m).
  { split; [exact Hne|]. apply Forall_forall. intros c Hc.
    destruct (obj_get_listed _ c Ho (Hin c Hc)) as (l & Hl & Hnl).
    unfold templates_of. simpl. rewrite Hl. exact Hnl. }
  destruct categories as [|c cats]; [congruence|].
  destruct (obj_get_listed _ c Ho (Hin c ltac:(left))) as (l & Hl & Hnl).
  destruct l as [|p l]; [congruence|].
  unfold PickerCommon.reset_selection. simpl. rewrite Hl. simpl.
  assert (Hadd : addresses (c :: cats)
                   (selectTemplate 0 0 (Some p) (selectTemplate 0 0 None m)) p).
  { exists c. split; [reflexivity|]. unfold templates_of. simpl. rewrite Hl.
    reflexivity. }
  split; [split; [exact Hpop | exists p; exact Hadd]|].
  split; [reflexivity|]. split; [reflexivity|].
  exists p. split; [reflexivity | exact Hadd].
Qed.

(** However [loadTemplates] leaves the grouping, the index has no empty
    category. *)
Lemma scan_and_group_nonempty (localeCompare : string -> string -> Z)
  (vault : Host.TAbstractFile)
  (st : Settings.TinyTemplatesSettings * Modal) :
  Forall (fun kv => kv.2 <> [])
    (categorizedTemplates
       (PickerCommon.scan_and_group localeCompare vault st).1.1.2).
Proof.
  pose proof (scan_and_group_cases localeCompare vault st) as Hcases.
  destruct (PickerCommon.scan_and_group localeCompare vault st)
    as [[[s m] notices] progress].
  destruct progress; cbn [fst snd] in *.
  - rewrite Hcases. constructor.
  - destruct Hcases as (_ & -> & _). apply own_groups_nonempty.
  - destruct Hcases as (_ & -> & _).
    apply sort_each_category_nonempty, own_groups_nonempty.
Qed.

(** After [loadTemplates] of the later revision on a fresh picker, when
    there is at least one category, the cursor is at the first template of
    the first category, which is the selected template. *)
Theorem part000_loadTemplates_resets_the_cursor
  (localeCompare : string -> string -> Z) (vault : Host.TAbstractFile)
  (s : Settings.TinyTemplatesSettings) :
  let m := (Part000.loadTemplates localeCompare vault (s, new_Modal)).1.2 in
  sortedCategories m <> [] ->
  cursor_valid (sortedCategories m) m
  /\ currentCategoryIndex m = 0
  /\ currentTemplateIndex m = 0
  /\ exists p, selectedTemplate m = Some p /\ addresses (sortedCategories m) m p.
Proof.
  intros m. subst m. unfold Part000.loadTemplates.
  pose proof (scan_and_group_nonempty localeCompare vault (s, new_Modal)) as Hne.
  pose proof (scan_and_group_cases localeCompare vault (s, new_Modal)) as Hcases.
  destruct (PickerCommon.scan_and_group localeCompare vault (s, new_Modal))
    as [[[s' m'] notices] progress].
  destruct progress; cbn [fst snd] in *.
  - rewrite Hcases. simpl. congruence.
  - destruct Hcases as (_ & _ & (_ & _ & _ & E)). rewrite E. simpl. congruence.
  - simpl.
    set (cats := JS.sort (compareCategories localeCompare)
                   (JS.Object_keys (categorizedTemplates m'))).
    destruct (reset_selection_index cats (set_sortedCategories cats m'))
      as [E1 _]. rewrite E1. simpl. intros Hcats.
    apply (reset_selection_valid cats (set_sortedCategories cats m'));
      [exact Hne | exact Hcats |].
    intros c Hc. simpl. apply Object_keys_listed.
    unfold cats in Hc. rewrite (sort_permutation _ _) in Hc. exact Hc.
Qed.

Lemma part000_loadTemplates_resets_the_cursor_witness :
  cursor_valid ["A"; "B"] opened_by_part000.
Proof.
  refine (proj1 (part000_loadTemplates_resets_the_cursor byteCompare
                   vault_B_then_A (Settings.mkSettings "T" ∅) _)).
  vm_compute. discriminate.
Defined.

(** With the cursor at the origin, over any non-empty array of keys of an
    index without empty category, the cursor addresses a template. *)
Lemma origin_valid (categories : list string) (m : Modal) :
  Forall (fun kv => kv.2 <> []) (categorizedTemplates m) ->
  categories <> [] ->
  (forall c, c ∈ categories -> c ∈ (categorizedTemplates m).*1) ->
  currentCategoryIndex m = 0 -> currentTemplateIndex m = 0 ->
  cursor_valid categories m.
Proof.
  intros Ho Hne Hin Ec Et. split.
  - split; [exact Hne|]. apply Forall_forall. intros c Hc.
    destruct (obj_get_listed _ c Ho (Hin c Hc)) as (l & Hl & Hnl).
    unfold templates_of. simpl. rewrite Hl. exact Hnl.
  - destruct categories as [|c cats]; [congruence|].
    destruct (obj_get_listed _ c Ho (Hin c ltac:(left))) as (l & Hl & Hnl).
    destruct l as [|p l]; [congruence|].
    exists p, c. rewrite Ec, Et. split; [reflexivity|].
    unfold templates_of. simpl. rewrite Hl. reflexivity.
Qed.

Lemma reset_selection_origin (categories : list string) (m : Modal) :
  currentCategoryIndex (PickerCommon.reset_selection categories m) = 0
  /\ currentTemplateIndex (PickerCommon.reset_selection categories m) = 0.
Proof.
  unfold PickerCommon.reset_selection.
  destruct categories as [|c l]; [split; reflexivity|]. simpl.
  destruct (JS.obj_get (categorizedTemplates m) c) as [l'|]; [|split; reflexivity].
  destruct (0 <? JS.len l'); split; reflexivity.
Qed.

(** After [loadTemplates] of the earlier revision on a fresh picker, when
    the index has at least one key, the cursor addresses a template of the
    listing that the navigation reads, the keys of the index. *)
Theorem main_ts_loadTemplates_resets_the_cursor
  (localeCompare : string -> string -> Z) (vault : Host.TAbstractFile)
  (s : Settings.TinyTemplatesSettings) :
  let m := (MainTs.loadTemplates localeCompare vault (s, new_Modal)).1.2 in
  JS.Object_keys (categorizedTemplates m) <> [] ->
  cursor_valid (JS.Object_keys (categorizedTemplates m)) m.
Proof.
  intros m. subst m. unfold MainTs.loadTemplates.
  pose proof (scan_and_group_nonempty localeCompare vault (s, new_Modal)) as Hne.
  pose proof (scan_and_group_cases localeCompare vault (s, new_Modal)) as Hcases.
  destruct (PickerCommon.scan_and_group localeCompare vault (s, new_Modal))
    as [[[s' m'] notices] progress].
  destruct progress; cbn [fst snd] in *.
  - rewrite Hcases. intros Hkeys. exfalso. apply Hkeys. reflexivity.
  - destruct Hcases as (_ & _ & (_ & Ec & Et & _)). intros Hkeys.
    apply origin_valid; try assumption.
    intros c Hc. apply Object_keys_listed. exact Hc.
  - simpl.
    set (cats := JS.sort (compareCategories localeCompare)
                   (JS.Object_keys (categorizedTemplates m'))).
    destruct (reset_selection_index cats m') as [_ E2].
    destruct (reset_selection_origin cats m') as [Ec Et].
    rewrite E2. intros Hkeys.
    apply origin_valid; try assumption.
    + rewrite E2. exact Hne.
    + intros c Hc. rewrite E2. apply Object_keys_listed. exact Hc.
Qed.

Lemma main_ts_loadTemplates_resets_the_cursor_witness :
  cursor_valid ["B"; "A"] opened_by_main_ts.
Proof.
  refine (main_ts_loadTemplates_resets_the_cursor byteCompare
            vault_B_then_A (Settings.mkSettings "T" ∅) _).
  vm_compute. discriminate.
Defined.

End LoadFacts.

(** ** The cursor and the rendered list *)

Module ListingFacts.
Import TinyTemplatesModal CursorSpec OrderSpec.

(** C3, in the earlier revision, on [vault_B3_then_A] with a collation that
    puts [A] before [B].  The rendered list shows [A], with one card, then
    [B], with three, and the card of [b3.md] carries the cursor (1, 2).  A
    click on that card sets the cursor to (1, 2) and, no target folder
    being set, leaves the picker open.  There are four templates.  The
    navigation reads the keys as [Object.keys] lists them, [B] then [A]:
    four calls of [navigateWithinCategory(+1)] end at (1, 0), on [a.md], and
    not at (1, 2).  In the later revision, which navigates over
    [sortedCategories], the same four calls come back to (1, 2), on
    [b3.md]. *)
Theorem main_ts_right_does_not_come_back :
  cards_of (MainTs.renderTemplateList byteCompare vault_B3_then_A
              listed_by_main_ts)
  = [ ("A", [("T/A/a.md", 0, 0)]);
      ("B", [("T/B/b1.md", 1, 0); ("T/B/b2.md", 1, 1); ("T/B/b3.md", 1, 2)]) ]
  /\ Vault.closed
       (MainTsEngine.createFileFromTemplate settings_of_main_ts "T/B/b3.md"
          world_B3_then_A) = false
  /\ (let clicked := selectTemplate 1 2 (Some "T/B/b3.md") listed_by_main_ts in
      let around := Nat.iter 4 (MainTs.navigateWithinCategory 1) clicked in
      JS.Object_keys (categorizedTemplates clicked) = ["B"; "A"]
      /\ total (JS.Object_keys (categorizedTemplates clicked)) clicked = 4%nat
      /\ currentCategoryIndex around = 1
      /\ currentTemplateIndex around = 0
      /\ selectedTemplate around = Some "T/A/a.md")
  /\ (let clicked := selectTemplate 1 2 (Some "T/B/b3.md") listed_by_part000 in
      let around := Nat.iter 4 (Part000.navigateWithinCategory 1) clicked in
      sortedCategories clicked = ["A"; "B"]
      /\ total (sortedCategories clicked) clicked = 4%nat
      /\ currentCategoryIndex around = 1
      /\ currentTemplateIndex around = 2
      /\ selectedTemplate around = Some "T/B/b3.md").
Proof.
  vm_compute. repeat split.
Qed.

(** C9, in the earlier revision, on [vault_B3_then_A] with a collation that
    puts [A] before [B].  When the picker opens, the template of [A] is
    selected and the cursor is (0, 0).  After one ArrowRight the cursor is
    (0, 1) and [b2.md] is selected: the navigation has read the keys as
    [Object.keys] lists them, [B] then [A].  In the rendered list the
    category 0 is [A], which has one card: no card carries (0, 1), and the
    cursor addresses no template of the listing.  In the later revision the
    same key moves the cursor to (1, 0), the card of [b1.md]. *)
Theorem main_ts_cursor_leaves_the_listing :
  let m := MainTs.press ArrowRight listed_by_main_ts in
  let listing :=
    JS.sort (compareCategories byteCompare)
      (JS.Object_keys (categorizedTemplates m)) in
  (selectedTemplate listed_by_main_ts = Some "T/A/a.md"
   /\ currentCategoryIndex listed_by_main_ts = 0
   /\ currentTemplateIndex listed_by_main_ts = 0)
  /\ cards_of (MainTs.renderTemplateList byteCompare vault_B3_then_A m)
     = [ ("A", [("T/A/a.md", 0, 0)]);
         ("B", [("T/B/b1.md", 1, 0); ("T/B/b2.md", 1, 1); ("T/B/b3.md", 1, 2)]) ]
  /\ (currentCategoryIndex m = 0 /\ currentTemplateIndex m = 1
      /\ selectedTemplate m = Some "T/B/b2.md")
  /\ populated listing m
  /\ (forall p, ~ addresses listing m p)
  /\ (let m' := Part000.press ArrowRight listed_by_part000 in
      currentCategoryIndex m' = 1 /\ currentTemplateIndex m' = 0
      /\ selectedTemplate m' = Some "T/B/b1.md"
      /\ addresses (sortedCategories m') m' "T/B/b1.md").
Proof.
  intros m listing.
  split; [vm_compute; repeat split|].
  split; [vm_compute; reflexivity|].
  split; [vm_compute; repeat split|].
  split; [|split].
  - split; [vm_compute; discriminate|].
    vm_compute. repeat constructor; discriminate.
  - intros p (c & Hc & Hp). vm_compute in Hc. injection Hc as <-.
    vm_compute in Hp. discriminate.
  - vm_compute. split; [reflexivity|]. split; [reflexivity|].
    split; [reflexivity|]. exists "B". split; reflexivity.
Qed.

End ListingFacts.

(** ** The instantiation engine: what a run changes *)

Module EngineRunFacts.
Import Vault Engine EngineSpec EngineFacts.

Lemma choose_fileName_rejects (tz : Z) (t : Settings.TemplateSettings)
  (w : World) :
  rejects (Part000Engine.choose_fileName tz t w).2 = rejects w.
Proof.
  unfold Part000Engine.choose_fileName, TitleFormatModal.formatTitle.
  destruct (Settings.titleFormat t) as [f|]; simpl; [|reflexivity].
  destruct (String.eqb f ""); simpl; [reflexivity|].
  destruct (String.eqb _ ""); reflexivity.
Qed.

(** What a run does, in either revision.  Either it stops at one of the four
    checks or at [vault.create], and then it shows a notice and changes
    nothing else; or it creates the new file, with the body of the
    template.  In that case it either goes through and closes the picker, or
    the host rejects [processFrontMatter] or [openFile] for the new file:
    the notice of the failure is shown, nothing is opened and the new file
    stays, with the front matter of the template when it was
    [processFrontMatter] that was rejected. *)
Lemma part000_run_vault (tz : Z) (settings : Settings.TinyTemplatesSettings)
  (templatePath : string) (w : World) :
  let w' := Part000Engine.createFileFromTemplate tz settings templatePath w in
  (vault w' = vault w /\ patched w' = patched w /\ opened w' = opened w
   /\ closed w' = closed w /\ exists text, notices w' = (notices w ++ [text])%list)
  \/ (exists filePath content fm,
        vault w !! templatePath = Some (File content)
        /\ vault w !! filePath = None
        /\ vault w' = <[filePath := File (mkNote fm (body content))]> (vault w)
        /\ (closed w' = true /\ notices w' = notices w
            \/ closed w' = closed w /\ opened w' = opened w
               /\ exists message,
                    notices w' = (notices w ++ [notice_failed message])%list
                    /\ (rejects w (ProcessFrontMatterCall filePath) = Some message
                        /\ fm = frontmatter content /\ patched w' = patched w
                        \/ rejects w (OpenFileCall filePath) = Some message))).
Proof.
  unfold Part000Engine.createFileFromTemplate.
  destruct (resolve settings templatePath w) as [text | [[c t] f]] eqn:R.
  { left. simpl. repeat split. exists text. reflexivity. }
  apply resolve_inr in R. destruct R as (Hf & _).
  pose proof (choose_fileName_frame tz t w) as Fr.
  pose proof (choose_fileName_rejects tz t w) as Fj.
  destruct (Part000Engine.choose_fileName tz t w) as [fileName w1].
  simpl in Fr, Fj. destruct Fr as (Fv & Fk & Fn & Fp & Fo & Fc).
  unfold create. rewrite Fv.
  destruct (vault w !! (f +:+ "/" +:+ fileName)) as [e|] eqn:Hfree.
  { left. simpl. rewrite Fv, Fp, Fo, Fc, Fn. repeat split. eexists. reflexivity. }
  destruct (rejects w1 (CreateCall (f +:+ "/" +:+ fileName))).
  { left. simpl. rewrite Fv, Fp, Fo, Fc, Fn. repeat split. eexists. reflexivity. }
  right. exists (f +:+ "/" +:+ fileName), c.
  destruct (0 <? Z.of_nat (size (default ∅ (Settings.dateFields t)))).
  - unfold processFrontMatter, openFile. simpl.
    destruct (rejects w1 (ProcessFrontMatterCall (f +:+ "/" +:+ fileName)))
      as [message|] eqn:Hpfm; rewrite Fj in Hpfm.
    { exists (frontmatter c). simpl. rewrite Fc, Fo, Fn, Fp.
      split; [exact Hf|]. split; [exact Hfree|].
      split; [destruct c; reflexivity|]. right.
      split; [reflexivity|]. split; [reflexivity|]. exists message.
      split; [reflexivity|]. left. repeat split. exact Hpfm. }
    rewrite lookup_insert_eq. simpl.
    destruct (rejects w1 (OpenFileCall (f +:+ "/" +:+ fileName)))
      as [message|] eqn:Hopen; rewrite Fj in Hopen.
    + eexists. simpl. rewrite insert_insert_eq, Fc, Fo, Fn.
      split; [exact Hf|]. split; [exact Hfree|]. split; [reflexivity|]. right.
      split; [reflexivity|]. split; [reflexivity|]. exists message.
      split; [reflexivity|]. right. exact Hopen.
    + eexists. simpl. rewrite insert_insert_eq, Fn.
      split; [exact Hf|]. split; [exact Hfree|]. split; [reflexivity|]. left.
      split; reflexivity.
  - unfold openFile. simpl. exists (frontmatter c).
    destruct (rejects w1 (OpenFileCall (f +:+ "/" +:+ fileName)))
      as [message|] eqn:Hopen; rewrite Fj in Hopen; simpl.
    + rewrite Fc, Fo, Fn.
      split; [exact Hf|]. split; [exact Hfree|].
      split; [destruct c; reflexivity|]. right.
      split; [reflexivity|]. split; [reflexivity|]. exists message.
      split; [reflexivity|]. right. exact Hopen.
    + rewrite Fn.
      split; [exact Hf|]. split; [exact Hfree|].
      split; [destruct c; reflexivity|]. left. split; reflexivity.
Qed.

Lemma main_ts_run_vault (settings : Settings.TinyTemplatesSettings)
  (templatePath : string) (w : World) :
  let w' := MainTsEngine.createFileFromTemplate settings templatePath w in
  (vault w' = vault w /\ patched w' = patched w /\ opened w' = opened w
   /\ closed w' = closed w /\ exists text, notices w' = (notices w ++ [text])%list)
  \/ (exists filePath content fm,
        vault w !! templatePath = Some (File content)
        /\ vault w !! filePath = None
        /\ vault w' = <[filePath := File (mkNote fm (body content))]> (vault w)
        /\ (closed w' = true
            /\ notices w' = (notices w ++ [notice_created filePath])%list
            \/ closed w' = closed w /\ opened w' = opened w
               /\ exists message,
                    notices w' = (notices w ++ [notice_failed message])%list
                    /\ (rejects w (ProcessFrontMatterCall filePath) = Some message
                        /\ fm = frontmatter content /\ patched w' = patched w
                        \/ rejects w (OpenFileCall filePath) = Some message))).
Proof.
  unfold MainTsEngine.createFileFromTemplate.
  destruct (resolve settings templatePath w) as [text | [[c t] f]] eqn:R.
  { left. simpl. repeat split. exists text. reflexivity. }
  apply resolve_inr in R. destruct R as (Hf & _).
  unfold create.
  destruct (vault w !! (f +:+ "/" +:+ placeholder)) as [e|] eqn:Hfree.
  { left. simpl. repeat split. eexists. reflexivity. }
  destruct (rejects w (CreateCall (f +:+ "/" +:+ placeholder))).
  { left. simpl. repeat split. eexists. reflexivity. }
  right. exists (f +:+ "/" +:+ placeholder), c.
  destruct (0 <? Z.of_nat (size (default ∅ (Settings.dateFields t)))).
  - unfold processFrontMatter, openFile. simpl.
    destruct (rejects w (ProcessFrontMatterCall (f +:+ "/" +:+ placeholder)))
      as [message|] eqn:Hpfm.
    { exists (frontmatter c). simpl.
      split; [exact Hf|]. split; [exact Hfree|].
      split; [destruct c; reflexivity|]. right.
      split; [reflexivity|]. split; [reflexivity|]. exists message.
      split; [reflexivity|]. left. repeat split. }
    rewrite lookup_insert_eq. simpl.
    destruct (rejects w (OpenFileCall (f +:+ "/" +:+ placeholder)))
      as [message|] eqn:Hopen.
    + eexists. simpl. rewrite insert_insert_eq.
      split; [exact Hf|]. split; [exact Hfree|]. split; [reflexivity|]. right.
      split; [reflexivity|]. split; [reflexivity|]. exists message.
      split; [reflexivity|]. right. reflexivity.
    + eexists. simpl. rewrite insert_insert_eq.
      split; [exact Hf|]. split; [exact Hfree|]. split; [reflexivity|]. left.
      split; reflexivity.
  - unfold openFile. simpl. exists (frontmatter c).
    destruct (rejects w (OpenFileCall (f +:+ "/" +:+ placeholder)))
      as [message|] eqn:Hopen; simpl.
    + split; [exact Hf|]. split; [exact Hfree|].
      split; [destruct c; reflexivity|]. right.
      split; [reflexivity|]. split; [reflexivity|]. exists message.
      split; [reflexivity|]. right. reflexivity.
    + split; [exact Hf|]. split; [exact Hfree|].
      split; [destruct c; reflexivity|]. left. split; reflexivity.
Qed.

(** Without date fields the loop of the callback has nothing to stamp. *)
Lemma stamp_no_field (dateFields : gmap string bool) (today : string)
  (fm : gmap string string) :
  (0 <? Z.of_nat (size dateFields)) = false -> stamp dateFields today fm = fm.
Proof.
  intros Hs. apply Z.ltb_ge in Hs.
  assert (E : dateFields = ∅) by (apply map_size_empty_iff; lia).
  subst dateFields. apply map_eq. intros k.
  rewrite stamp_lookup, lookup_empty. reflexivity.
Qed.

(** A run that starts with the picker open and closes it has passed the
    four checks, found the path of the new file free, and has created,
    stamped and opened the file. *)
Lemma main_ts_success (settings : Settings.TinyTemplatesSettings)
  (templatePath : string) (w : World) :
  closed w = false ->
  let w' := MainTsEngine.createFileFromTemplate settings templatePath w in
  closed w' = true ->
  exists content t f,
    resolve settings templatePath w = inr (content, t, f)
    /\ let filePath := f +:+ "/" +:+ placeholder in
       let dateFields := default ∅ (Settings.dateFields t) in
       vault w !! filePath = None
       /\ opened w' = (opened w ++ [filePath])%list
       /\ vault w'
          = <[filePath :=
                File (mkNote
                        (stamp dateFields
                           (MainTsEngine.today_of (clock w (ticks w)))
                           (frontmatter content))
                        (body content))]> (vault w).
Proof.
  intros Hc w'. subst w'. cbv zeta. unfold MainTsEngine.createFileFromTemplate.
  destruct (resolve settings templatePath w) as [text | [[c t] f]] eqn:R.
  { simpl. rewrite Hc. discriminate. }
  unfold create.
  destruct (vault w !! (f +:+ "/" +:+ placeholder)) as [e|] eqn:Hfree.
  { simpl. rewrite Hc. discriminate. }
  destruct (rejects w (CreateCall (f +:+ "/" +:+ placeholder))).
  { simpl. rewrite Hc. discriminate. }
  destruct (0 <? Z.of_nat (size (default ∅ (Settings.dateFields t)))) eqn:Hs.
  - unfold processFrontMatter, openFile. simpl.
    destruct (rejects w (ProcessFrontMatterCall (f +:+ "/" +:+ placeholder))).
    { simpl. rewrite Hc. discriminate. }
    rewrite lookup_insert_eq. simpl.
    destruct (rejects w (OpenFileCall (f +:+ "/" +:+ placeholder))).
    { simpl. rewrite Hc. discriminate. }
    intros _. exists c, t, f. simpl. rewrite insert_insert_eq.
    repeat split. exact Hfree.
  - unfold openFile. simpl.
    destruct (rejects w (OpenFileCall (f +:+ "/" +:+ placeholder))).
    { simpl. rewrite Hc. discriminate. }
    intros _. exists c, t, f. simpl.
    split; [reflexivity|]. split; [exact Hfree|]. split; [reflexivity|].
    rewrite (stamp_no_field _ _ _ Hs). destruct c; reflexivity.
Qed.

Lemma part000_success (tz : Z) (settings : Settings.TinyTemplatesSettings)
  (templatePath : string) (w : World) :
  closed w = false ->
  let w' := Part000Engine.createFileFromTemplate tz settings templatePath w in
  closed w' = true ->
  exists content t f,
    resolve settings templatePath w = inr (content, t, f)
    /\ let filePath :=
         f +:+ "/" +:+ (Part000Engine.choose_fileName tz t w).1 in
       let w1 := (Part000Engine.choose_fileName tz t w).2 in
       let dateFields := default ∅ (Settings.dateFields t) in
       vault w !! filePath = None
       /\ opened w' = (opened w ++ [filePath])%list
       /\ vault w'
          = <[filePath :=
                File (mkNote
                        (stamp dateFields
                           (Part000Engine.today_of tz (clock w (ticks w1)))
                           (frontmatter content))
                        (body content))]> (vault w).
Proof.
  intros Hc w'. subst w'. cbv zeta. unfold Part000Engine.createFileFromTemplate.
  destruct (resolve settings templatePath w) as [text | [[c t] f]] eqn:R.
  { simpl. rewrite Hc. discriminate. }
  pose proof (choose_fileName_frame tz t w) as Fr.
  destruct (Part000Engine.choose_fileName tz t w) as [fileName w1] eqn:N.
  simpl in Fr. destruct Fr as (Fv & Fk & Fn & Fp & Fo & Fc).
  unfold create. rewrite Fv.
  destruct (vault w !! (f +:+ "/" +:+ fileName)) as [e|] eqn:Hfree.
  { simpl. rewrite Fc, Hc. discriminate. }
  destruct (rejects w1 (CreateCall (f +:+ "/" +:+ fileName))).
  { simpl. rewrite Fc, Hc. discriminate. }
  destruct (0 <? Z.of_nat (size (default ∅ (Settings.dateFields t)))) eqn:Hs.
  - unfold processFrontMatter, openFile. simpl.
    destruct (rejects w1 (ProcessFrontMatterCall (f +:+ "/" +:+ fileName))).
    { simpl. rewrite Fc, Hc. discriminate. }
    rewrite lookup_insert_eq. simpl.
    destruct (rejects w1 (OpenFileCall (f +:+ "/" +:+ fileName))).
    { simpl. rewrite Fc, Hc. discriminate. }
    intros _. exists c, t, f. rewrite N. simpl.
    rewrite insert_insert_eq, Fo, Fk.
    repeat split. exact Hfree.
  - unfold openFile. simpl.
    destruct (rejects w1 (OpenFileCall (f +:+ "/" +:+ fileName))).
    { simpl. rewrite Fc, Hc. discriminate. }
    intros _. exists c, t, f. rewrite N. simpl. rewrite Fo.
    split; [reflexivity|]. split; [exact Hfree|]. split; [reflexivity|].
    rewrite (stamp_no_field _ _ _ Hs). destruct c; reflexivity.
Qed.

(** Either way the vault keeps what it had. *)
Lemma part000_run_grows (tz : Z) (settings : Settings.TinyTemplatesSettings)
  (templatePath : string) (w : World) :
  vault w ⊆ vault (Part000Engine.createFileFromTemplate tz settings templatePath w).
Proof.
  destruct (part000_run_vault tz settings templatePath w)
    as [(Hv & _) | (p & c & fm & _ & Hf & Hv & _)]; simpl in Hv; rewrite Hv.
  - reflexivity.
  - apply insert_subseteq. exact Hf.
Qed.

Lemma main_ts_run_grows (settings : Settings.TinyTemplatesSettings)
  (templatePath : string) (w : World) :
  vault w ⊆ vault (MainTsEngine.createFileFromTemplate settings templatePath w).
Proof.
  destruct (main_ts_run_vault settings templatePath w)
    as [(Hv & _) | (p & c & fm & _ & Hf & Hv & _)]; simpl in Hv; rewrite Hv.
  - reflexivity.
  - apply insert_subseteq. exact Hf.
Qed.

(** A run of [createFileFromTemplate] that starts with the picker open and
    does not close it has failed.  In both revisions such a run shows
    exactly one notice and opens nothing.  It leaves the vault and the
    processed front matter as they were, unless the host has rejected
    [processFrontMatter] or [openFile] for the new file: the [catch] clause
    undoes nothing, so the new file stays in the vault, with the body of the
    template, and, when it was [processFrontMatter] that was rejected, with
    the front matter of the template, its date fields not stamped. *)
Theorem failed_run_keeps_what_it_created (tz : Z)
  (settings : Settings.TinyTemplatesSettings) (templatePath : string)
  (w w' : World) :
  closed w = false ->
  w' = Part000Engine.createFileFromTemplate tz settings templatePath w
  \/ w' = MainTsEngine.createFileFromTemplate settings templatePath w ->
  closed w' = false ->
  opened w' = opened w
  /\ (exists text, notices w' = (notices w ++ [text])%list)
  /\ (vault w' = vault w /\ patched w' = patched w
      \/ exists filePath content fm message,
           vault w !! templatePath = Some (File content)
           /\ vault w !! filePath = None
           /\ vault w' = <[filePath := File (mkNote fm (body content))]> (vault w)
           /\ notices w' = (notices w ++ [notice_failed message])%list
           /\ (rejects w (ProcessFrontMatterCall filePath) = Some message
               /\ fm = frontmatter content /\ patched w' = patched w
               \/ rejects w (OpenFileCall filePath) = Some message)).
Proof.
  intros Hc Hrun Hc'.
  assert (G :
    (vault w' = vault w /\ patched w' = patched w /\ opened w' = opened w
     /\ closed w' = closed w
     /\ exists text, notices w' = (notices w ++ [text])%list)
    \/ (exists filePath content fm,
          vault w !! templatePath = Some (File content)
          /\ vault w !! filePath = None
          /\ vault w' = <[filePath := File (mkNote fm (body content))]> (vault w)
          /\ (closed w' = true
              \/ closed w' = closed w /\ opened w' = opened w
                 /\ exists message,
                      notices w' = (notices w ++ [notice_failed message])%list
                      /\ (rejects w (ProcessFrontMatterCall filePath)
                          = Some message
                          /\ fm = frontmatter content /\ patched w' = patched w
                          \/ rejects w (OpenFileCall filePath) = Some message)))).
  { destruct Hrun as [-> | ->].
    - destruct (part000_run_vault tz settings templatePath w)
        as [H | (p & c & fm & Hf & Hfree & Hv & [[Hx _] | Hfail])];
        [left; exact H | right; exists p, c, fm ..].
      + split; [exact Hf|]. split; [exact Hfree|]. split; [exact Hv|].
        left. exact Hx.
      + split; [exact Hf|]. split; [exact Hfree|]. split; [exact Hv|].
        right. exact Hfail.
    - destruct (main_ts_run_vault settings templatePath w)
        as [H | (p & c & fm & Hf & Hfree & Hv & [[Hx _] | Hfail])];
        [left; exact H | right; exists p, c, fm ..].
      + split; [exact Hf|]. split; [exact Hfree|]. split; [exact Hv|].
        left. exact Hx.
      + split; [exact Hf|]. split; [exact Hfree|]. split; [exact Hv|].
        right. exact Hfail. }
  destruct G as [(Hv & Hp & Ho & _ & Hn)
                | (p & c & fm & Hf & Hfree & Hv & [Hx | (_ & Ho & msg & Hn & Hwhy)])].
  - split; [exact Ho|]. split; [exact Hn|]. left. split; assumption.
  - congruence.
  - split; [exact Ho|]. split; [exists (notice_failed msg); exact Hn|].
    right. exists p, c, fm, msg. repeat split; assumption.
Qed.

Lemma failed_run_keeps_what_it_created_witness :
  let t := Settings.mkTemplateSettings "Daily" (Some "Inbox")
             (Some (<["created" := true]> ∅)) None None in
  let earlier :=
    MainTsEngine.createFileFromTemplate (settings_with t) "Templates/Daily.md"
      (strict_world (JS.mkDate 0)) in
  let later :=
    Part000Engine.createFileFromTemplate 480 (settings_with t)
      "Templates/Daily.md" (strict_world (JS.mkDate 0)) in
  (opened earlier = [] /\ exists text, notices earlier = [text])
  /\ (opened later = [] /\ exists text, notices later = [text]).
Proof.
  intros t earlier later.
  assert (Hearlier : closed earlier = false) by (vm_compute; reflexivity).
  assert (Hlater : closed later = false) by (vm_compute; reflexivity).
  destruct (failed_run_keeps_what_it_created 480 (settings_with t)
              "Templates/Daily.md" (strict_world (JS.mkDate 0)) earlier
              eq_refl (or_intror eq_refl) Hearlier)
    as (Ho & Hn & _).
  destruct (failed_run_keeps_what_it_created 480 (settings_with t)
              "Templates/Daily.md" (strict_world (JS.mkDate 0)) later
              eq_refl (or_introl eq_refl) Hlater)
    as (Ho' & Hn' & _).
  split; split; assumption.
Defined.

(** On a host that refuses to process front matter, a template with a
    flagged date field leaves the new file behind, with the date of the
    template, in both revisions. *)
Example strict_host_leaves_the_new_file :
  let t := Settings.mkTemplateSettings "Daily" (Some "Inbox")
             (Some (<["created" := true]> ∅)) None None in
  let earlier :=
    MainTsEngine.createFileFromTemplate (settings_with t) "Templates/Daily.md"
      (strict_world (JS.mkDate 0)) in
  let later :=
    Part000Engine.createFileFromTemplate 480 (settings_with t)
      "Templates/Daily.md" (strict_world (JS.mkDate 0)) in
  closed earlier = false
  /\ notices earlier = [notice_failed "YAMLParseError"]
  /\ frontmatter_at earlier "Inbox/未命名.md" "created" = Some "2000-01-01"
  /\ closed later = false
  /\ notices later = [notice_failed "YAMLParseError"]
  /\ frontmatter_at later "Inbox/未命名.md" "created" = Some "2000-01-01".
Proof.
  vm_compute. repeat split.
Qed.

(** No run of [createFileFromTemplate], failed or not, removes or changes an
    entry of the vault (the template among them), and a run adds at most one
    path; this holds in both revisions. *)
Theorem createFileFromTemplate_keeps_every_entry (tz : Z)
  (settings : Settings.TinyTemplatesSettings) (templatePath : string)
  (w : World) :
  let later := Part000Engine.createFileFromTemplate tz settings templatePath w in
  let earlier := MainTsEngine.createFileFromTemplate settings templatePath w in
  vault w ⊆ vault later
  /\ vault w ⊆ vault earlier
  /\ (forall p q, vault w !! p = None -> vault w !! q = None ->
        is_Some (vault later !! p) -> is_Some (vault later !! q) -> p = q)
  /\ (forall p q, vault w !! p = None -> vault w !! q = None ->
        is_Some (vault earlier !! p) -> is_Some (vault earlier !! q) -> p = q).
Proof.
  intros later earlier.
  assert (G : forall w' : World,
    (vault w' = vault w \/
     exists filePath data, vault w !! filePath = None
       /\ vault w' = <[filePath := File data]> (vault w)) ->
    vault w ⊆ vault w'
    /\ (forall p q, vault w !! p = None -> vault w !! q = None ->
        is_Some (vault w' !! p) -> is_Some (vault w' !! q) -> p = q)).
  { intros w' [E | (fp & d & Hfree & E)]; rewrite E.
    - split; [reflexivity|]. intros p q Hp _ [x Hx] _. congruence.
    - split; [apply insert_subseteq; exact Hfree|].
      intros p q Hp Hq [x Hx] [y Hy].
      destruct (decide (fp = p)) as [<-|Np];
        [|rewrite lookup_insert_ne in Hx by exact Np; congruence].
      destruct (decide (fp = q)) as [<-|Nq];
        [reflexivity | rewrite lookup_insert_ne in Hy by exact Nq; congruence]. }
  assert (Gl := G later). assert (Ge := G earlier).
  destruct Gl as [Gl1 Gl2].
  { destruct (part000_run_vault tz settings templatePath w)
      as [(Hv & _) | (p & c & fm & _ & Hf & Hv & _)]; [left; exact Hv|].
    right. exists p, (mkNote fm (body c)). split; assumption. }
  destruct Ge as [Ge1 Ge2].
  { destruct (main_ts_run_vault settings templatePath w)
      as [(Hv & _) | (p & c & fm & _ & Hf & Hv & _)]; [left; exact Hv|].
    right. exists p, (mkNote fm (body c)). split; assumption. }
  repeat split; assumption.
Qed.

Lemma createFileFromTemplate_keeps_every_entry_witness :
  vault (inbox_world (JS.mkDate 0))
  ⊆ vault (MainTsEngine.createFileFromTemplate
             (settings_with
                (Settings.mkTemplateSettings "Daily" (Some "Inbox") None None None))
             "Templates/Daily.md" (inbox_world (JS.mkDate 0)))
  /\ "Inbox/未命名.md" = "Inbox" +:+ "/" +:+ placeholder.
Proof.
  destruct (createFileFromTemplate_keeps_every_entry 480
              (settings_with
                 (Settings.mkTemplateSettings "Daily" (Some "Inbox") None None None))
              "Templates/Daily.md" (inbox_world (JS.mkDate 0)))
    as (_ & Hsub & _ & Hone).
  split; [exact Hsub|].
  apply Hone.
  - vm_compute. reflexivity.
  - vm_compute. reflexivity.
  - vm_compute. eexists. reflexivity.
  - vm_compute. eexists. reflexivity.
Defined.

End EngineRunFacts.

(** ** The instantiation engine: a second run *)

Module EngineRepeatFacts.
Import Vault Engine EngineSpec EngineFacts EngineRunFacts.

(** The four checks read the vault only, and keep passing when entries are
    added to it. *)
Lemma resolve_more_entries (settings : Settings.TinyTemplatesSettings)
  (templatePath : string) (w w' : World) r :
  vault w ⊆ vault w' ->
  resolve settings templatePath w = inr r ->
  resolve settings templatePath w' = inr r.
Proof.
  intros Hsub. unfold resolve.
  destruct (vault w !! templatePath) as [[c|]|] eqn:Hf; try discriminate.
  rewrite (lookup_weaken _ _ _ _ Hf Hsub).
  destruct (Settings.templates settings !! templatePath) as [t|];
    [|destruct (JS.inherited templatePath); discriminate].
  destruct (String.eqb (default "" (Settings.targetFolder t)) "");
    [discriminate|].
  destruct (vault w !! default "" (Settings.targetFolder t)) as [[c'|]|] eqn:Hd;
    try discriminate.
  rewrite (lookup_weaken _ _ _ _ Hd Hsub). intros E. exact E.
Qed.

Lemma resolve_passes (settings : Settings.TinyTemplatesSettings)
  (templatePath : string) (w : World) (content : Note)
  (t : Settings.TemplateSettings) :
  vault w !! templatePath = Some (File content) ->
  Settings.templates settings !! templatePath = Some t ->
  default "" (Settings.targetFolder t) <> "" ->
  vault w !! default "" (Settings.targetFolder t) = Some Folder ->
  resolve settings templatePath w
  = inr (content, t, default "" (Settings.targetFolder t)).
Proof.
  intros Hf Hs Hne Hd. unfold resolve. rewrite Hf, Hs.
  apply String.eqb_neq in Hne. rewrite Hne, Hd. reflexivity.
Qed.

(** After a run that succeeded, the earlier revision cannot instantiate any
    template with the same target folder: the name of the new file is the
    placeholder again, the path is taken, and the run is the failure notice
    and nothing else.  The same holds in the later revision for templates
    without title format. *)
Theorem second_instantiation_finds_the_name_taken (tz : Z)
  (settings : Settings.TinyTemplatesSettings) (first second : string)
  (w : World) (content : Note) (t1 t2 : Settings.TemplateSettings) :
  closed w = false ->
  Settings.templates settings !! first = Some t1 ->
  Settings.templates settings !! second = Some t2 ->
  vault w !! second = Some (File content) ->
  Settings.targetFolder t2 = Settings.targetFolder t1 ->
  (let w1 := MainTsEngine.createFileFromTemplate settings first w in
   closed w1 = true ->
   MainTsEngine.createFileFromTemplate settings second w1
   = Notice (notice_failed "File already exists.") w1)
  /\ (let w1 := Part000Engine.createFileFromTemplate tz settings first w in
      Settings.titleFormat t1 = None \/ Settings.titleFormat t1 = Some "" ->
      Settings.titleFormat t2 = None \/ Settings.titleFormat t2 = Some "" ->
      closed w1 = true ->
      Part000Engine.createFileFromTemplate tz settings second w1
      = Notice (notice_failed "File already exists.") w1).
Proof.
  intros Hc Hs1 Hs2 Hf2 Htf.
  assert (Second : forall (w1 : World) f c1,
    resolve settings first w = inr (c1, t1, f) ->
    vault w ⊆ vault w1 ->
    is_Some (vault w1 !! (f +:+ "/" +:+ placeholder)) ->
    resolve settings second w1 = inr (content, t2, f)
    /\ create (f +:+ "/" +:+ placeholder) content w1
       = inl "File already exists.").
  { intros w1 f c1 R Hsub [e He].
    apply resolve_inr in R. destruct R as (_ & Hs1' & Hf' & Hne & Hd).
    split.
    - apply (resolve_more_entries settings second w w1 _ Hsub).
      rewrite <- Hf', <- Htf.
      apply resolve_passes; [exact Hf2 | exact Hs2 | |];
        rewrite Htf, Hf'; assumption.
    - unfold create. rewrite He. reflexivity. }
  split.
  - intros w1 Hc1.
    pose proof (main_ts_run_grows settings first w) as Hsub.
    fold w1 in Hsub.
    assert (Hn : exists f c1, resolve settings first w = inr (c1, t1, f)
                 /\ is_Some (vault w1 !! (f +:+ "/" +:+ placeholder))).
    { destruct (main_ts_success settings first w Hc Hc1)
        as (c & t & f & R & _ & _ & Hv).
      pose proof (resolve_inr _ _ _ _ _ _ R) as (_ & Hs1' & _).
      assert (t = t1) by congruence. subst t.
      exists f, c. split; [exact R|].
      fold w1 in Hv. rewrite Hv, lookup_insert_eq. eexists. reflexivity. }
    destruct Hn as (f & c1 & R & Htaken).
    destruct (Second w1 f c1 R Hsub Htaken) as [R2 C2].
    unfold MainTsEngine.createFileFromTemplate at 1. rewrite R2, C2.
    reflexivity.
  - intros w1 Hn1 Hn2 Hc1.
    pose proof (part000_run_grows tz settings first w) as Hsub.
    fold w1 in Hsub.
    assert (Hn : exists f c1, resolve settings first w = inr (c1, t1, f)
                 /\ is_Some (vault w1 !! (f +:+ "/" +:+ placeholder))).
    { destruct (part000_success tz settings first w Hc Hc1)
        as (c & t & f & R & _ & _ & Hv).
      pose proof (resolve_inr _ _ _ _ _ _ R) as (_ & Hs1' & _).
      assert (t = t1) by congruence. subst t.
      exists f, c. split; [exact R|].
      rewrite (choose_fileName_without_format tz t1 w Hn1) in Hv. simpl in Hv.
      fold w1 in Hv. rewrite Hv, lookup_insert_eq. eexists. reflexivity. }
    destruct Hn as (f & c1 & R & Htaken).
    destruct (Second w1 f c1 R Hsub Htaken) as [R2 C2].
    unfold Part000Engine.createFileFromTemplate at 1.
    rewrite R2, (choose_fileName_without_format tz t2 w1 Hn2), C2.
    reflexivity.
Qed.

Lemma second_instantiation_finds_the_name_taken_witness :
  let s := settings_with
             (Settings.mkTemplateSettings "Daily" (Some "Inbox") None None None) in
  let w1 := MainTsEngine.createFileFromTemplate s "Templates/Daily.md"
              (inbox_world (JS.mkDate 0)) in
  MainTsEngine.createFileFromTemplate s "Templates/Daily.md" w1
  = Notice (notice_failed "File already exists.") w1.
Proof.
  refine (proj1 (second_instantiation_finds_the_name_taken 480
            (settings_with
               (Settings.mkTemplateSettings "Daily" (Some "Inbox") None None None))
            "Templates/Daily.md" "Templates/Daily.md"
            (inbox_world (JS.mkDate 0))
            (mkNote (<["created" := "2000-01-01"]> (<["title" := "Daily"]> ∅))
               "# Daily")
            (Settings.mkTemplateSettings "Daily" (Some "Inbox") None None None)
            (Settings.mkTemplateSettings "Daily" (Some "Inbox") None None None)
            _ _ _ _ _) _).
  - reflexivity.
  - vm_compute. reflexivity.
  - vm_compute. reflexivity.
  - vm_compute. reflexivity.
  - reflexivity.
  - vm_compute. reflexivity.
Defined.

End EngineRepeatFacts.

(** ** The instantiation engine: when a run succeeds *)

Module EngineSuccessFacts.
Import Vault Engine EngineSpec EngineFacts EngineRunFacts.

(** Without a field flagged true the loop of the front-matter callback
    changes nothing. *)
Lemma stamp_nothing_enabled (dateFields : gmap string bool) (today : string)
  (fm : gmap string string) :
  (forall k, dateFields !! k <> Some true) -> stamp dateFields today fm = fm.
Proof.
  intros Hno. apply map_eq. intros k. rewrite stamp_lookup.
  specialize (Hno k). destruct (dateFields !! k) as [[]|]; simpl;
    [congruence | reflexivity | reflexivity].
Qed.

(** When no date field of a template is flagged true, whether fields are
    stored as off or none is stored, the file that a successful run creates
    has the very content of the template, front matter included, in both
    revisions. *)
Theorem instantiation_without_enabled_field_copies_the_template (tz : Z)
  (settings : Settings.TinyTemplatesSettings) (templatePath : string)
  (w : World) (content : Note) (t : Settings.TemplateSettings) :
  closed w = false ->
  vault w !! templatePath = Some (File content) ->
  Settings.templates settings !! templatePath = Some t ->
  (forall k, default ∅ (Settings.dateFields t) !! k <> Some true) ->
  (let w' := MainTsEngine.createFileFromTemplate settings templatePath w in
   closed w' = true ->
   exists filePath,
     vault w !! filePath = None
     /\ vault w' = <[filePath := File content]> (vault w)
     /\ opened w' = (opened w ++ [filePath])%list)
  /\ (let w' := Part000Engine.createFileFromTemplate tz settings templatePath w in
      closed w' = true ->
      exists filePath,
        vault w !! filePath = None
        /\ vault w' = <[filePath := File content]> (vault w)
        /\ opened w' = (opened w ++ [filePath])%list).
Proof.
  intros Hc Hf Hs Hno.
  assert (Hcopy : forall today,
    mkNote (stamp (default ∅ (Settings.dateFields t)) today (frontmatter content))
      (body content) = content).
  { intros today. rewrite stamp_nothing_enabled by exact Hno.
    destruct content; reflexivity. }
  split; intros w' Hc'.
  - destruct (main_ts_success settings templatePath w Hc Hc')
      as (c & t' & f & R & Hfree & Ho & Hv).
    apply resolve_inr in R. destruct R as (Hf' & Hs' & _).
    assert (c = content) by congruence. assert (t' = t) by congruence.
    subst c t'. exists (f +:+ "/" +:+ placeholder).
    split; [exact Hfree|]. split; [|exact Ho].
    fold w' in Hv. rewrite Hv, Hcopy. reflexivity.
  - destruct (part000_success tz settings templatePath w Hc Hc')
      as (c & t' & f & R & Hfree & Ho & Hv).
    apply resolve_inr in R. destruct R as (Hf' & Hs' & _).
    assert (c = content) by congruence. assert (t' = t) by congruence.
    subst c t'.
    exists (f +:+ "/" +:+ (Part000Engine.choose_fileName tz t w).1).
    split; [exact Hfree|]. split; [|exact Ho].
    fold w' in Hv. rewrite Hv, Hcopy. reflexivity.
Qed.

Lemma instantiation_without_enabled_field_copies_the_template_witness :
  exists filePath,
    vault (inbox_world (JS.mkDate 0)) !! filePath = None
    /\ vault (MainTsEngine.createFileFromTemplate
                (settings_with
                   (Settings.mkTemplateSettings "Daily" (Some "Inbox")
                      (Some (<["created" := false]> ∅)) None None))
                "Templates/Daily.md" (inbox_world (JS.mkDate 0)))
       = <[filePath :=
             File (mkNote (<["created" := "2000-01-01"]>
                             (<["title" := "Daily"]> ∅)) "# Daily")]>
           (vault (inbox_world (JS.mkDate 0))).
Proof.
  assert (Hno : forall k,
            default ∅ (Some (<["created" := false]> ∅ : gmap string bool)) !! k
            <> Some true).
  { intros k. simpl. destruct (decide ("created" = k)) as [<-|N].
    - rewrite lookup_insert_eq. discriminate.
    - rewrite lookup_insert_ne by exact N. rewrite lookup_empty. discriminate. }
  destruct (proj1 (instantiation_without_enabled_field_copies_the_template 480
              (settings_with
                 (Settings.mkTemplateSettings "Daily" (Some "Inbox")
                    (Some (<["created" := false]> ∅)) None None))
              "Templates/Daily.md" (inbox_world (JS.mkDate 0))
              (mkNote (<["created" := "2000-01-01"]> (<["title" := "Daily"]> ∅))
                 "# Daily")
              (Settings.mkTemplateSettings "Daily" (Some "Inbox")
                 (Some (<["created" := false]> ∅)) None None)
              eq_refl eq_refl eq_refl Hno) eq_refl)
    as (filePath & Hfree & Hv & _).
  exists filePath. split; [exact Hfree | exact Hv].
Defined.

End EngineSuccessFacts.

(** ** The calendar *)

Module CalendarFacts.

(** The month of a day number lies in 1 .. 12 and its day of month in
    1 .. 31. *)
Lemma civil_month_day (z : Z) :
  1 <= (JS.civil_from_days z).1.2 <= 12 /\ 1 <= (JS.civil_from_days z).2 <= 31.
Proof.
  unfold JS.civil_from_days. cbv zeta.
  set (z' := z + 719468).
  set (era := z' / 146097).
  set (doe := z' - era * 146097).
  assert (Hdoe : 0 <= doe < 146097).
  { subst doe era. Z.div_mod_to_equations. lia. }
  clearbody doe. clearbody era. clear z'.
  set (yoe := (doe - doe / 1460 + doe / 36524 - doe / 146096) / 365).
  set (doy := doe - (365 * yoe + yoe / 4 - yoe / 100)).
  assert (Hdoy : 0 <= doy <= 365).
  { subst doy yoe. Z.div_mod_to_equations. lia. }
  clearbody doy. clear Hdoe.
  set (mp := (5 * doy + 2) / 153).
  assert (Hmp : 0 <= mp <= 11) by (subst mp; Z.div_mod_to_equations; lia).
  simpl.
  destruct (Z.ltb_spec mp 10); simpl.
  - split; [lia|]. subst mp. Z.div_mod_to_equations. lia.
  - split; [lia|]. subst mp. Z.div_mod_to_equations. lia.
Qed.

(** A day lies in the year that [civil_from_days] gives it: at most 365 days
    after January 1 of that year. *)
Lemma day_of_year_range (z : Z) :
  0 <= z - JS.days_from_civil (JS.civil_from_days z).1.1 1 1 <= 365.
Proof.
  unfold JS.civil_from_days, JS.days_from_civil. cbv zeta.
  set (z' := z + 719468).
  set (era := z' / 146097).
  set (doe := z' - era * 146097).
  assert (Hdoe : 0 <= doe < 146097).
  { subst doe era. Z.div_mod_to_equations. lia. }
  assert (Hz : z = era * 146097 + doe - 719468) by (subst doe z'; lia).
  clearbody doe. clearbody era. clear z'. subst z.
  set (yoe := (doe - doe / 1460 + doe / 36524 - doe / 146096) / 365).
  set (doy := doe - (365 * yoe + yoe / 4 - yoe / 100)).
  assert (Hy : 0 <= yoe <= 399 /\ 0 <= doy <= 365).
  { subst doy yoe. Z.div_mod_to_equations. lia. }
  assert (Ed : doe = doy + (365 * yoe + yoe / 4 - yoe / 100)) by (subst doy; lia).
  clearbody doy. clearbody yoe. subst doe. clear Hdoe.
  set (mp := (5 * doy + 2) / 153).
  assert (Hmp : 0 <= mp <= 11 /\ (mp < 10 <-> doy <= 305))
    by (subst mp; Z.div_mod_to_equations; lia).
  clearbody mp. simpl.
  change (1 <=? 2) with true. change (2 <? 1) with false. cbv iota.
  destruct (Z.ltb_spec mp 10) as [L|L]; simpl.
  - destruct (Z.leb_spec (mp + 3) 2) as [M|M]; [lia|]. simpl.
    Z.div_mod_to_equations. lia.
  - destruct (Z.leb_spec (mp - 9) 2) as [M|M]; [|lia]. simpl.
    Z.div_mod_to_equations. lia.
Qed.

End CalendarFacts.

(** ** The title and the name of the new file *)

Module TitleNameFacts.
Import Vault Engine TitleFormatModal StringFacts TitleSpec TitleFacts EngineFacts.

Lemma String_of_not_empty (n : Z) : JS.String_of n <> "".
Proof.
  unfold JS.String_of, NilZero.string_of_int, NilZero.string_of_uint.
  destruct (Z.to_int n) as [d | d]; destruct d; discriminate.
Qed.

Lemma append_not_empty_r (a b : string) : b <> "" -> a +:+ b <> "".
Proof.
  intros Hb. destruct a as [|x a]; [exact Hb | discriminate].
Qed.

Lemma append_not_empty_l (a b : string) : a <> "" -> a +:+ b <> "".
Proof.
  intros Ha. destruct a as [|x a]; [congruence | discriminate].
Qed.

Lemma padStart_not_empty (n : nat) (c : ascii) (s : string) :
  s <> "" -> JS.padStart n c s <> "".
Proof. intros Hs. unfold JS.padStart. apply append_not_empty_r. exact Hs. Qed.

(** A replacement by a non-empty text leaves a non-empty text non-empty. *)
Lemma replaceAll_not_empty (pat rep s : string) :
  rep <> "" -> s <> "" -> JS.replaceAll pat rep s <> "".
Proof.
  intros Hrep Hs. unfold JS.replaceAll.
  destruct s as [|c s]; [congruence|].
  cbn [JS.replace_go].
  destruct (String.prefix pat (String c s)).
  - apply append_not_empty_l. exact Hrep.
  - discriminate.
Qed.

Lemma weekday_listed (tz : Z) (now : JS.Date) :
  weekday tz now ∈ chineseWeekdays.
Proof.
  unfold weekday, JS.getDay, JS.index.
  pose proof (Z.mod_pos_bound (JS.localDay tz now + 4) 7 ltac:(lia)) as B.
  destruct (Z.ltb_spec ((JS.localDay tz now + 4) mod 7) 0) as [L|_]; [lia|].
  assert (Hn : (Z.to_nat ((JS.localDay tz now + 4) mod 7) < 7)%nat) by lia.
  destruct (Z.to_nat ((JS.localDay tz now + 4) mod 7))
    as [|[|[|[|[|[|[|n]]]]]]]; simpl; try lia;
    apply list_elem_of_In; simpl; tauto.
Qed.

Lemma weekday_not_empty (tz : Z) (now : JS.Date) : weekday tz now <> "".
Proof.
  pose proof (weekday_listed tz now) as H. intros E. rewrite E in H.
  apply list_elem_of_In in H. simpl in H. intuition discriminate.
Qed.

Lemma substitute_not_empty (tz : Z) (now : JS.Date) (format : string) :
  format <> "" -> substitute tz now format <> "".
Proof.
  intros Hf. unfold substitute.
  apply replaceAll_not_empty; [apply padStart_not_empty, String_of_not_empty|].
  apply replaceAll_not_empty; [apply weekday_not_empty|].
  apply replaceAll_not_empty; [apply padStart_not_empty, String_of_not_empty|].
  apply replaceAll_not_empty; [apply padStart_not_empty, String_of_not_empty|].
  apply replaceAll_not_empty; [apply String_of_not_empty|].
  apply replaceAll_not_empty; [apply String_of_not_empty|].
  apply replaceAll_not_empty; [|exact Hf].
  unfold date. apply append_not_empty_l, String_of_not_empty.
Qed.

(** With a title format that is not empty, the formatted title is never
    empty, so the new file is never given the placeholder name: a run of the
    later revision that succeeds creates and opens the file named by the
    title, formatted at the first reading of the clock, in the target
    folder. *)
Theorem title_format_names_the_file (tz : Z)
  (settings : Settings.TinyTemplatesSettings) (templatePath : string)
  (w : World) (content : Note) (t : Settings.TemplateSettings)
  (targetFolder format : string) :
  closed w = false ->
  vault w !! templatePath = Some (File content) ->
  Settings.templates settings !! templatePath = Some t ->
  Settings.targetFolder t = Some targetFolder ->
  Settings.titleFormat t = Some format ->
  format <> "" ->
  let w' := Part000Engine.createFileFromTemplate tz settings templatePath w in
  let title := substitute tz (clock w (ticks w)) format in
  title <> ""
  /\ Part000Engine.choose_fileName tz t w = (title +:+ ".md", (new_Date w).2)
  /\ (closed w' = true ->
      vault w !! (targetFolder +:+ "/" +:+ title +:+ ".md") = None
      /\ is_Some (vault w' !! (targetFolder +:+ "/" +:+ title +:+ ".md"))
      /\ opened w' = (opened w ++ [targetFolder +:+ "/" +:+ title +:+ ".md"])%list).
Proof.
  intros Hc Hf Hs Htf Hfmt Hne w' title.
  assert (Ht : title <> "") by (apply substitute_not_empty; exact Hne).
  assert (Hn : Part000Engine.choose_fileName tz t w
               = (title +:+ ".md", (new_Date w).2)).
  { unfold Part000Engine.choose_fileName, formatTitle. rewrite Hfmt.
    apply String.eqb_neq in Hne. rewrite Hne. simpl.
    fold title. apply String.eqb_neq in Ht. rewrite Ht. reflexivity. }
  split; [exact Ht|]. split; [exact Hn|].
  intros Hc'.
  destruct (EngineRunFacts.part000_success tz settings templatePath w Hc Hc')
    as (c & t' & f & R & Hfree & Ho & Hv).
  apply EngineFacts.resolve_inr in R. destruct R as (_ & Hs' & Hf' & _).
  assert (t' = t) by congruence. subst t'.
  rewrite Htf in Hf'. simpl in Hf'. subst f.
  rewrite Hn in Hfree, Ho, Hv. simpl in Hfree, Ho, Hv.
  split; [exact Hfree|]. split; [|exact Ho].
  fold w' in Hv. rewrite Hv, lookup_insert_eq. eexists. reflexivity.
Qed.

Lemma title_format_names_the_file_witness :
  opened (Part000Engine.createFileFromTemplate 480
            (EngineSpec.settings_with
               (Settings.mkTemplateSettings "Daily" (Some "Inbox") None
                  (Some "{{date}}-note") None))
            "Templates/Daily.md"
            (EngineSpec.inbox_world (JS.mkDate 1710545400000)))
  = ["Inbox/2024-03-16-note.md"].
Proof.
  destruct (title_format_names_the_file 480
              (EngineSpec.settings_with
                 (Settings.mkTemplateSettings "Daily" (Some "Inbox") None
                    (Some "{{date}}-note") None))
              "Templates/Daily.md"
              (EngineSpec.inbox_world (JS.mkDate 1710545400000))
              (mkNote (<["created" := "2000-01-01"]> (<["title" := "Daily"]> ∅))
                 "# Daily")
              (Settings.mkTemplateSettings "Daily" (Some "Inbox") None
                 (Some "{{date}}-note") None)
              "Inbox" "{{date}}-note" eq_refl eq_refl eq_refl eq_refl eq_refl
              ltac:(discriminate)) as (_ & _ & Hrun).
  destruct (Hrun eq_refl) as (_ & _ & Ho). rewrite Ho.
  vm_compute. reflexivity.
Defined.

(** Text without an opening brace at the head of a format is copied to the
    title as it is, and the rest of the format is formatted as if it stood
    alone. *)
Theorem formatTitle_copies_plain_text (tz : Z) (w : World) (plain rest : string) :
  brace_free plain ->
  (formatTitle tz (plain +:+ rest) w).1 = plain +:+ (formatTitle tz rest w).1.
Proof.
  intros Hp.
  assert (S : forall now,
    substitute tz now (plain +:+ rest) = plain +:+ substitute tz now rest).
  { intros now. unfold substitute.
    rewrite (replaceAll_brace_free_prefix _ _ _ _ Hp).
    rewrite (replaceAll_brace_free_prefix _ _ _ _ Hp).
    rewrite (replaceAll_brace_free_prefix _ _ _ _ Hp).
    rewrite (replaceAll_brace_free_prefix _ _ _ _ Hp).
    rewrite (replaceAll_brace_free_prefix _ _ _ _ Hp).
    rewrite (replaceAll_brace_free_prefix _ _ _ _ Hp).
    rewrite (replaceAll_brace_free_prefix _ _ _ _ Hp). reflexivity. }
  unfold formatTitle.
  destruct (String.eqb_spec rest "") as [->|Hr].
  - rewrite append_empty_r. simpl.
    destruct (String.eqb_spec plain "") as [->|_]; [reflexivity|].
    simpl. rewrite append_empty_r. apply substitute_brace_free. exact Hp.
  - destruct (String.eqb_spec (plain +:+ rest) "") as [E|_].
    + destruct plain; [|discriminate].
      change ("" +:+ rest) with rest in E. congruence.
    + simpl. apply S.
Qed.

Lemma formatTitle_copies_plain_text_witness :
  (formatTitle 480 ("note " +:+ "{{date}}") (world_at saturday_noon)).1
  = "note " +:+ (formatTitle 480 "{{date}}" (world_at saturday_noon)).1.
Proof.
  apply (formatTitle_copies_plain_text 480 (world_at saturday_noon) "note "
           "{{date}}").
  reflexivity.
Defined.

End TitleNameFacts.

(** ** The range of the fields of a title *)

Module TitleRangeFacts.
Import Vault TitleFormatModal StringFacts TitleSpec TitleFacts CalendarFacts
  TitleNameFacts.

Lemma brace_free_weekday (tz : Z) (now : JS.Date) : brace_free (weekday tz now).
Proof.
  pose proof (weekday_listed tz now) as H.
  apply list_elem_of_In in H. simpl in H.
  repeat (destruct H as [<- | H]; [reflexivity|]). destruct H.
Qed.

Lemma brace_free_week (tz : Z) (now : JS.Date) : brace_free (week tz now).
Proof. apply brace_free_padStart, brace_free_String_of. Qed.

(** *** What each token alone expands to *)

Lemma substitute_quarter (tz : Z) (now : JS.Date) :
  substitute tz now "{{quarter}}" = JS.String_of (quarter tz now).
Proof.
  pose proof (brace_free_String_of (quarter tz now)) as Hq.
  unfold substitute.
  change (JS.replaceAll "{{date}}" (date tz now) "{{quarter}}")
    with "{{quarter}}".
  change (JS.replaceAll "{{year}}" (JS.String_of (year tz now)) "{{quarter}}")
    with "{{quarter}}".
  change (JS.replaceAll "{{quarter}}" (JS.String_of (quarter tz now))
            "{{quarter}}")
    with (JS.String_of (quarter tz now) +:+ "").
  rewrite append_empty_r.
  do 4 rewrite (replaceAll_brace_free _ _ _ Hq). reflexivity.
Qed.

Lemma substitute_month (tz : Z) (now : JS.Date) :
  substitute tz now "{{month}}" = month tz now.
Proof.
  pose proof (brace_free_month tz now) as Hm.
  unfold substitute.
  change (JS.replaceAll "{{date}}" (date tz now) "{{month}}") with "{{month}}".
  change (JS.replaceAll "{{year}}" (JS.String_of (year tz now)) "{{month}}")
    with "{{month}}".
  change (JS.replaceAll "{{quarter}}" (JS.String_of (quarter tz now)) "{{month}}")
    with "{{month}}".
  change (JS.replaceAll "{{month}}" (month tz now) "{{month}}")
    with (month tz now +:+ "").
  rewrite append_empty_r.
  do 3 rewrite (replaceAll_brace_free _ _ _ Hm). reflexivity.
Qed.

Lemma substitute_week (tz : Z) (now : JS.Date) :
  substitute tz now "{{week}}" = week tz now.
Proof.
  pose proof (brace_free_week tz now) as Hw.
  unfold substitute.
  change (JS.replaceAll "{{date}}" (date tz now) "{{week}}") with "{{week}}".
  change (JS.replaceAll "{{year}}" (JS.String_of (year tz now)) "{{week}}")
    with "{{week}}".
  change (JS.replaceAll "{{quarter}}" (JS.String_of (quarter tz now)) "{{week}}")
    with "{{week}}".
  change (JS.replaceAll "{{month}}" (month tz now) "{{week}}") with "{{week}}".
  change (JS.replaceAll "{{week}}" (week tz now) "{{week}}")
    with (week tz now +:+ "").
  rewrite append_empty_r.
  do 2 rewrite (replaceAll_brace_free _ _ _ Hw). reflexivity.
Qed.

Lemma substitute_weekday (tz : Z) (now : JS.Date) :
  substitute tz now "{{weekday}}" = weekday tz now.
Proof.
  pose proof (brace_free_weekday tz now) as Hw.
  unfold substitute.
  change (JS.replaceAll "{{date}}" (date tz now) "{{weekday}}")
    with "{{weekday}}".
  change (JS.replaceAll "{{year}}" (JS.String_of (year tz now)) "{{weekday}}")
    with "{{weekday}}".
  change (JS.replaceAll "{{quarter}}" (JS.String_of (quarter tz now))
            "{{weekday}}")
    with "{{weekday}}".
  change (JS.replaceAll "{{month}}" (month tz now) "{{weekday}}")
    with "{{weekday}}".
  change (JS.replaceAll "{{week}}" (week tz now) "{{weekday}}")
    with "{{weekday}}".
  change (JS.replaceAll "{{weekday}}" (weekday tz now) "{{weekday}}")
    with (weekday tz now +:+ "").
  rewrite append_empty_r.
  rewrite (replaceAll_brace_free _ _ _ Hw). reflexivity.
Qed.

Lemma substitute_day (tz : Z) (now : JS.Date) :
  substitute tz now "{{day}}" = day tz now.
Proof.
  unfold substitute.
  change (JS.replaceAll "{{date}}" (date tz now) "{{day}}") with "{{day}}".
  change (JS.replaceAll "{{year}}" (JS.String_of (year tz now)) "{{day}}")
    with "{{day}}".
  change (JS.replaceAll "{{quarter}}" (JS.String_of (quarter tz now)) "{{day}}")
    with "{{day}}".
  change (JS.replaceAll "{{month}}" (month tz now) "{{day}}") with "{{day}}".
  change (JS.replaceAll "{{week}}" (week tz now) "{{day}}") with "{{day}}".
  change (JS.replaceAll "{{weekday}}" (weekday tz now) "{{day}}") with "{{day}}".
  change (JS.replaceAll "{{day}}" (day tz now) "{{day}}")
    with (day tz now +:+ "").
  apply append_empty_r.
Qed.

(** *** The week as a quotient of whole numbers *)

Lemma weekNum_as_quotient (tz : Z) (now : JS.Date) :
  ~ (0 <= year tz now <= 99) ->
  weekNum tz now
  = ceil_div ((dayOfYear tz now + firstWeekdayOffset tz now) * 86400000
              + JS.localTime tz now mod 86400000) (7 * 86400000).
Proof.
  intros Hy. unfold weekNum, pastDaysOfYear, firstDayOfYear, JS.new_Date_ymd.
  assert (Hq : (0 <=? year tz now) && (year tz now <=? 99) = false).
  { apply andb_false_iff. rewrite Z.leb_gt, Z.leb_gt. lia. }
  rewrite Hq. change (0 + 1) with 1.
  set (D := JS.days_from_civil (year tz now) 1 1).
  assert (Hw : JS.getDay tz (JS.mkDate (D * JS.msPerDay - tz * 60000))
               = firstWeekdayOffset tz now).
  { unfold JS.getDay, JS.localDay, JS.localTime, firstWeekdayOffset. simpl.
    fold D. replace (D * JS.msPerDay - tz * 60000 + tz * 60000)
      with (D * JS.msPerDay) by lia.
    rewrite Z.div_mul by (unfold JS.msPerDay; lia). reflexivity. }
  rewrite Hw. simpl JS.getTime.
  set (wd := firstWeekdayOffset tz now).
  set (L := JS.localTime tz now).
  assert (HL : JS.getTime now = L - tz * 60000)
    by (unfold L, JS.localTime; lia).
  rewrite HL.
  assert (Hn : (((L - tz * 60000 - (D * JS.msPerDay - tz * 60000) # 86400000)
                 + inject_Z wd + 1) / 7
                == ((dayOfYear tz now + wd) * 86400000 + L mod 86400000
                    # 604800000))%Q).
  { unfold dayOfYear, JS.localDay. fold L. fold D. unfold JS.msPerDay.
    pose proof (Z.div_mod L 86400000 ltac:(lia)) as E.
    unfold Qeq, Qdiv, Qmult, Qplus, Qinv, inject_Z. simpl. lia. }
  unfold JS.Math_ceil. rewrite Hn. reflexivity.
Qed.

Lemma weekNum_range (tz : Z) (now : JS.Date) :
  ~ (0 <= year tz now <= 99) -> 1 <= weekNum tz now <= 54.
Proof.
  intros Hy. rewrite (weekNum_as_quotient tz now Hy).
  pose proof (day_of_year_range (JS.localDay tz now)) as Hd.
  assert (Hdoy : 1 <= dayOfYear tz now <= 366).
  { unfold dayOfYear, year, JS.getFullYear. lia. }
  assert (Hwd : 0 <= firstWeekdayOffset tz now < 7).
  { unfold firstWeekdayOffset. apply Z.mod_pos_bound. lia. }
  pose proof (Z.mod_pos_bound (JS.localTime tz now) 86400000 ltac:(lia)) as Hr.
  unfold ceil_div.
  set (N := (dayOfYear tz now + firstWeekdayOffset tz now) * 86400000
            + JS.localTime tz now mod 86400000).
  assert (HN : 86400000 <= N < 373 * 86400000) by (subst N; lia).
  clearbody N. Z.div_mod_to_equations. lia.
Qed.

(** The fields that [formatTitle] substitutes stay in range at every instant
    and in every zone with a constant offset: the quarter is one of 1 to 4; the month is 01 to 12
    and the day 01 to 31, on two digits; the weekday is one of the seven
    names, never [undefined]; and in a year from 100 on, the week is 01 to
    54, beyond the 52 that the dialog announces. *)
Theorem formatTitle_fields_in_range (tz : Z) (w : World) :
  (formatTitle tz "{{quarter}}" w).1 ∈ JS.String_of <$> seqZ 1 4
  /\ (formatTitle tz "{{month}}" w).1 ∈ JS.pad2 <$> seqZ 1 12
  /\ (formatTitle tz "{{day}}" w).1 ∈ JS.pad2 <$> seqZ 1 31
  /\ (formatTitle tz "{{weekday}}" w).1 ∈ chineseWeekdays
  /\ (100 <= JS.getFullYear tz (clock w (ticks w)) ->
      (formatTitle tz "{{week}}" w).1 ∈ JS.pad2 <$> seqZ 1 54).
Proof.
  set (now := clock w (ticks w)).
  pose proof (civil_month_day (JS.localDay tz now)) as [Hm Hd].
  change (formatTitle tz "{{quarter}}" w).1 with (substitute tz now "{{quarter}}").
  change (formatTitle tz "{{month}}" w).1 with (substitute tz now "{{month}}").
  change (formatTitle tz "{{day}}" w).1 with (substitute tz now "{{day}}").
  change (formatTitle tz "{{weekday}}" w).1
    with (substitute tz now "{{weekday}}").
  change (formatTitle tz "{{week}}" w).1 with (substitute tz now "{{week}}").
  split; [|split; [|split; [|split]]].
  - rewrite substitute_quarter. apply list_elem_of_fmap.
    exists (quarter tz now). split; [reflexivity|].
    apply elem_of_seqZ. unfold quarter, JS.Math_floor_div, JS.getMonth.
    Z.div_mod_to_equations. lia.
  - rewrite substitute_month. apply list_elem_of_fmap.
    exists (JS.getMonth tz now + 1). split; [reflexivity|].
    apply elem_of_seqZ. unfold JS.getMonth. lia.
  - rewrite substitute_day. apply list_elem_of_fmap.
    exists (JS.getDate tz now). split; [reflexivity|].
    apply elem_of_seqZ. unfold JS.getDate. lia.
  - rewrite substitute_weekday. apply weekday_listed.
  - intros Hy. rewrite substitute_week. apply list_elem_of_fmap.
    exists (weekNum tz now). split; [reflexivity|].
    apply elem_of_seqZ.
    assert (R : 1 <= weekNum tz now <= 54).
    { apply weekNum_range. unfold year. lia. }
    lia.
Qed.

Lemma formatTitle_fields_in_range_witness :
  (formatTitle 480 "{{week}}" (world_at saturday_noon)).1
  ∈ JS.pad2 <$> seqZ 1 54.
Proof.
  apply (formatTitle_fields_in_range 480 (world_at saturday_noon)).
  assert (E : JS.getFullYear 480 (clock (world_at saturday_noon)
                                    (ticks (world_at saturday_noon))) = 2023)
    by (vm_compute; reflexivity).
  rewrite E. lia.
Defined.

(** The week 54 is reached: 2000 began on a Saturday and was a leap year, so
    its last day, a Sunday, is in the 54th week as the code counts. *)
Example week_54_on_the_last_day_of_2000 :
  JS.toISOString (JS.mkDate 978264000000) = "2000-12-31T12:00:00.000Z"
  /\ (formatTitle 0 "{{week}}" (world_at (JS.mkDate 978264000000))).1 = "54".
Proof. vm_compute. split; reflexivity. Qed.

End TitleRangeFacts.

(** ** [syncSettingsWithFileSystem] *)

Module SyncFacts.
Import Host Settings Plugin SyncSpec ScanFacts.

(** *** The walk over the folders *)

Lemma visit_spec (cs : list TAbstractFile) :
  forall stack files,
    Forall is_folder stack ->
    let st := visit cs (stack, files) in
    Forall is_folder st.1
    /\ sum_list_with folders st.1
       = (sum_list_with folders cs + sum_list_with folders stack)%nat
    /\ (st.2 ++ List.flat_map all_files st.1
        ≡ₚ files ++ List.flat_map all_files cs
           ++ List.flat_map all_files stack)%list.
Proof.
  unfold visit. induction cs as [|c cs IH]; intros stack files Hst.
  - simpl. split; [exact Hst|]. split; reflexivity.
  - cbn [foldl]. destruct c as [p n b | p n cs'].
    + destruct (IH stack (files ++ [TFile p n b])%list Hst) as (H1 & H2 & H3).
      split; [exact H1|]. split; [exact H2|].
      cbn [fst snd] in *. rewrite H3. simpl. rewrite <- app_assoc. reflexivity.
    + destruct (IH (TFolder p n cs' :: stack) files) as (H1 & H2 & H3).
      { constructor; [exact I | exact Hst]. }
      split; [exact H1|]. cbn [fst snd] in *. split.
      * rewrite H2. simpl. lia.
      * rewrite H3. simpl.
        rewrite !app_assoc. apply Permutation_app_tail.
        rewrite <- !app_assoc. apply Permutation_app_head.
        apply Permutation_app_comm.
Qed.

(** With one unit of fuel per folder, the loop ends, and it has found the
    files below the folders of the stack. *)
Lemma walk_spec (fuel : nat) :
  forall stack files,
    Forall is_folder stack ->
    (sum_list_with folders stack <= fuel)%nat ->
    exists found,
      walk fuel stack files = Some found
      /\ (found ≡ₚ files ++ List.flat_map all_files stack)%list.
Proof.
  induction fuel as [|fuel IH]; intros stack files Hst Hfuel.
  - destruct stack as [|c stack].
    + exists files. split; [reflexivity|]. simpl. rewrite app_nil_r. reflexivity.
    + apply Forall_cons_1 in Hst. destruct Hst as [Hc _].
      destruct c; [destruct Hc|]. simpl in Hfuel. lia.
  - destruct stack as [|c stack].
    + exists files. split; [reflexivity|]. simpl. rewrite app_nil_r. reflexivity.
    + apply Forall_cons_1 in Hst. destruct Hst as [Hc Hst].
      destruct c as [|p n cs]; [destruct Hc|].
      cbn [walk children].
      destruct (visit_spec cs stack files Hst) as (H1 & H2 & H3).
      destruct (IH _ (visit cs (stack, files)).2 H1) as (found & Hw & Hp).
      { rewrite H2. simpl in Hfuel. lia. }
      exists found. split; [exact Hw|].
      rewrite Hp, H3. reflexivity.
Qed.

Lemma walk_folder (folder : TAbstractFile) :
  is_folder folder ->
  exists found,
    walk (folders folder) [folder] [] = Some found
    /\ found ≡ₚ all_files folder.
Proof.
  intros Hf. destruct (walk_spec (folders folder) [folder] []) as (found & Hw & Hp).
  - constructor; [exact Hf | constructor].
  - simpl. lia.
  - exists found. split; [exact Hw|]. rewrite Hp. simpl.
    rewrite app_nil_r. reflexivity.
Qed.

(** *** The loop over the files found *)

Lemma sync_files_lookup (cache : MetadataCache.Cache)
  (T : gmap string TemplateSettings) (files : list TAbstractFile) (p : string) :
  forall acc,
    let M := foldl (sync_file cache T) acc files in
    ((forall n b, TFile p n b ∉ files) /\ M !! p = acc !! p)
    \/ (exists n b, TFile p n b ∈ files
                    /\ M !! p = Some (sync_entry cache T p b)).
Proof.
  induction files as [|f files IH] using rev_ind; intros acc M.
  - left. split; [|reflexivity]. intros n b H. inversion H.
  - subst M. rewrite foldl_app. cbn [foldl].
    destruct f as [q n b | q n cs]; cbn [sync_file].
    + destruct (decide (q = p)) as [->|Hne].
      * right. exists n, b. split.
        -- apply elem_of_app. right. apply list_elem_of_here.
        -- apply lookup_insert_eq.
      * rewrite lookup_insert_ne by exact Hne.
        destruct (IH acc) as [[Hno E] | (n' & b' & Hin & E)].
        -- left. split; [|exact E]. intros n' b' H.
           apply elem_of_app in H. destruct H as [H | H]; [exact (Hno _ _ H)|].
           apply list_elem_of_singleton in H. congruence.
        -- right. exists n', b'. split; [|exact E].
           apply elem_of_app. left. exact Hin.
    + destruct (IH acc) as [[Hno E] | (n' & b' & Hin & E)].
      * left. split; [|exact E]. intros n' b' H.
        apply elem_of_app in H. destruct H as [H | H]; [exact (Hno _ _ H)|].
        apply list_elem_of_singleton in H. discriminate.
      * right. exists n', b'. split; [|exact E].
        apply elem_of_app. left. exact Hin.
Qed.

(** *** The entry stored for a file *)

Lemma keep_frontmatter_keys_lookup (keys : list string)
  (d : gmap string bool) (k : string) :
  keep_frontmatter_keys keys d !! k
  = if bool_decide (k ∈ keys) then d !! k else None.
Proof.
  unfold keep_frontmatter_keys. rewrite map_lookup_filter.
  destruct (d !! k) as [v|] eqn:E; simpl.
  - destruct (bool_decide_reflect (k ∈ keys)) as [Hin | Hout].
    + rewrite option_guard_True by exact Hin. reflexivity.
    + rewrite option_guard_False by exact Hout. reflexivity.
  - destruct (bool_decide (k ∈ keys)); reflexivity.
Qed.

Lemma keep_frontmatter_keys_twice (keys : list string) (d : gmap string bool) :
  keep_frontmatter_keys keys (keep_frontmatter_keys keys d)
  = keep_frontmatter_keys keys d.
Proof.
  apply map_eq. intros k. rewrite !keep_frontmatter_keys_lookup.
  destruct (bool_decide (k ∈ keys)); reflexivity.
Qed.

Lemma sync_entry_fields (cache : MetadataCache.Cache)
  (T : gmap string TemplateSettings) (p b : string) :
  let t' := sync_entry cache T p b in
  name t' = b
  /\ targetFolder t' = T !! p ≫= targetFolder
  /\ titleFormat t' = T !! p ≫= titleFormat
  /\ isCommandRegistered t' = T !! p ≫= isCommandRegistered
  /\ dateFields t'
     = keep_frontmatter_keys (default [] (MetadataCache.frontmatter cache p))
         <$> (T !! p ≫= dateFields).
Proof.
  unfold sync_entry.
  destruct (T !! p) as [[n tf [d|] fmt reg]|]; simpl; repeat split.
Qed.

(** An entry that the loop stored is stored again as it is. *)
Lemma sync_entry_again (cache : MetadataCache.Cache)
  (T T' : gmap string TemplateSettings) (p b b0 : string) :
  T' !! p = Some (sync_entry cache T p b0) ->
  sync_entry cache T' p b = sync_entry cache T p b.
Proof.
  intros E. unfold sync_entry at 1. rewrite E. unfold sync_entry.
  destruct (T !! p) as [[n tf [d|] fmt reg]|]; simpl; try reflexivity.
  rewrite keep_frontmatter_keys_twice. reflexivity.
Qed.

Lemma sync_files_found (cache : MetadataCache.Cache)
  (T : gmap string TemplateSettings) (files : list TAbstractFile) (p : string) :
  match foldl (sync_file cache T) ∅ files !! p with
  | None => forall n b, TFile p n b ∉ files
  | Some t' => exists n b, TFile p n b ∈ files /\ t' = sync_entry cache T p b
  end.
Proof.
  destruct (sync_files_lookup cache T files p ∅) as [[Hno E] | (n & b & Hin & E)];
    simpl in E; rewrite E.
  - rewrite lookup_empty. exact Hno.
  - exists n, b. split; [exact Hin | reflexivity].
Qed.

(** What the method returns when the template folder names a folder. *)
Lemma sync_with_folder (vault : TAbstractFile) (cache : MetadataCache.Cache)
  (s : TinyTemplatesSettings) (folder : TAbstractFile) :
  templateFolder s <> "" ->
  getAbstractFileByPath vault (templateFolder s) = Some folder ->
  is_folder folder ->
  exists found,
    found ≡ₚ all_files folder
    /\ walk (folders folder) [folder] [] = Some found
    /\ syncSettingsWithFileSystem vault cache s
       = Some (mkSettings (templateFolder s)
                 (foldl (sync_file cache (templates s)) ∅ found)).
Proof.
  intros Hne Hget Hf.
  destruct (walk_folder folder Hf) as (found & Hw & Hp).
  exists found. split; [exact Hp|]. split; [exact Hw|].
  unfold syncSettingsWithFileSystem.
  apply String.eqb_neq in Hne. rewrite Hne, Hget.
  destruct folder as [|q n cs]; [destruct Hf|].
  rewrite Hw. reflexivity.
Qed.

Lemma sync_without_folder (vault : TAbstractFile) (cache : MetadataCache.Cache)
  (s : TinyTemplatesSettings) :
  templateFolder s = ""
  \/ (forall folder,
        getAbstractFileByPath vault (templateFolder s) = Some folder ->
        ~ is_folder folder) ->
  exists s',
    syncSettingsWithFileSystem vault cache s = Some s'
    /\ templateFolder s' = templateFolder s /\ templates s' = ∅.
Proof.
  intros H. unfold syncSettingsWithFileSystem.
  destruct (String.eqb_spec (templateFolder s) "") as [E|Hne].
  - destruct (Z.ltb_spec 0 (Z.of_nat (size (templates s)))) as [L|L].
    + eexists. split; [reflexivity|]. split; reflexivity.
    + exists s. split; [reflexivity|]. split; [reflexivity|].
      apply map_size_empty_iff. lia.
  - destruct H as [E|H]; [congruence|].
    destruct (getAbstractFileByPath vault (templateFolder s)) as [[|q n cs]|] eqn:G.
    + eexists. split; [reflexivity|]. split; reflexivity.
    + exfalso. exact (H _ eq_refl I).
    + eexists. split; [reflexivity|]. split; reflexivity.
Qed.

(** [syncSettingsWithFileSystem] always returns, with the template folder
    unchanged, and leaves exactly one entry per template file: an entry
    whose file is gone is dropped, and a file without entry gets one.
    Without template folder, or when its path names no folder, no entry is
    left. *)
Theorem sync_keeps_one_entry_per_file (vault : TAbstractFile)
  (cache : MetadataCache.Cache) (s : TinyTemplatesSettings) :
  exists s',
    syncSettingsWithFileSystem vault cache s = Some s'
    /\ templateFolder s' = templateFolder s
    /\ (templateFolder s = ""
        \/ (forall folder,
              getAbstractFileByPath vault (templateFolder s) = Some folder ->
              ~ is_folder folder) ->
        templates s' = ∅)
    /\ (forall folder,
          templateFolder s <> "" ->
          getAbstractFileByPath vault (templateFolder s) = Some folder ->
          is_folder folder ->
          forall p,
            is_Some (templates s' !! p)
            <-> exists n b, TFile p n b ∈ all_files folder).
Proof.
  destruct (String.eqb_spec (templateFolder s) "") as [E|Hne].
  { destruct (sync_without_folder vault cache s (or_introl E))
      as (s' & Hs & Htf & Hempty).
    exists s'. split; [exact Hs|]. split; [exact Htf|].
    split; [intros _; exact Hempty|]. intros folder Hne. congruence. }
  destruct (getAbstractFileByPath vault (templateFolder s)) as [folder|] eqn:G.
  - destruct folder as [q n b | q n cs].
    + destruct (sync_without_folder vault cache s) as (s' & Hs & Htf & Hempty).
      { right. intros folder Hf. rewrite G in Hf. injection Hf as <-.
        intros H. exact H. }
      exists s'. split; [exact Hs|]. split; [exact Htf|].
      split; [intros _; exact Hempty|].
      intros folder _ [= <-] Hf. destruct Hf.
    + destruct (sync_with_folder vault cache s (TFolder q n cs) Hne G I)
        as (found & Hp & _ & Hs).
      eexists. split; [exact Hs|]. split; [reflexivity|]. split.
      * intros [E | H]; [congruence|]. exfalso. exact (H _ eq_refl I).
      * intros folder _ [= <-] _ p. cbn [templates].
        pose proof (sync_files_found cache (templates s) found p) as F.
        destruct (foldl (sync_file cache (templates s)) ∅ found !! p) as [t'|].
        -- destruct F as (n' & b' & Hin & _). split; [|eexists; reflexivity].
           intros _. exists n', b'. rewrite <- Hp. exact Hin.
        -- split; [intros [x Hx]; discriminate|].
           intros (n' & b' & Hin). exfalso. apply (F n' b').
           rewrite Hp. exact Hin.
  - destruct (sync_without_folder vault cache s) as (s' & Hs & Htf & Hempty).
    { right. intros folder Hf. congruence. }
    exists s'. split; [exact Hs|]. split; [exact Htf|].
    split; [intros _; exact Hempty|]. intros folder _ Hf. discriminate.
Qed.

Lemma sync_keeps_one_entry_per_file_witness :
  exists s',
    syncSettingsWithFileSystem small_vault small_cache stale_settings = Some s'
    /\ (is_Some (templates s' !! "T/gone.md")
        <-> exists n b, TFile "T/gone.md" n b ∈ all_files template_root).
Proof.
  destruct (sync_keeps_one_entry_per_file small_vault small_cache stale_settings)
    as (s' & Hs & _ & _ & Hfiles).
  exists s'. split; [exact Hs|].
  apply (Hfiles template_root).
  - discriminate.
  - vm_compute. reflexivity.
  - exact I.
Defined.

(** Every entry that [syncSettingsWithFileSystem] leaves belongs to a file
    below the template folder and bears its basename; it keeps the target
    folder and the title format stored before, and of the stored date fields
    exactly those whose key the front matter of the file still has, with
    their values. *)
Theorem sync_keeps_the_configuration (vault : TAbstractFile)
  (cache : MetadataCache.Cache) (s s' : TinyTemplatesSettings)
  (folder : TAbstractFile) (p : string) (t' : TemplateSettings) :
  templateFolder s <> "" ->
  getAbstractFileByPath vault (templateFolder s) = Some folder ->
  is_folder folder ->
  syncSettingsWithFileSystem vault cache s = Some s' ->
  templates s' !! p = Some t' ->
  (exists n, TFile p n (name t') ∈ all_files folder)
  /\ targetFolder t' = templates s !! p ≫= targetFolder
  /\ titleFormat t' = templates s !! p ≫= titleFormat
  /\ (is_Some (dateFields t') <-> is_Some (templates s !! p ≫= dateFields))
  /\ (forall k,
        default ∅ (dateFields t') !! k
        = if bool_decide (k ∈ default [] (MetadataCache.frontmatter cache p))
          then default ∅ (templates s !! p ≫= dateFields) !! k
          else None).
Proof.
  intros Hne G Hf Hs Hl.
  destruct (sync_with_folder vault cache s folder Hne G Hf) as (found & Hp & _ & Hs').
  rewrite Hs' in Hs. injection Hs as <-. cbn [templates] in Hl.
  pose proof (sync_files_found cache (templates s) found p) as F.
  rewrite Hl in F. destruct F as (n & b & Hin & ->).
  destruct (sync_entry_fields cache (templates s) p b) as (Hn & Ht & Hfmt & _ & Hd).
  split; [exists n; rewrite Hn, <- Hp; exact Hin|].
  split; [exact Ht|]. split; [exact Hfmt|].
  rewrite Hd. destruct (templates s !! p ≫= dateFields) as [d|]; simpl.
  - split; [split; intros _; eexists; reflexivity|].
    intros k. apply keep_frontmatter_keys_lookup.
  - split; [split; intros [x Hx]; discriminate|].
    intros k. rewrite lookup_empty.
    destruct (bool_decide _); reflexivity.
Qed.

Lemma sync_keeps_the_configuration_witness :
  default ∅
    (dateFields
       (mkTemplateSettings "a" (Some "Inbox") (Some (<["created" := true]> ∅))
          (Some "{{date}}") None)) !! "due"
  = if bool_decide
         ("due" ∈ default [] (MetadataCache.frontmatter small_cache "T/a.md"))
    then default ∅ (templates stale_settings !! "T/a.md" ≫= dateFields) !! "due"
    else None.
Proof.
  refine (proj2 (proj2 (proj2 (proj2
            (sync_keeps_the_configuration small_vault small_cache stale_settings
               synced_settings template_root "T/a.md"
               (mkTemplateSettings "a" (Some "Inbox")
                  (Some (<["created" := true]> ∅)) (Some "{{date}}") None)
               _ _ _ _ _)))) "due").
  - discriminate.
  - vm_compute. reflexivity.
  - exact I.
  - vm_compute. reflexivity.
  - vm_compute. reflexivity.
Defined.

(** Running [syncSettingsWithFileSystem] on its own result changes
    nothing. *)
Theorem sync_is_idempotent (vault : TAbstractFile)
  (cache : MetadataCache.Cache) (s s' : TinyTemplatesSettings) :
  syncSettingsWithFileSystem vault cache s = Some s' ->
  syncSettingsWithFileSystem vault cache s' = Some s'.
Proof.
  intros Hs.
  destruct (String.eqb_spec (templateFolder s) "") as [E|Hne].
  { destruct (sync_without_folder vault cache s (or_introl E))
      as (s1 & Hs1 & Htf & Hempty).
    assert (s1 = s') by congruence. subst s1.
    unfold syncSettingsWithFileSystem. rewrite Htf, E, Hempty. reflexivity. }
  destruct (getAbstractFileByPath vault (templateFolder s)) as [[q n b | q n cs]|] eqn:G.
  - destruct (sync_without_folder vault cache s) as (s1 & Hs1 & Htf & Hempty).
    { right. intros folder Hf. rewrite G in Hf. injection Hf as <-.
      intros H. exact H. }
    assert (s1 = s') by congruence. subst s1.
    unfold syncSettingsWithFileSystem. rewrite Htf, G.
    apply String.eqb_neq in Hne. rewrite Hne.
    destruct s' as [tf T']. simpl in *. subst. reflexivity.
  - destruct (sync_with_folder vault cache s (TFolder q n cs) Hne G I)
      as (found & _ & Hw & Hs').
    rewrite Hs' in Hs. injection Hs as <-.
    unfold syncSettingsWithFileSystem. cbn [templateFolder templates].
    apply String.eqb_neq in Hne. rewrite Hne, G, Hw. do 2 f_equal.
    set (T := templates s).
    set (T' := foldl (sync_file cache T) ∅ found).
    assert (Hstep : forall file acc,
              file ∈ found -> sync_file cache T' acc file = sync_file cache T acc file).
    { intros [p n' b' | p n' cs'] acc Hin; [|reflexivity].
      cbn [sync_file]. f_equal.
      pose proof (sync_files_found cache T found p) as F. fold T' in F.
      destruct (T' !! p) as [t'|] eqn:E.
      - destruct F as (n0 & b0 & _ & ->).
        apply (sync_entry_again cache T T' p b' b0 E).
      - exfalso. exact (F n' b' Hin). }
    assert (Hfold : forall l acc,
              (forall file, file ∈ l -> file ∈ found) ->
              foldl (sync_file cache T') acc l = foldl (sync_file cache T) acc l).
    { induction l as [|f l IH]; intros acc Hl; [reflexivity|].
      cbn [foldl]. rewrite Hstep by (apply Hl, list_elem_of_here).
      apply IH. intros file Hin. apply Hl, list_elem_of_further, Hin. }
    apply (Hfold found ∅). intros file Hin. exact Hin.
  - destruct (sync_without_folder vault cache s) as (s1 & Hs1 & Htf & Hempty).
    { right. intros folder Hf. congruence. }
    assert (s1 = s') by congruence. subst s1.
    unfold syncSettingsWithFileSystem. rewrite Htf, G.
    apply String.eqb_neq in Hne. rewrite Hne.
    destruct s' as [tf T']. simpl in *. subst. reflexivity.
Qed.

Lemma sync_is_idempotent_witness :
  syncSettingsWithFileSystem small_vault small_cache synced_settings
  = Some synced_settings.
Proof.
  apply (sync_is_idempotent small_vault small_cache stale_settings).
  vm_compute. reflexivity.
Defined.

End SyncFacts.

(** ** The scans and the plugin settings *)

Module ScanSettingsFacts.
Import Host Settings Plugin SyncSpec ScanSpec ScanFacts SyncFacts.

(** *** What the scans do to the plugin settings *)

Lemma picker_settings (c : TAbstractFile) :
  forall r category st,
    (picker_children r category [c] st).1 = foldl ensure_file st.1 (all_files c).
Proof.
  induction c as [p n b | p n cs IH] using TAbstractFile_nested_ind;
    intros r category st; [reflexivity|].
  change (picker_children r category [TFolder p n cs] st)
    with (TinyTemplatesModal.scanFolder (TFolder p n cs) n st).
  rewrite picker_scanFolder_unfold.
  generalize (String.eqb p (templateFolder st.1)). intros r'.
  cbn [all_files]. revert st.
  induction IH as [|c cs Hc _ IHcs]; intros st; [reflexivity|].
  change (c :: cs) with ([c] ++ cs)%list.
  rewrite picker_children_app, IHcs, Hc.
  cbn [List.flat_map app]. rewrite foldl_app. reflexivity.
Qed.

Lemma page_settings (c : TAbstractFile) :
  forall r category afp st,
    (page_children r category afp [c] st).1
    = foldl ensure_file st.1 (all_files c).
Proof.
  induction c as [p n b | p n cs IH] using TAbstractFile_nested_ind;
    intros r category afp st; [reflexivity|].
  change (page_children r category afp [TFolder p n cs] st)
    with (TinyTemplatesSettingTab.scanFolder (TFolder p n cs)
            (if String.eqb category "" then n else category +:+ "/" +:+ n)
            afp st).
  rewrite page_scanFolder_unfold.
  generalize (String.eqb p (templateFolder st.1)). intros r'.
  generalize (if String.eqb category "" then n else category +:+ "/" +:+ n).
  intros category'.
  cbn [all_files]. revert st.
  induction IH as [|c cs Hc _ IHcs]; intros st; [reflexivity|].
  change (c :: cs) with ([c] ++ cs)%list.
  rewrite page_children_app, IHcs, Hc.
  cbn [List.flat_map app]. rewrite foldl_app. reflexivity.
Qed.

Lemma picker_scan_settings (folder : TAbstractFile) (category : string) st :
  is_folder folder ->
  (TinyTemplatesModal.scanFolder folder category st).1
  = foldl ensure_file st.1 (all_files folder).
Proof.
  destruct folder as [|p n cs]; [intros []|]. intros _.
  rewrite picker_scanFolder_unfold.
  generalize (String.eqb p (templateFolder st.1)). intros r.
  cbn [all_files]. revert st.
  induction cs as [|c cs IH]; intros st; [reflexivity|].
  change (c :: cs) with ([c] ++ cs)%list.
  rewrite picker_children_app, IH, picker_settings.
  cbn [List.flat_map app]. rewrite foldl_app. reflexivity.
Qed.

Lemma page_scan_settings (folder : TAbstractFile) (category : string)
  (afp : list string) st :
  is_folder folder ->
  (TinyTemplatesSettingTab.scanFolder folder category afp st).1
  = foldl ensure_file st.1 (all_files folder).
Proof.
  destruct folder as [|p n cs]; [intros []|]. intros _.
  rewrite page_scanFolder_unfold.
  generalize (String.eqb p (templateFolder st.1)). intros r.
  cbn [all_files]. revert st.
  induction cs as [|c cs IH]; intros st; [reflexivity|].
  change (c :: cs) with ([c] ++ cs)%list.
  rewrite page_children_app, IH, page_settings.
  cbn [List.flat_map app]. rewrite foldl_app. reflexivity.
Qed.

Lemma ensure_files_templateFolder (files : list TAbstractFile) s :
  templateFolder (foldl ensure_file s files) = templateFolder s.
Proof.
  revert s. induction files as [|f files IH]; intros s; [reflexivity|].
  cbn [foldl]. rewrite IH. destruct f; [|reflexivity].
  apply ensure_template_templateFolder.
Qed.

Lemma set_name_same (b : string) (t : TemplateSettings) :
  name t = b -> set_name b t = t.
Proof. destruct t. simpl. intros <-. reflexivity. Qed.

Lemma same_path_same_file (l : list TAbstractFile) (x y : TAbstractFile) :
  NoDup (path <$> l) -> x ∈ l -> y ∈ l -> path x = path y -> x = y.
Proof.
  induction l as [|a l IH]; intros Hnd Hx Hy E; [inversion Hx|].
  rewrite fmap_cons in Hnd. apply NoDup_cons in Hnd. destruct Hnd as [Ha Hnd].
  apply elem_of_cons in Hx. apply elem_of_cons in Hy.
  destruct Hx as [-> | Hx], Hy as [-> | Hy].
  - reflexivity.
  - exfalso. apply Ha. rewrite E. apply list_elem_of_fmap.
    exists y. split; [reflexivity | exact Hy].
  - exfalso. apply Ha. rewrite <- E. apply list_elem_of_fmap.
    exists x. split; [reflexivity | exact Hx].
  - apply IH; assumption.
Qed.

(** After the step has run for a list of files, the entry at [p] is the old
    one when no file has that path; otherwise it is the old one, or a new
    one, under the basename of a file with that path. *)
Lemma ensure_files_lookup (files : list TAbstractFile) (p : string) s :
  let s' := foldl ensure_file s files in
  ((forall n b, TFile p n b ∉ files) /\ templates s' !! p = templates s !! p)
  \/ (exists n b,
        TFile p n b ∈ files
        /\ templates s' !! p
           = Some (set_name b (default (only_name b) (templates s !! p)))).
Proof.
  induction files as [|f files IH] using rev_ind; intros s'.
  - left. split; [|reflexivity]. intros n b H. inversion H.
  - subst s'. rewrite foldl_app. cbn [foldl].
    set (s1 := foldl ensure_file s files) in *.
    destruct f as [q n b | q n cs]; cbn [ensure_file].
    + assert (Hother : q <> p ->
                templates (ensure_template q b s1) !! p = templates s1 !! p).
      { intros Hne. unfold ensure_template.
        destruct (templates s1 !! q); simpl;
          rewrite lookup_insert_ne by exact Hne; reflexivity. }
      destruct (decide (q = p)) as [->|Hne].
      * right. exists n, b. split.
        -- apply elem_of_app. right. apply list_elem_of_here.
        -- unfold ensure_template.
           destruct IH as [[_ E] | (n' & b' & _ & E)]; rewrite E.
           ++ destruct (templates s !! p); simpl; apply lookup_insert_eq.
           ++ simpl. rewrite lookup_insert_eq.
              destruct (templates s !! p); reflexivity.
      * rewrite (Hother Hne).
        destruct IH as [[Hno E] | (n' & b' & Hin & E)].
        -- left. split; [|exact E]. intros n' b' H.
           apply elem_of_app in H. destruct H as [H | H]; [exact (Hno _ _ H)|].
           apply list_elem_of_singleton in H. congruence.
        -- right. exists n', b'. split; [|exact E].
           apply elem_of_app. left. exact Hin.
    + destruct IH as [[Hno E] | (n' & b' & Hin & E)].
      * left. split; [|exact E]. intros n' b' H.
        apply elem_of_app in H. destruct H as [H | H]; [exact (Hno _ _ H)|].
        apply list_elem_of_singleton in H. discriminate.
      * right. exists n', b'. split; [|exact E].
        apply elem_of_app. left. exact Hin.
Qed.

(** The scan of the picker and the scan of the settings page change the
    plugin settings in the same way, whatever categories they compute.  The
    template folder is kept; an entry whose path no file below the scanned
    folder has is kept as it is; and for a file below the folder there is an
    entry afterwards, which bears the basename of a file with that path and
    keeps everything else that was stored for the path. *)
Theorem scans_update_settings_alike (folder : TAbstractFile)
  (category category' : string) (afp : list string)
  (s : TinyTemplatesSettings) (m : TinyTemplatesModal.Modal)
  (tab : TinyTemplatesSettingTab.Tab) :
  is_folder folder ->
  let s1 := (TinyTemplatesModal.scanFolder folder category (s, m)).1 in
  let s2 := (TinyTemplatesSettingTab.scanFolder folder category' afp (s, tab)).1 in
  s1 = s2
  /\ templateFolder s1 = templateFolder s
  /\ forall p,
       ((forall n b, TFile p n b ∉ all_files folder) ->
        templates s1 !! p = templates s !! p)
       /\ (forall n b, TFile p n b ∈ all_files folder ->
           exists t' n' b',
             templates s1 !! p = Some t'
             /\ TFile p n' b' ∈ all_files folder
             /\ name t' = b'
             /\ targetFolder t' = templates s !! p ≫= targetFolder
             /\ dateFields t' = templates s !! p ≫= dateFields
             /\ titleFormat t' = templates s !! p ≫= titleFormat
             /\ isCommandRegistered t' = templates s !! p ≫= isCommandRegistered).
Proof.
  intros Hf s1 s2. subst s1 s2.
  rewrite (picker_scan_settings folder category (s, m) Hf).
  rewrite (page_scan_settings folder category' afp (s, tab) Hf).
  cbn [fst]. split; [reflexivity|].
  split; [apply ensure_files_templateFolder|].
  intros p.
  destruct (ensure_files_lookup (all_files folder) p s)
    as [[Hno E] | (n' & b' & Hin & E)]; cbn zeta in E.
  - split; [intros _; exact E|]. intros n b Hin. exfalso. exact (Hno n b Hin).
  - split; [intros Hno; exfalso; exact (Hno n' b' Hin)|].
    intros _ _ _. eexists _, n', b'. split; [exact E|]. split; [exact Hin|].
    destruct (templates s !! p) as [t|]; simpl; repeat split.
Qed.

Lemma scans_update_settings_alike_witness :
  (TinyTemplatesModal.scanFolder template_root ""
     (stale_settings, TinyTemplatesModal.new_Modal)).1
  = (TinyTemplatesSettingTab.scanFolder template_root "" []
       (stale_settings, TinyTemplatesSettingTab.mkTab [] [])).1.
Proof.
  exact (proj1 (scans_update_settings_alike template_root "" "" []
                  stale_settings TinyTemplatesModal.new_Modal
                  (TinyTemplatesSettingTab.mkTab [] []) I)).
Defined.

(** In a vault where no two files have the same path, a scan that follows
    [syncSettingsWithFileSystem], as in [display], changes no setting. *)
Theorem scan_after_sync_changes_no_setting (vault : TAbstractFile)
  (cache : MetadataCache.Cache) (s s' : TinyTemplatesSettings)
  (folder : TAbstractFile) (category : string) (afp : list string)
  (m : TinyTemplatesModal.Modal) (tab : TinyTemplatesSettingTab.Tab) :
  templateFolder s <> "" ->
  getAbstractFileByPath vault (templateFolder s) = Some folder ->
  is_folder folder ->
  NoDup (path <$> all_files folder) ->
  syncSettingsWithFileSystem vault cache s = Some s' ->
  (TinyTemplatesModal.scanFolder folder category (s', m)).1 = s'
  /\ (TinyTemplatesSettingTab.scanFolder folder category afp (s', tab)).1 = s'.
Proof.
  intros Hne G Hf Hnd Hs.
  rewrite (picker_scan_settings folder category (s', m) Hf).
  rewrite (page_scan_settings folder category afp (s', tab) Hf).
  cbn [fst].
  assert (E : foldl ensure_file s' (all_files folder) = s'); [|split; exact E].
  pose proof (ensure_files_templateFolder (all_files folder) s') as Htf.
  assert (Ht : templates (foldl ensure_file s' (all_files folder)) = templates s').
  { apply map_eq. intros p.
    destruct (ensure_files_lookup (all_files folder) p s')
      as [[_ E] | (n & b & Hin & E)]; cbn zeta in E; rewrite E; [reflexivity|].
    destruct (sync_with_folder vault cache s folder Hne G Hf)
      as (found & Hp & _ & Hs').
    rewrite Hs' in Hs. injection Hs as <-. cbn [templates].
    pose proof (sync_files_found cache (templates s) found p) as F.
    destruct (foldl (sync_file cache (templates s)) ∅ found !! p) as [t'|].
    - destruct F as (n0 & b0 & Hin0 & ->). rewrite Hp in Hin0.
      assert (Hsame : TFile p n0 b0 = TFile p n b)
        by (apply (same_path_same_file (all_files folder)); auto).
      injection Hsame as _ ->. simpl. f_equal.
      apply set_name_same.
      apply (sync_entry_fields cache (templates s) p b).
    - exfalso. apply (F n b). rewrite Hp. exact Hin. }
  destruct (foldl ensure_file s' (all_files folder)) as [tf T].
  destruct s' as [tf' T']. simpl in *. subst. reflexivity.
Qed.

Lemma scan_after_sync_changes_no_setting_witness :
  (TinyTemplatesModal.scanFolder template_root ""
     (synced_settings, TinyTemplatesModal.new_Modal)).1 = synced_settings.
Proof.
  refine (proj1 (scan_after_sync_changes_no_setting small_vault small_cache
                   stale_settings synced_settings template_root "" []
                   TinyTemplatesModal.new_Modal
                   (TinyTemplatesSettingTab.mkTab [] []) _ _ _ _ _)).
  - discriminate.
  - vm_compute. reflexivity.
  - exact I.
  - apply (bool_decide_unpack _). vm_compute. exact I.
  - vm_compute. reflexivity.
Defined.

End ScanSettingsFacts.

(** ** The date fields and their dialog *)

Module DateFieldsFacts.
Import Host Settings DateFields SaveSpec DateFieldsSpec OrderSpec.

Lemma collect_lookup (frontmatter : list string) (k : string) :
  forall acc : gmap string bool,
    foldl (fun (dateFields : gmap string bool) fieldName =>
             if excluded fieldName then dateFields
             else set_field dateFields fieldName false)
          acc frontmatter !! k
    = if bool_decide (k ∈ frontmatter) && gets_field k
      then Some false else acc !! k.
Proof.
  induction frontmatter as [|f l IH] using rev_ind; intros acc.
  - reflexivity.
  - rewrite foldl_app. cbn [foldl].
    assert (Hin : bool_decide (k ∈ (l ++ [f])%list)
                  = bool_decide (k ∈ l) || bool_decide (k = f)).
    { apply eq_true_iff_eq. rewrite orb_true_iff, !bool_decide_eq_true.
      rewrite elem_of_app, list_elem_of_singleton. reflexivity. }
    rewrite Hin.
    assert (Hskip : gets_field f = false ->
                    (if excluded f
                     then foldl (fun (dateFields : gmap string bool) fieldName =>
                                   if excluded fieldName then dateFields
                                   else set_field dateFields fieldName false) acc l
                     else set_field
                            (foldl (fun (dateFields : gmap string bool) fieldName =>
                                      if excluded fieldName then dateFields
                                      else set_field dateFields fieldName false) acc l)
                            f false)
                    = foldl (fun (dateFields : gmap string bool) fieldName =>
                               if excluded fieldName then dateFields
                               else set_field dateFields fieldName false) acc l).
    { unfold gets_field, set_field. intros E.
      destruct (excluded f); [reflexivity|].
      destruct (String.eqb f "__proto__"); [reflexivity | discriminate]. }
    destruct (gets_field f) eqn:Ef.
    + assert (E1 : excluded f = false)
        by (unfold gets_field in Ef; destruct (excluded f);
            [discriminate | reflexivity]).
      assert (E2 : String.eqb f "__proto__" = false)
        by (unfold gets_field in Ef; rewrite E1 in Ef;
            destruct (String.eqb f "__proto__"); [discriminate | reflexivity]).
      rewrite E1. unfold set_field. rewrite E2.
      destruct (decide (f = k)) as [->|Hne].
      * rewrite lookup_insert_eq, Ef.
        rewrite (bool_decide_eq_true_2 (k = k)) by reflexivity.
        rewrite orb_true_r. reflexivity.
      * rewrite lookup_insert_ne, IH by exact Hne.
        rewrite (bool_decide_eq_false_2 (k = f)) by congruence.
        rewrite orb_false_r. reflexivity.
    + rewrite (Hskip eq_refl), IH.
      destruct (bool_decide_reflect (k = f)) as [->|Hne].
      * rewrite Ef. rewrite !andb_false_r. reflexivity.
      * rewrite orb_false_r. reflexivity.
Qed.

(** [checkTemplateDateFields] gives a field to every key of the template's
    front matter except [tags], [aliases], [cssclasses] and [__proto__], to
    no other key, and every field it gives is off.  For a path that names
    no file, or a file without front matter, it gives no field. *)
Theorem checkTemplateDateFields_gives_the_eligible_keys
  (vault : TAbstractFile) (cache : MetadataCache.Cache)
  (templatePath k : string) :
  checkTemplateDateFields vault cache templatePath !! k
  = match getAbstractFileByPath vault templatePath with
    | Some (TFile p _ _) =>
        match cache !! p with
        | Some frontmatter =>
            if bool_decide (k ∈ frontmatter
                            /\ (k ∉ ["tags"; "aliases"; "cssclasses"])
                            /\ k <> "__proto__")
            then Some false else None
        | None => None
        end
    | _ => None
    end.
Proof.
  unfold checkTemplateDateFields, MetadataCache.frontmatter.
  destruct (getAbstractFileByPath vault templatePath) as [[p n b | p n cs]|];
    try apply lookup_empty.
  destruct (cache !! p) as [frontmatter|]; [|apply lookup_empty].
  rewrite collect_lookup, lookup_empty.
  unfold gets_field, excluded, EXCLUDED_FIELDS.
  destruct (bool_decide_reflect (k ∈ frontmatter)) as [Hin|Hout];
    destruct (bool_decide_reflect (k ∈ ["tags"; "aliases"; "cssclasses"]))
      as [Hex|Hok];
    destruct (String.eqb_spec k "__proto__") as [Hp|Hp]; simpl;
    try (rewrite bool_decide_eq_false_2; [reflexivity | tauto]).
  rewrite bool_decide_eq_true_2; [reflexivity | tauto].
Qed.

Lemma filter_permutation_elem {A} (f : A -> bool) (l : list A) (x : A) :
  x ∈ List.filter f l <-> x ∈ l /\ f x = true.
Proof.
  rewrite !list_elem_of_In. apply filter_In.
Qed.

(** The dialog of the date fields lists the keys of the template's front
    matter that are not excluded, each as often as the front matter has it,
    in the order of the collation; the toggle of a field is on exactly when
    the field is stored as on, or when date fields are stored for the
    template, hold no value of their own for the field, and the field bears
    the name of a member of [Object.prototype], which the read then
    finds. *)
Theorem dialog_lists_the_eligible_fields
  (localeCompare : string -> string -> Z)
  (vault : TAbstractFile) (cache : MetadataCache.Cache)
  (settings : TinyTemplatesSettings) (templatePath p n b : string)
  (frontmatter : list string) :
  (forall x y, 0 < localeCompare x y -> localeCompare y x <= 0) ->
  (forall x y z, localeCompare x y <= 0 -> localeCompare y z <= 0 ->
                 localeCompare x z <= 0) ->
  getAbstractFileByPath vault templatePath = Some (TFile p n b) ->
  cache !! p = Some frontmatter ->
  let rows := DateFieldsModal.onOpen localeCompare vault cache settings
                templatePath in
  List.map DateFieldsModal.fieldName rows
  ≡ₚ List.filter (fun k => negb (excluded k)) frontmatter
  /\ StronglySorted (before_or_equal localeCompare)
       (List.map DateFieldsModal.fieldName rows)
  /\ (forall k, k ∈ List.map DateFieldsModal.fieldName rows
                <-> k ∈ frontmatter /\ k ∉ EXCLUDED_FIELDS)
  /\ (forall row, row ∈ rows ->
        (DateFieldsModal.value row = true
         <-> stored_dateFields settings templatePath
               !! DateFieldsModal.fieldName row = Some true
             \/ (is_Some (templates settings !! templatePath ≫= dateFields)
                 /\ stored_dateFields settings templatePath
                      !! DateFieldsModal.fieldName row = None
                 /\ JS.inherited (DateFieldsModal.fieldName row) = true))).
Proof.
  intros Htot Htrans G C rows. subst rows.
  unfold DateFieldsModal.onOpen, MetadataCache.frontmatter. rewrite G, C.
  set (eligible := List.filter (fun k => negb (excluded k)) frontmatter).
  rewrite List.map_map. cbn [DateFieldsModal.fieldName]. rewrite List.map_id.
  pose proof (OrderFacts.sort_permutation localeCompare eligible) as Hp.
  split; [exact Hp|].
  split; [apply OrderFacts.sort_sorted; assumption|].
  split.
  - intros k. rewrite Hp. unfold eligible. rewrite filter_permutation_elem.
    unfold excluded. rewrite negb_true_iff, bool_decide_eq_false. reflexivity.
  - intros row Hrow. apply list_elem_of_In, in_map_iff in Hrow.
    destruct Hrow as (k & <- & _). cbn [DateFieldsModal.value DateFieldsModal.fieldName].
    unfold DateFieldsModal.stored_value, stored_dateFields.
    destruct (templates settings !! templatePath) as [t|]; simpl.
    + destruct (dateFields t) as [d|]; simpl.
      * destruct (d !! k) as [[]|]; simpl.
        -- split; [intros _; left; reflexivity | reflexivity].
        -- split; [discriminate | intros [H | (_ & H & _)]; discriminate].
        -- split.
           ++ intros H. right. split; [eexists; reflexivity|].
              split; [reflexivity | exact H].
           ++ intros [H | (_ & _ & H)]; [discriminate | exact H].
      * rewrite lookup_empty.
        split; [discriminate | intros [H | ([x Hx] & _)]; discriminate].
    + rewrite lookup_empty.
      split; [discriminate | intros [H | ([x Hx] & _)]; discriminate].
Qed.

Lemma dialog_lists_the_eligible_fields_witness :
  List.map DateFieldsModal.fieldName
    (DateFieldsModal.onOpen byteCompare SyncSpec.small_vault SyncSpec.small_cache
       SyncSpec.stale_settings "T/a.md")
  ≡ₚ List.filter (fun k => negb (excluded k)) ["created"; "tags"].
Proof.
  refine (proj1 (dialog_lists_the_eligible_fields byteCompare
                   SyncSpec.small_vault SyncSpec.small_cache
                   SyncSpec.stale_settings "T/a.md" "T/a.md" "a.md" "a"
                   ["created"; "tags"] OrderFacts.byteCompare_total
                   OrderFacts.byteCompare_trans _ _)).
  - vm_compute. reflexivity.
  - vm_compute. reflexivity.
Defined.

End DateFieldsFacts.

(** ** The folder choosers *)

Module SuggestFacts.
Import Host SuggestModal.

Lemma split_not_empty (sep : ascii) (s : string) : split sep s <> [].
Proof.
  destruct s as [|c s]; simpl; [discriminate|].
  destruct (Ascii.eqb c sep); [discriminate|].
  destruct (split sep s); discriminate.
Qed.

(** A text splits into one part exactly when it has no separator. *)
Lemma split_one_part (sep : ascii) (s : string) :
  (length (split sep s) =? 1)%nat = negb (Vault.has_char sep s).
Proof.
  induction s as [|c s IH]; [reflexivity|].
  simpl. destruct (Ascii.eqb c sep); simpl.
  - pose proof (split_not_empty sep s) as H.
    destruct (split sep s); [congruence | reflexivity].
  - rewrite <- IH. pose proof (split_not_empty sep s) as H.
    destruct (split sep s); [congruence | reflexivity].
Qed.

(** The chooser of the template folder offers exactly the suggestions of the
    chooser of the target folder that have no slash: a folder inside another
    folder is never offered as template folder.  Both offer only paths that
    are among the folders given and name a folder of the vault, in the order
    given. *)
Theorem template_folder_suggestions_are_top_level
  (toLowerCase : string -> string) (vault : TAbstractFile)
  (folders : list string) (query : string) :
  template_getSuggestions toLowerCase vault folders query
  = List.filter (fun folder => negb (Vault.has_char "/" folder))
      (target_getSuggestions toLowerCase vault folders query)
  /\ sublist (target_getSuggestions toLowerCase vault folders query) folders
  /\ (forall folder,
        folder ∈ target_getSuggestions toLowerCase vault folders query ->
        exists p n cs,
          getAbstractFileByPath vault folder = Some (TFolder p n cs)).
Proof.
  unfold template_getSuggestions, target_getSuggestions. split; [|split].
  - induction folders as [|f l IH]; [reflexivity|].
    cbn [List.filter]. rewrite split_one_part.
    destruct (negb (is_TFolder vault f)); [exact IH|].
    destruct (contains (toLowerCase f) (toLowerCase query)); cbn [List.filter].
    + destruct (negb (Vault.has_char "/" f)); simpl; [f_equal|]; exact IH.
    + rewrite andb_false_r. exact IH.
  - induction folders as [|f l IH]; [constructor|].
    cbn [List.filter].
    destruct (if negb (is_TFolder vault f) then false
              else contains (toLowerCase f) (toLowerCase query));
      [apply sublist_skip | apply sublist_cons]; exact IH.
  - intros folder Hin. apply list_elem_of_In, filter_In in Hin.
    destruct Hin as [_ Hin]. unfold is_TFolder in Hin.
    destruct (getAbstractFileByPath vault folder) as [[p n b | p n cs]|];
      try discriminate.
    exists p, n, cs. reflexivity.
Qed.

Lemma template_folder_suggestions_are_top_level_witness :
  exists p n cs,
    getAbstractFileByPath SyncSpec.small_vault "T/Work" = Some (TFolder p n cs).
Proof.
  apply (proj2 (proj2 (template_folder_suggestions_are_top_level
                         (fun s => s) SyncSpec.small_vault
                         ["T"; "T/Work"; "Inbox"; "Gone"] ""))).
  vm_compute. apply list_elem_of_further, list_elem_of_here.
Defined.

End SuggestFacts.

(** ** The selection cursor: left and right *)

Module CursorInverseFacts.
Import TinyTemplatesModal CursorSpec CursorFacts.

(** One step to the left: the template before, or the last template of the
    category before, the last category when the cursor is in the first. *)
Lemma within_backward (categories : list string) (m : Modal) (c t n : nat) :
  populated categories m -> placed categories m c t n ->
  exists c' t' n',
    navigateWithinCategory_over categories (-1) m
    = selectTemplate (Z.of_nat c') (Z.of_nat t')
        (template_at categories m c' t') m
    /\ sizes categories m !! c' = Some n'
    /\ (t' < n')%nat
    /\ ((0 < t /\ c' = c /\ t' = t - 1)
        \/ (t = 0 /\ c' = (c + length categories - 1) mod length categories
            /\ t' = n' - 1))%nat.
Proof.
  intros Hpop (Ec & Et & Hn & Ht).
  pose proof (populated_length _ _ Hpop) as Hlen.
  pose proof (lookup_lt_Some _ _ _ Hn) as Hc. rewrite length_sizes in Hc.
  unfold navigateWithinCategory_over.
  rewrite len_categories, Ec, Et, (size_read _ _ _ _ Hn).
  destruct (Z.eqb_spec (Z.of_nat (length categories)) 0); [lia|].
  destruct (Z.ltb_spec (Z.of_nat t + -1) 0) as [Hfirst | Hin].
  - rewrite rem_of_nat by lia.
    replace (Z.to_nat (Z.of_nat c - 1 + Z.of_nat (length categories)))
      with (c + length categories - 1)%nat by lia.
    set (c' := ((c + length categories - 1) mod length categories)%nat).
    assert (Hk : (c' < length categories)%nat)
      by (apply Nat.mod_upper_bound; lia).
    destruct (populated_size _ _ _ Hpop Hk) as (n' & Hn' & Hpos).
    rewrite (size_read _ _ _ _ Hn').
    destruct (Z.ltb_spec 0 (Z.of_nat n')); [|lia].
    exists c', (n' - 1)%nat, n'.
    split; [|split; [exact Hn' | split; [lia | right; lia]]].
    unfold template_at.
    replace (Z.of_nat (n' - 1)) with (Z.of_nat n' - 1) by lia. reflexivity.
  - destruct (Z.leb_spec (Z.of_nat n) (Z.of_nat t + -1)); [lia|].
    rewrite (size_read _ _ _ _ Hn).
    destruct (Z.ltb_spec 0 (Z.of_nat n)); [|lia].
    exists c, (t - 1)%nat, n.
    split; [|split; [exact Hn | split; [lia | left; lia]]].
    unfold template_at.
    replace (Z.of_nat (t - 1)) with (Z.of_nat t + -1) by lia. reflexivity.
Qed.

Lemma mod_pred_succ (c k : nat) :
  (c < k)%nat -> ((S c mod k + k - 1) mod k = c)%nat.
Proof.
  intros Hc. destruct (decide (S c = k)) as [E|Hne].
  - rewrite E, Nat.Div0.mod_same.
    replace (0 + k - 1)%nat with c by lia. apply Nat.mod_small. lia.
  - rewrite (Nat.mod_small (S c)) by lia.
    replace (S c + k - 1)%nat with (c + 1 * k)%nat by lia.
    rewrite Nat.Div0.mod_add. apply Nat.mod_small. lia.
Qed.

Lemma mod_succ_pred (c k : nat) :
  (c < k)%nat -> (S ((c + k - 1) mod k) mod k = c)%nat.
Proof.
  intros Hc. destruct c as [|c].
  - rewrite Nat.add_0_l, (Nat.mod_small (k - 1)) by lia.
    replace (S (k - 1)) with k by lia. apply Nat.Div0.mod_same.
  - replace (S c + k - 1)%nat with (c + 1 * k)%nat by lia.
    rewrite Nat.Div0.mod_add, (Nat.mod_small c) by lia.
    apply Nat.mod_small. lia.
Qed.

Lemma template_at_addressed (categories : list string) (m : Modal)
  (p : string) (c t : nat) :
  addresses categories m p ->
  currentCategoryIndex m = Z.of_nat c -> currentTemplateIndex m = Z.of_nat t ->
  template_at categories m c t = Some p.
Proof.
  intros (cat & Hc & Hp) Ec Et. unfold template_at.
  rewrite <- Ec, <- Et, Hc. exact Hp.
Qed.

(** Over one array of categories, a step to the left after a step to the
    right, and a step to the right after a step to the left, bring the
    cursor back to where it was and select the template there. *)
Lemma within_round_trip (categories : list string) (m : Modal) (p : string) :
  populated categories m -> addresses categories m p ->
  navigateWithinCategory_over categories (-1)
    (navigateWithinCategory_over categories 1 m)
  = selectTemplate (currentCategoryIndex m) (currentTemplateIndex m) (Some p) m
  /\ navigateWithinCategory_over categories 1
       (navigateWithinCategory_over categories (-1) m)
     = selectTemplate (currentCategoryIndex m) (currentTemplateIndex m) (Some p) m.
Proof.
  intros Hpop Hp.
  destruct (addresses_placed _ _ _ Hp) as (c & t & n & Hpl).
  pose proof Hpl as (Ec & Et & Hn & Ht).
  pose proof (populated_length _ _ Hpop) as Hlen.
  pose proof (lookup_lt_Some _ _ _ Hn) as Hc. rewrite length_sizes in Hc.
  pose proof (template_at_addressed _ _ _ _ _ Hp Ec Et) as Hat.
  rewrite Ec, Et. split.
  - destruct (within_forward _ _ _ _ _ Hpop Hpl) as (n1 & E1 & Hn1 & Ht1).
    rewrite E1.
    set (c1 := (next_position (length categories) c t n).1) in *.
    set (t1 := (next_position (length categories) c t n).2) in *.
    set (m1 := selectTemplate (Z.of_nat c1) (Z.of_nat t1)
                 (template_at categories m c1 t1) m).
    destruct (within_backward categories m1 c1 t1 n1 Hpop
                (placed_selectTemplate _ _ _ _ _ _ Hn1 Ht1))
      as (c2 & t2 & n2 & E2 & Hn2 & Ht2 & Hcase).
    rewrite E2.
    assert (Hback : c2 = c /\ t2 = t).
    { subst c1 t1. unfold next_position in *.
      destruct (Nat.ltb_spec (S t) n) as [Hin | Hend]; cbn [fst snd] in *.
      - destruct Hcase as [(_ & -> & ->) | (H0 & _)]; [lia | lia].
      - destruct Hcase as [(H0 & _) | (_ & -> & ->)]; [lia|].
        rewrite mod_pred_succ in * by exact Hc.
        change (sizes categories m1) with (sizes categories m) in Hn2.
        split; [reflexivity|]. assert (n2 = n) by congruence. lia. }
    destruct Hback as [-> ->].
    change (template_at categories m1 c t) with (template_at categories m c t).
    rewrite Hat. reflexivity.
  - destruct (within_backward _ _ _ _ _ Hpop Hpl)
      as (c1 & t1 & n1 & E1 & Hn1 & Ht1 & Hcase).
    rewrite E1.
    set (m1 := selectTemplate (Z.of_nat c1) (Z.of_nat t1)
                 (template_at categories m c1 t1) m).
    destruct (within_forward categories m1 c1 t1 n1 Hpop
                (placed_selectTemplate _ _ _ _ _ _ Hn1 Ht1))
      as (n2 & E2 & _ & _).
    rewrite E2.
    assert (Hback : next_position (length categories) c1 t1 n1 = (c, t)).
    { unfold next_position.
      destruct Hcase as [(H0 & -> & ->) | (H0 & -> & ->)].
      - assert (n1 = n) by congruence. subst n1.
        destruct (Nat.ltb_spec (S (t - 1)) n); [f_equal; lia | lia].
      - destruct (Nat.ltb_spec (S (n1 - 1)) n1); [lia|].
        rewrite mod_succ_pred by exact Hc. subst t. reflexivity. }
    rewrite Hback. cbn [fst snd].
    change (template_at categories m1 c t) with (template_at categories m c t).
    rewrite Hat. reflexivity.
Qed.

(** In each revision, over the array of categories that its navigation
    reads ([sortedCategories] in the later one, the keys of
    [categorizedTemplates] as [Object.keys] lists them in the earlier one):
    when no category is empty and the cursor addresses a template of that
    array, ArrowLeft after ArrowRight, and ArrowRight after ArrowLeft, bring
    the cursor back to that template and select it; if it was the selected
    template, the picker is as before. *)
Theorem left_and_right_undo_each_other (m : Modal) (p : string) :
  (populated (sortedCategories m) m ->
   addresses (sortedCategories m) m p ->
   Part000.press ArrowLeft (Part000.press ArrowRight m)
   = selectTemplate (currentCategoryIndex m) (currentTemplateIndex m) (Some p) m
   /\ Part000.press ArrowRight (Part000.press ArrowLeft m)
      = selectTemplate (currentCategoryIndex m) (currentTemplateIndex m)
          (Some p) m
   /\ (selectedTemplate m = Some p ->
       Part000.press ArrowLeft (Part000.press ArrowRight m) = m))
  /\ (populated (JS.Object_keys (categorizedTemplates m)) m ->
      addresses (JS.Object_keys (categorizedTemplates m)) m p ->
      MainTs.press ArrowLeft (MainTs.press ArrowRight m)
      = selectTemplate (currentCategoryIndex m) (currentTemplateIndex m)
          (Some p) m
      /\ MainTs.press ArrowRight (MainTs.press ArrowLeft m)
         = selectTemplate (currentCategoryIndex m) (currentTemplateIndex m)
             (Some p) m
      /\ (selectedTemplate m = Some p ->
          MainTs.press ArrowLeft (MainTs.press ArrowRight m) = m)).
Proof.
  split; intros Hpop Hp.
  - destruct (within_round_trip (sortedCategories m) m p Hpop Hp) as [E1 E2].
    cbn [Part000.press]. unfold Part000.navigateWithinCategory.
    assert (K : forall d,
      sortedCategories (navigateWithinCategory_over (sortedCategories m) d m)
      = sortedCategories m).
    { intros d. unfold navigateWithinCategory_over.
      repeat match goal with
             | |- context [if ?b then _ else _] => destruct b
             | |- context [let '(_, _) := ?x in _] => destruct x
             end; reflexivity. }
    rewrite !K. split; [exact E1|]. split; [exact E2|].
    intros Hsel. rewrite E1. destruct m; simpl in *. subst. reflexivity.
  - destruct (within_round_trip (JS.Object_keys (categorizedTemplates m)) m p
                Hpop Hp) as [E1 E2].
    cbn [MainTs.press]. unfold MainTs.navigateWithinCategory.
    assert (K : forall d,
      categorizedTemplates
        (navigateWithinCategory_over (JS.Object_keys (categorizedTemplates m)) d m)
      = categorizedTemplates m).
    { intros d. unfold navigateWithinCategory_over.
      repeat match goal with
             | |- context [if ?b then _ else _] => destruct b
             | |- context [let '(_, _) := ?x in _] => destruct x
             end; reflexivity. }
    rewrite !K. split; [exact E1|]. split; [exact E2|].
    intros Hsel. rewrite E1. destruct m; simpl in *. subst. reflexivity.
Qed.

Lemma left_and_right_undo_each_other_witness :
  Part000.press ArrowLeft (Part000.press ArrowRight sample_modal) = sample_modal
  /\ MainTs.press ArrowLeft (MainTs.press ArrowRight sample_modal)
     = sample_modal.
Proof.
  destruct (left_and_right_undo_each_other sample_modal "T/b.md")
    as [Hlater Hearlier].
  destruct (Hlater sample_modal_populated sample_modal_addresses)
    as (_ & _ & Hsame).
  destruct (Hearlier sample_modal_populated sample_modal_addresses)
    as (_ & _ & Hsame').
  split; [apply Hsame | apply Hsame']; reflexivity.
Defined.

End CursorInverseFacts.

(** ** The selection cursor: up and down *)

Module CategoryStepFacts.
Import TinyTemplatesModal CursorSpec CursorFacts CursorInverseFacts.

(** The category that a step of [d] reaches from the category at [c], of [k]
    categories. *)
Lemma category_step (c k : nat) (d : Z) :
  (c < k)%nat -> d = 1 \/ d = -1 ->
  (Z.to_nat (Z.of_nat c + d + Z.of_nat k) mod k)%nat
  = if d <? 0 then ((c + k - 1) mod k)%nat else (S c mod k)%nat.
Proof.
  intros Hc [-> | ->]; simpl.
  - replace (Z.to_nat (Z.of_nat c + 1 + Z.of_nat k)) with (S c + 1 * k)%nat by lia.
    apply Nat.Div0.mod_add.
  - f_equal. lia.
Qed.

(** [navigateCategory] of the later revision: the category above or below,
    at the position that the cursor had, or at the last template when the
    category is shorter. *)
Lemma part000_navigateCategory_step (m : Modal) (d : Z) (c t n : nat) :
  d = 1 \/ d = -1 ->
  populated (sortedCategories m) m -> placed (sortedCategories m) m c t n ->
  let c' := if d <? 0 then ((c + length (sortedCategories m) - 1)
                             mod length (sortedCategories m))%nat
            else (S c mod length (sortedCategories m))%nat in
  exists n',
    sizes (sortedCategories m) m !! c' = Some n' /\ (0 < n')%nat
    /\ Part000.navigateCategory d m
       = selectTemplate (Z.of_nat c') (Z.of_nat (Nat.min t (n' - 1)))
           (template_at (sortedCategories m) m c' (Nat.min t (n' - 1))) m.
Proof.
  intros Hd Hpop (Ec & Et & Hn & Ht) c'.
  pose proof (populated_length _ _ Hpop) as Hlen.
  pose proof (lookup_lt_Some _ _ _ Hn) as Hc. rewrite length_sizes in Hc.
  unfold Part000.navigateCategory.
  rewrite len_categories, Ec, Et.
  destruct (Z.eqb_spec (Z.of_nat (length (sortedCategories m))) 0); [lia|].
  rewrite rem_of_nat by lia.
  rewrite (category_step c _ d Hc Hd). fold c'.
  assert (Hk : (c' < length (sortedCategories m))%nat).
  { subst c'. destruct (d <? 0); apply Nat.mod_upper_bound; lia. }
  destruct (populated_size _ _ _ Hpop Hk) as (n' & Hn' & Hpos).
  rewrite (size_read _ _ _ _ Hn').
  destruct (Z.ltb_spec 0 (Z.of_nat n')); [|lia].
  exists n'. split; [exact Hn'|]. split; [exact Hpos|].
  unfold JS.Math_min, template_at.
  replace (Z.of_nat (Nat.min t (n' - 1)))
    with (Z.min (Z.of_nat t) (Z.of_nat n' - 1)) by lia.
  reflexivity.
Qed.

(** [navigateCategory] of the earlier revision: the category above, at its
    last template, or the category below, at its first. *)
Lemma main_ts_navigateCategory_step (m : Modal) (d : Z) (c t n : nat) :
  d = 1 \/ d = -1 ->
  populated (JS.Object_keys (categorizedTemplates m)) m ->
  placed (JS.Object_keys (categorizedTemplates m)) m c t n ->
  let categories := JS.Object_keys (categorizedTemplates m) in
  let c' := if d <? 0 then ((c + length categories - 1) mod length categories)%nat
            else (S c mod length categories)%nat in
  exists n',
    sizes categories m !! c' = Some n' /\ (0 < n')%nat
    /\ MainTs.navigateCategory d m
       = selectTemplate (Z.of_nat c')
           (Z.of_nat (if d <? 0 then (n' - 1)%nat else 0%nat))
           (template_at categories m c'
              (if d <? 0 then (n' - 1)%nat else 0%nat)) m.
Proof.
  intros Hd Hpop (Ec & Et & Hn & Ht) categories c'.
  fold categories in Hpop, Hn.
  pose proof (populated_length categories m Hpop) as Hlen.
  pose proof (lookup_lt_Some _ _ _ Hn) as Hc. rewrite length_sizes in Hc.
  unfold MainTs.navigateCategory. fold categories.
  rewrite len_categories, Ec.
  destruct (Z.eqb_spec (Z.of_nat (length categories)) 0); [lia|].
  rewrite rem_of_nat by lia.
  rewrite (category_step c _ d Hc Hd). fold c'.
  assert (Hk : (c' < length categories)%nat).
  { subst c'. destruct (d <? 0); apply Nat.mod_upper_bound; lia. }
  destruct (populated_size _ _ _ Hpop Hk) as (n' & Hn' & Hpos).
  rewrite (size_read _ _ _ _ Hn').
  destruct (Z.ltb_spec 0 (Z.of_nat n')); [|lia].
  exists n'. split; [exact Hn'|]. split; [exact Hpos|].
  unfold template_at. destruct (d <? 0); [|reflexivity].
  replace (Z.of_nat (n' - 1)) with (Z.of_nat n' - 1) by lia. reflexivity.
Qed.

(** ArrowUp after ArrowDown, when no category is empty and the cursor
    addresses a template, each revision over the array of categories that
    its navigation reads.  In the later revision the cursor is back in its
    category, at the position it took in the category below: the smaller of
    the position it had and the last position of that category.  When that
    is the position it had, the picker is as after selecting the template
    it had.  In the earlier revision the cursor is back in its category, at
    the last template. *)
Theorem up_after_down_returns_to_the_category (m : Modal) (p : string) :
  (populated (sortedCategories m) m ->
   addresses (sortedCategories m) m p ->
   let below := Part000.press ArrowDown m in
   let back := Part000.press ArrowUp below in
   currentCategoryIndex back = currentCategoryIndex m
   /\ currentTemplateIndex back = currentTemplateIndex below
   /\ (exists category,
         JS.index (sortedCategories m) (currentCategoryIndex below)
         = Some category
         /\ currentTemplateIndex below
            = Z.min (currentTemplateIndex m)
                (JS.len (templates_of m (Some category)) - 1))
   /\ (currentTemplateIndex below = currentTemplateIndex m ->
       back = selectTemplate (currentCategoryIndex m) (currentTemplateIndex m)
                (Some p) m))
  /\ (populated (JS.Object_keys (categorizedTemplates m)) m ->
      addresses (JS.Object_keys (categorizedTemplates m)) m p ->
      let back := MainTs.press ArrowUp (MainTs.press ArrowDown m) in
      currentCategoryIndex back = currentCategoryIndex m
      /\ exists category,
           JS.index (JS.Object_keys (categorizedTemplates m))
             (currentCategoryIndex m) = Some category
           /\ currentTemplateIndex back
              = JS.len (templates_of m (Some category)) - 1).
Proof.
  split; intros Hpop Hp.
  - intros below back.
    destruct (addresses_placed _ _ _ Hp) as (c & t & n & Hpl).
    pose proof Hpl as (Ec & Et & Hn & Ht).
    pose proof (lookup_lt_Some _ _ _ Hn) as Hc. rewrite length_sizes in Hc.
    pose proof (template_at_addressed _ _ _ _ _ Hp Ec Et) as Hat.
    destruct (part000_navigateCategory_step m 1 c t n (or_introl eq_refl) Hpop Hpl)
      as (n1 & Hn1 & Hpos1 & E1).
    change (1 <? 0) with false in *. cbv iota in *.
    set (c1 := (S c mod length (sortedCategories m))%nat) in *.
    assert (Eb : below
                 = selectTemplate (Z.of_nat c1) (Z.of_nat (Nat.min t (n1 - 1)))
                     (template_at (sortedCategories m) m c1 (Nat.min t (n1 - 1)))
                     m) by exact E1.
    assert (Hpl1 : placed (sortedCategories below) below c1
                     (Nat.min t (n1 - 1)) n1).
    { rewrite Eb. apply placed_selectTemplate; [exact Hn1 | lia]. }
    assert (Hpop1 : populated (sortedCategories below) below)
      by (rewrite Eb; exact Hpop).
    destruct (part000_navigateCategory_step below (-1) c1 _ n1
                (or_intror eq_refl) Hpop1 Hpl1) as (n2 & Hn2 & Hpos2 & E2).
    change (-1 <? 0) with true in *. cbv iota in *.
    assert (Hs : sortedCategories below = sortedCategories m)
      by (rewrite Eb; reflexivity).
    rewrite Hs in Hn2, E2.
    unfold c1 in Hn2, E2. rewrite mod_pred_succ in Hn2, E2 by exact Hc.
    assert (Hz : sizes (sortedCategories m) below = sizes (sortedCategories m) m)
      by (rewrite Eb; reflexivity).
    rewrite Hz in Hn2. assert (n2 = n) by congruence. subst n2.
    replace (Nat.min (Nat.min t (n1 - 1)) (n - 1)) with (Nat.min t (n1 - 1))
      in E2 by lia.
    assert (Ek : back
                 = selectTemplate (Z.of_nat c) (Z.of_nat (Nat.min t (n1 - 1)))
                     (template_at (sortedCategories m) below c
                        (Nat.min t (n1 - 1))) below) by exact E2.
    rewrite Ek, Eb, Ec, Et. cbn [currentCategoryIndex currentTemplateIndex selectTemplate].
    split; [reflexivity|]. split; [reflexivity|]. split.
    { pose proof Hn1 as Hcat. unfold sizes in Hcat.
      rewrite list_lookup_fmap in Hcat. rewrite index_of_nat.
      destruct (sortedCategories m !! c1) as [cat|]; [|discriminate].
      exists cat. split; [reflexivity|].
      simpl in Hcat. injection Hcat as <-. unfold JS.len. lia. }
    intros Hsame. assert (Hmin : Nat.min t (n1 - 1) = t) by lia.
    rewrite Hmin.
    change (template_at (sortedCategories m)
              (selectTemplate (Z.of_nat c1) (Z.of_nat t)
                 (template_at (sortedCategories m) m c1 t) m) c t)
      with (template_at (sortedCategories m) m c t).
    rewrite Hat. reflexivity.
  - intros back.
    set (categories := JS.Object_keys (categorizedTemplates m)) in *.
    destruct (addresses_placed _ _ _ Hp) as (c & t & n & Hpl).
    pose proof Hpl as (Ec & Et & Hn & Ht).
    pose proof (lookup_lt_Some _ _ _ Hn) as Hc. rewrite length_sizes in Hc.
    destruct (main_ts_navigateCategory_step m 1 c t n (or_introl eq_refl) Hpop Hpl)
      as (n1 & Hn1 & Hpos1 & E1).
    change (1 <? 0) with false in *. cbv iota in *. fold categories in Hn1, E1.
    set (c1 := (S c mod length categories)%nat) in *.
    set (below := MainTs.navigateCategory 1 m) in *.
    assert (Hk : categorizedTemplates below = categorizedTemplates m)
      by (rewrite E1; reflexivity).
    assert (Hpl1 : placed (JS.Object_keys (categorizedTemplates below)) below
                     c1 0 n1).
    { rewrite Hk. fold categories. rewrite E1.
      apply placed_selectTemplate; [exact Hn1 | lia]. }
    assert (Hpop1 : populated (JS.Object_keys (categorizedTemplates below)) below).
    { rewrite Hk. fold categories. rewrite E1. exact Hpop. }
    destruct (main_ts_navigateCategory_step below (-1) c1 0 n1
                (or_intror eq_refl) Hpop1 Hpl1) as (n2 & Hn2 & Hpos2 & E2).
    change (-1 <? 0) with true in *. cbv iota in *.
    rewrite Hk in Hn2, E2. fold categories in Hn2, E2.
    unfold c1 in Hn2, E2. rewrite mod_pred_succ in Hn2, E2 by exact Hc.
    assert (Hz : sizes categories below = sizes categories m)
      by (rewrite E1; reflexivity).
    rewrite Hz in Hn2. assert (n2 = n) by congruence. subst n2.
    assert (Ek : back
                 = selectTemplate (Z.of_nat c) (Z.of_nat (n - 1))
                     (template_at categories below c (n - 1)) below)
      by exact E2.
    rewrite Ek, Ec. cbn [currentCategoryIndex currentTemplateIndex selectTemplate].
    split; [reflexivity|].
    unfold sizes in Hn. rewrite list_lookup_fmap in Hn.
    rewrite index_of_nat.
    destruct (categories !! c) as [cat|]; [|discriminate].
    exists cat. split; [reflexivity|].
    simpl in Hn. injection Hn as <-. unfold JS.len. lia.
Qed.

Lemma up_after_down_returns_to_the_category_witness :
  currentCategoryIndex
    (Part000.press ArrowUp (Part000.press ArrowDown sample_modal)) = 0
  /\ currentTemplateIndex
       (Part000.press ArrowUp (Part000.press ArrowDown sample_modal))
     = currentTemplateIndex (Part000.press ArrowDown sample_modal)
  /\ currentCategoryIndex
       (MainTs.press ArrowUp (MainTs.press ArrowDown sample_modal)) = 0.
Proof.
  destruct (up_after_down_returns_to_the_category sample_modal "T/b.md")
    as [Hlater Hearlier].
  destruct (Hlater sample_modal_populated sample_modal_addresses)
    as (Hc & Ht & _).
  destruct (Hearlier sample_modal_populated sample_modal_addresses)
    as (Hc' & _).
  split; [exact Hc | split; [exact Ht | exact Hc']].
Defined.

End CategoryStepFacts.

(** ** The index of the picker *)

Module IndexFacts.
Import TinyTemplatesModal PickerCommon ScanSpec GroupSpec ScanFacts GroupFacts
  OrderFacts ScanSettingsFacts IndexSpec.

(** *** Maps whose entries carry their own key *)

Lemma Map_set_keys {V} (m : JS.Map V) (k x : string) (v : V) :
  x ∈ (JS.Map_set m k v).*1 <-> x ∈ m.*1 \/ x = k.
Proof.
  induction m as [|[k' v'] m IH]; simpl.
  - rewrite list_elem_of_singleton. split; [intros ->; right; reflexivity|].
    intros [H | ->]; [inversion H | reflexivity].
  - destruct (String.eqb_spec k' k) as [->|Hne]; simpl.
    + rewrite !elem_of_cons. tauto.
    + rewrite !elem_of_cons, IH. tauto.
Qed.

Lemma Map_set_NoDup {V} (m : JS.Map V) (k : string) (v : V) :
  NoDup m.*1 -> NoDup (JS.Map_set m k v).*1.
Proof.
  induction m as [|[k' v'] m IH]; simpl; intros Hnd.
  - repeat constructor. intros H. inversion H.
  - apply NoDup_cons in Hnd. destruct Hnd as [Hk Hnd].
    destruct (String.eqb_spec k' k) as [->|Hne]; simpl.
    + apply NoDup_cons. split; assumption.
    + apply NoDup_cons. split; [|apply IH; exact Hnd].
      rewrite Map_set_keys. intros [H | H]; [exact (Hk H) | exact (Hne H)].
Qed.

Lemma Map_set_entries {V} (Q : string -> V -> Prop) (m : JS.Map V)
  (k : string) (v : V) :
  Forall (fun kv => Q kv.1 kv.2) m -> Q k v ->
  Forall (fun kv => Q kv.1 kv.2) (JS.Map_set m k v).
Proof.
  intros Hm Hv. induction Hm as [|[k' v'] m Hkv Hm IH]; simpl.
  - constructor; [exact Hv | constructor].
  - destruct (String.eqb_spec k' k) as [->|Hne]; constructor; assumption.
Qed.

Lemma Map_get_elem {V} (m : JS.Map V) (k : string) (v : V) :
  NoDup m.*1 -> (JS.Map_get m k = Some v <-> (k, v) ∈ m).
Proof.
  induction m as [|[k' v'] m IH]; simpl; intros Hnd.
  - split; [discriminate | intros H; inversion H].
  - apply NoDup_cons in Hnd. destruct Hnd as [Hk Hnd].
    rewrite elem_of_cons.
    destruct (String.eqb_spec k' k) as [->|Hne].
    + split; [intros [= ->]; left; reflexivity|].
      intros [[= ->] | H]; [reflexivity|].
      exfalso. apply Hk. apply (list_elem_of_fmap_2 fst _ _ H).
    + rewrite (IH Hnd). split; [tauto|].
      intros [[= -> ->] | H]; [congruence | exact H].
Qed.

Lemma keyed_write (t : JS.Map TemplateInfo) (p c : string) :
  keyed t -> keyed (JS.Map_set t p (mkTemplateInfo p c)).
Proof.
  intros [Hnd Hall]. split; [apply Map_set_NoDup; exact Hnd|].
  apply (Map_set_entries (fun k v => path v = k)); [exact Hall | reflexivity].
Qed.

Lemma picker_children_keyed (c : Host.TAbstractFile) :
  forall r category st,
    keyed (templates st.2) ->
    keyed (templates (picker_children r category [c] st).2).
Proof.
  induction c as [p n b | p n cs IH] using TAbstractFile_nested_ind;
    intros r category st Hk.
  - simpl. apply keyed_write. exact Hk.
  - change (picker_children r category [Host.TFolder p n cs] st)
      with (TinyTemplatesModal.scanFolder (Host.TFolder p n cs) n st).
    rewrite picker_scanFolder_unfold.
    generalize (String.eqb p (Settings.templateFolder st.1)). intros r'.
    revert st Hk.
    induction IH as [|c cs Hc _ IHcs]; intros st Hk; [exact Hk|].
    change (c :: cs) with ([c] ++ cs)%list.
    rewrite picker_children_app. apply IHcs, Hc, Hk.
Qed.

Lemma scanFolder_keyed (folder : Host.TAbstractFile) (category : string) st :
  keyed (templates st.2) ->
  keyed (templates (TinyTemplatesModal.scanFolder folder category st).2).
Proof.
  intros Hk. destruct folder as [p n b | p n cs]; [exact Hk|].
  rewrite picker_scanFolder_unfold.
  generalize (String.eqb p (Settings.templateFolder st.1)). intros r.
  revert st Hk. induction cs as [|c cs IH]; intros st Hk; [exact Hk|].
  change (c :: cs) with ([c] ++ cs)%list.
  rewrite picker_children_app. apply IH, picker_children_keyed, Hk.
Qed.

(** *** The grouping loop *)

Lemma own_groups_snoc (entries : JS.Map TemplateInfo)
  (e : string * TemplateInfo) :
  own_groups (entries ++ [e])%list
  = JS.obj_set (own_groups entries) (category e.2)
      (default [] (JS.obj_get (own_groups entries) (category e.2))
       ++ [e.1])%list.
Proof. unfold own_groups. rewrite foldl_app. reflexivity. Qed.

Lemma own_groups_get (entries : JS.Map TemplateInfo) (c : string) :
  default [] (JS.obj_get (own_groups entries) c)
  = (List.filter (fun e => String.eqb (category e.2) c) entries).*1.
Proof.
  induction entries as [|e entries IH] using rev_ind; [reflexivity|].
  rewrite own_groups_snoc. unfold JS.obj_get, JS.obj_set in *.
  rewrite Map_get_set, List.filter_app, fmap_app. cbn [List.filter].
  destruct (String.eqb_spec (category e.2) c) as [->|Hne].
  - simpl. rewrite IH. reflexivity.
  - simpl. rewrite app_nil_r. exact IH.
Qed.

Lemma sort_each_category_get (localeCompare : string -> string -> Z)
  (vault : Host.TAbstractFile) (o : JS.Obj (list string)) (c : string) :
  exists cmp,
    JS.obj_get (sort_each_category localeCompare vault o) c
    = JS.sort cmp <$> JS.obj_get o c.
Proof.
  unfold sort_each_category. eexists. unfold JS.obj_get.
  induction o as [|[k l] o IH]; [reflexivity|].
  simpl. destruct (String.eqb k c); [reflexivity | exact IH].
Qed.

(** The index built from keyed entries: the list of a category holds the
    paths of the entries of that category, each once. *)
Lemma grouped_index (localeCompare : string -> string -> Z)
  (vault : Host.TAbstractFile) (entries : JS.Map TemplateInfo) (c : string) :
  keyed entries ->
  let l := default []
             (JS.obj_get
                (sort_each_category localeCompare vault (own_groups entries))
                c) in
  NoDup l
  /\ forall p, p ∈ l <-> JS.Map_get entries p = Some (mkTemplateInfo p c).
Proof.
  intros [Hnd Hall] l.
  destruct (sort_each_category_get localeCompare vault (own_groups entries) c)
    as (cmp & E).
  assert (Hl : l ≡ₚ (List.filter (fun e => String.eqb (category e.2) c) entries).*1).
  { subst l. rewrite E, <- own_groups_get.
    destruct (JS.obj_get (own_groups entries) c) as [x|]; simpl;
      [apply sort_permutation | reflexivity]. }
  split.
  - rewrite Hl. clear - Hnd.
    induction entries as [|[k v] entries IH]; [constructor|].
    simpl in *. apply NoDup_cons in Hnd. destruct Hnd as [Hk Hnd].
    destruct (String.eqb (category v) c); simpl; [|apply IH; exact Hnd].
    apply NoDup_cons. split; [|apply IH; exact Hnd].
    intros H. apply Hk. apply list_elem_of_fmap in H.
    destruct H as ([k' v'] & -> & H). apply list_elem_of_In, filter_In in H.
    destruct H as [H _]. apply list_elem_of_In in H.
    apply (list_elem_of_fmap_2 fst _ _ H).
  - intros p. rewrite Hl, (Map_get_elem entries p _ Hnd), list_elem_of_fmap.
    split.
    + intros ([k v] & -> & H). apply list_elem_of_In, filter_In in H.
      destruct H as [H Hc]. apply list_elem_of_In in H.
      pose proof (proj1 (Forall_forall _ _) Hall _ H) as Hp.
      simpl in *. apply String.eqb_eq in Hc.
      destruct v as [vp vc]. simpl in *. subst. exact H.
    + intros H. exists (p, mkTemplateInfo p c). split; [reflexivity|].
      apply list_elem_of_In, filter_In. split; [apply list_elem_of_In, H|].
      apply String.eqb_refl.
Qed.

Lemma keyed_nil : keyed [].
Proof. split; constructor. Qed.

Lemma reset_selection_templates (categories : list string) (m : Modal) :
  templates (reset_selection categories m) = templates m.
Proof.
  unfold reset_selection.
  destruct categories as [|c l]; [reflexivity|]. simpl.
  destruct (JS.obj_get (categorizedTemplates m) c) as [l'|]; [|reflexivity].
  destruct (0 <? JS.len l'); reflexivity.
Qed.

(** What [loadTemplates] of either revision leaves in [templates] and
    [categorizedTemplates]: the entries found by the scan, with distinct
    keys, and, unless it throws, the groups of these entries, each sorted. *)
Lemma loadTemplates_index (localeCompare : string -> string -> Z)
  (vault : Host.TAbstractFile) (st : Settings.TinyTemplatesSettings * Modal) :
  let later := (Part000.loadTemplates localeCompare vault st).1.2 in
  let earlier := (MainTs.loadTemplates localeCompare vault st).1.2 in
  templates earlier = templates later
  /\ keyed (templates later)
  /\ (own_categories (templates later) ->
      categorizedTemplates later
      = sort_each_category localeCompare vault (own_groups (templates later))
      /\ categorizedTemplates earlier = categorizedTemplates later).
Proof.
  unfold Part000.loadTemplates, MainTs.loadTemplates.
  pose proof (scan_and_group_cases localeCompare vault st) as Hcases.
  assert (Hk : keyed (templates (scan_and_group localeCompare vault st).1.1.2)).
  { unfold scan_and_group.
    destruct (String.eqb (Settings.templateFolder st.1) "");
      [apply keyed_nil|].
    destruct (Host.getAbstractFileByPath vault (Settings.templateFolder st.1))
      as [[p n b | p n cs]|]; try apply keyed_nil.
    destruct (group_templates [] _) as [grouped [|]];
      cbn [fst snd templates set_categorizedTemplates];
      apply scanFolder_keyed, keyed_nil. }
  destruct (scan_and_group localeCompare vault st) as [[[s m] notices] progress].
  destruct progress; cbn [fst snd] in *.
  - split; [reflexivity|]. split; [exact Hk|]. intros _.
    rewrite Hcases. split; reflexivity.
  - split; [reflexivity|]. split; [exact Hk|]. intros Hown.
    destruct Hcases as (Hno & _). contradiction.
  - rewrite !reset_selection_templates.
    rewrite !(proj2 (reset_selection_index _ _)).
    cbn [templates categorizedTemplates set_sortedCategories].
    split; [reflexivity|]. split; [exact Hk|]. intros _.
    destruct Hcases as (_ & E & _). split; [exact E | reflexivity].
Qed.

(** Once [loadTemplates] of either revision has run and has found no
    template whose category names a member of [Object.prototype], the index
    agrees with the templates found: for a category that names no such
    member, the list of the category holds exactly the paths whose entry in
    [templates] bears that category, each path once.  So every template
    found shows under one category, and no other path shows. *)
Theorem loadTemplates_index_is_consistent
  (localeCompare : string -> string -> Z) (vault : Host.TAbstractFile)
  (st : Settings.TinyTemplatesSettings * Modal) (c : string) :
  let later := (Part000.loadTemplates localeCompare vault st).1.2 in
  let earlier := (MainTs.loadTemplates localeCompare vault st).1.2 in
  own_categories (templates later) ->
  JS.inherited c = false ->
  templates earlier = templates later
  /\ (NoDup (templates_of later (Some c))
      /\ forall p, p ∈ templates_of later (Some c)
                   <-> JS.Map_get (templates later) p = Some (mkTemplateInfo p c))
  /\ (NoDup (templates_of earlier (Some c))
      /\ forall p, p ∈ templates_of earlier (Some c)
                   <-> JS.Map_get (templates earlier) p
                       = Some (mkTemplateInfo p c)).
Proof.
  intros later earlier Hown _.
  destruct (loadTemplates_index localeCompare vault st) as (Et & Hk & Hg).
  fold later in Et, Hk, Hg. fold earlier in Et, Hg.
  destruct (Hg Hown) as [Lc Ec].
  split; [exact Et|].
  unfold templates_of. cbn [default].
  rewrite Et, Ec, Lc.
  split; apply grouped_index; exact Hk.
Qed.

Lemma loadTemplates_index_is_consistent_witness :
  templates OrderSpec.opened_by_main_ts = templates OrderSpec.opened_by_part000
  /\ NoDup (templates_of OrderSpec.opened_by_main_ts (Some "A")).
Proof.
  destruct (loadTemplates_index_is_consistent byteCompare
              OrderSpec.vault_B_then_A (Settings.mkSettings "T" ∅, new_Modal)
              "A") as (E & _ & H & _).
  - repeat constructor.
  - reflexivity.
  - split; [exact E | exact H].
Defined.

End IndexFacts.

(** ** The templates of the settings page *)

Module PageFacts.
Import ScanSpec ScanFacts IndexFacts.

(** After a run of writes, the entry of a key is the one written last for
    it, or the old one when nothing was written for it. *)
Lemma Map_get_last_write {E V} (key : E -> string) (val : E -> V)
  (l : list E) (m : JS.Map V) (k : string) :
  (Forall (fun e => key e <> k) l
   /\ JS.Map_get (foldl (fun acc x => JS.Map_set acc (key x) (val x)) m l) k
      = JS.Map_get m k)
  \/ (exists l1 e l2,
        l = (l1 ++ e :: l2)%list /\ key e = k
        /\ Forall (fun e' => key e' <> k) l2
        /\ JS.Map_get (foldl (fun acc x => JS.Map_set acc (key x) (val x)) m l) k
           = Some (val e)).
Proof.
  induction l as [|x l IH] using rev_ind.
  - left. split; [constructor | reflexivity].
  - rewrite foldl_app. cbn [foldl]. rewrite Map_get_set.
    destruct (String.eqb_spec (key x) k) as [Ek|Hne].
    + right. exists l, x, []. repeat split; [exact Ek | constructor].
    + destruct IH as [[Hno Hg] | (l1 & e & l2 & -> & Ek & Hno & Hg)].
      * left. split; [|exact Hg]. apply Forall_app. split; [exact Hno|].
        constructor; [exact Hne | constructor].
      * right. exists l1, e, (l2 ++ [x])%list. split.
        { rewrite <- app_assoc. reflexivity. }
        split; [exact Ek|]. split; [|exact Hg].
        apply Forall_app. split; [exact Hno|].
        constructor; [exact Hne | constructor].
Qed.

Lemma writes_NoDup {E V} (key : E -> string) (val : E -> V)
  (l : list E) (m : JS.Map V) :
  NoDup m.*1 ->
  NoDup (foldl (fun acc x => JS.Map_set acc (key x) (val x)) m l).*1.
Proof.
  revert m. induction l as [|x l IH]; intros m Hm; [exact Hm|].
  cbn [foldl]. apply IH, Map_set_NoDup, Hm.
Qed.

(** The settings page keeps its templates by basename: after the scan of a
    well-formed tree from the template root into an empty map, the keys are
    distinct, and the entry of a basename is the one of the last file
    scanned that bears it, with its path and the joined names of the folders
    that enclose it.  Of two files with one basename, only the one scanned
    later is listed. *)
Theorem page_scan_keeps_the_last_file_of_a_basename
  (root : Host.TAbstractFile) (afp : list string)
  (s : Settings.TinyTemplatesSettings) (folders : JS.Map (list string))
  (basename : string) :
  Host.well_formed_root root = true ->
  Settings.templateFolder s = Host.path root ->
  let listed :=
    TinyTemplatesSettingTab.templates
      (TinyTemplatesSettingTab.scanFolder root "" afp
         (s, TinyTemplatesSettingTab.mkTab folders [])).2 in
  NoDup listed.*1
  /\ (Forall (fun e => e.1.2 <> basename) (files_of_root root)
      /\ JS.Map_get listed basename = None
      \/ exists before e after,
           files_of_root root = (before ++ e :: after)%list
           /\ e.1.2 = basename
           /\ Forall (fun e' => e'.1.2 <> basename) after
           /\ JS.Map_get listed basename
              = Some (mkTemplateInfo e.1.1 (joined e.2))).
Proof.
  intros Hwf Htf listed. subst listed.
  rewrite (page_scan_root root afp
             (s, TinyTemplatesSettingTab.mkTab folders []) Hwf Htf).
  cbn [snd TinyTemplatesSettingTab.templates].
  unfold page_write. split.
  - apply (writes_NoDup (fun e : string * string * list string => e.1.2)
             (fun e => mkTemplateInfo e.1.1 (joined e.2))). constructor.
  - destruct (Map_get_last_write
                (fun e : string * string * list string => e.1.2)
                (fun e => mkTemplateInfo e.1.1 (joined e.2))
                (files_of_root root) [] basename)
      as [[Hno E] | (l1 & e & l2 & El & Ek & Hno & E)].
    + left. split; [exact Hno | exact E].
    + right. exists l1, e, l2. repeat split; assumption.
Qed.

Lemma page_scan_keeps_the_last_file_of_a_basename_witness :
  NoDup
    (TinyTemplatesSettingTab.templates
       (TinyTemplatesSettingTab.scanFolder nested_tree "" []
          (Settings.mkSettings "T" ∅, TinyTemplatesSettingTab.mkTab [] [])).2).*1.
Proof.
  exact (proj1 (page_scan_keeps_the_last_file_of_a_basename nested_tree []
                  (Settings.mkSettings "T" ∅) [] "a" eq_refl eq_refl)).
Defined.

End PageFacts.

(** ** A click on a card *)

Module ClickFacts.
Import TinyTemplatesModal CursorSpec CursorFacts.

(** In the later revision a click on a card of the rendered list puts the
    cursor on that card: the two indices that the card carries address,
    in [sortedCategories], the template of the card, which becomes the
    selected one; and the path of a card names a file. *)
Theorem part000_click_puts_the_cursor_on_the_card
  (vault : Host.TAbstractFile) (m : Modal) (group : string * list Card)
  (card : Card) :
  group ∈ Part000.renderTemplateList vault m ->
  card ∈ group.2 ->
  let clicked :=
    selectTemplate (card_categoryIndex card) (card_templateIndex card)
      (Some (card_path card)) m in
  addresses (sortedCategories clicked) clicked (card_path card)
  /\ selected_at_cursor (sortedCategories clicked) clicked
  /\ exists p n b,
       Host.getAbstractFileByPath vault (card_path card) = Some (Host.TFile p n b).
Proof.
  intros Hg Hc clicked.
  unfold Part000.renderTemplateList, render_categories in Hg.
  apply elem_of_lookup_imap in Hg. destruct Hg as (ci & category & -> & Hci).
  cbn [snd] in Hc. apply list_elem_of_omap in Hc.
  destruct Hc as (o & Ho & Hid). simpl in Hid. subst o.
  apply elem_of_lookup_imap in Ho. destruct Ho as (ti & p & Hcard & Hti).
  destruct (Host.getAbstractFileByPath vault p) as [[fp fn fb | ? ? ?]|] eqn:G;
    try discriminate.
  injection Hcard as ->.
  assert (Ha : addresses (sortedCategories clicked) clicked p).
  { exists category. subst clicked.
    cbn [sortedCategories currentCategoryIndex currentTemplateIndex
         selectTemplate card_categoryIndex card_templateIndex card_path].
    rewrite !index_of_nat. split; [exact Hci|]. exact Hti. }
  cbn [card_path]. split; [exact Ha|]. split.
  - exists p. split; [exact Ha | reflexivity].
  - rewrite G. exists fp, fn, fb. reflexivity.
Qed.

Lemma part000_click_puts_the_cursor_on_the_card_witness :
  addresses (sortedCategories OrderSpec.opened_by_part000)
    (selectTemplate 1 0 (Some "T/B/b.md") OrderSpec.opened_by_part000)
    "T/B/b.md".
Proof.
  refine (proj1 (part000_click_puts_the_cursor_on_the_card
                   OrderSpec.vault_B_then_A OrderSpec.opened_by_part000
                   ("B", [mkCard "T/B/b.md" 1 0]) (mkCard "T/B/b.md" 1 0) _ _)).
  - vm_compute. apply list_elem_of_further, list_elem_of_here.
  - apply list_elem_of_here.
Defined.

End ClickFacts.

(** ** The list of the settings page *)

Module TemplateListFacts.
Import TemplateList OrderSpec GroupSpec OrderFacts ScanFacts IndexFacts.

(** [Object.keys] lists every key once. *)
Lemma Object_keys_permutation {V} (o : JS.Obj V) : JS.Object_keys o ≡ₚ o.*1.
Proof.
  unfold JS.Object_keys. rewrite (sort_permutation _ (JS.index_keys o)).
  unfold JS.index_keys, JS.name_keys.
  induction o as [|[k v] o IH]; [reflexivity|].
  cbn [omap list_omap fmap list_fmap fst snd]. simpl.
  destruct (JS.array_index k); simpl.
  - rewrite IH. reflexivity.
  - rewrite <- Permutation_middle, IH. reflexivity.
Qed.

Lemma entries_of_keys {V} (o l : JS.Obj V) :
  (forall kv, kv ∈ l -> JS.obj_get o kv.1 = Some kv.2) ->
  omap (fun k => (fun v => (k, v)) <$> JS.obj_get o k) l.*1 = l.
Proof.
  induction l as [|[k v] l IH]; intros Hl; [reflexivity|].
  pose proof (Hl (k, v) (list_elem_of_here _ _)) as Hk. simpl in Hk.
  simpl. rewrite Hk. simpl. f_equal. apply IH. intros kv Hin. apply Hl, list_elem_of_further, Hin.
Qed.

(** [Object.entries] lists every entry of an object once. *)
Lemma Object_entries_permutation {V} (o : JS.Obj V) :
  NoDup o.*1 -> Object_entries o ≡ₚ o.
Proof.
  intros Hnd. unfold Object_entries.
  rewrite (Object_keys_permutation o).
  rewrite (entries_of_keys o o); [reflexivity|].
  intros [k v] Hin. apply (Map_get_elem o k v Hnd), Hin.
Qed.

(** Pushing an item to the list of a category adds that item to the items
    of the object and keeps its keys distinct. *)
Lemma push_items {A} (o : JS.Obj (list A)) (k : string) (x : A) :
  concat (JS.obj_set o k (default [] (JS.obj_get o k) ++ [x])%list).*2
  ≡ₚ x :: concat o.*2.
Proof.
  unfold JS.obj_set, JS.obj_get.
  induction o as [|[k' v'] o IH]; simpl.
  - reflexivity.
  - destruct (String.eqb k' k); simpl.
    + rewrite <- app_assoc. simpl.
      rewrite <- Permutation_middle. reflexivity.
    + rewrite IH. rewrite <- Permutation_middle. reflexivity.
Qed.

Lemma sorted_groups_items {A} (cmp : A -> A -> Z) (o : JS.Obj (list A)) :
  concat ((fun kv : string * list A => (kv.1, JS.sort cmp kv.2)) <$> o).*2
  ≡ₚ concat o.*2.
Proof.
  induction o as [|[k v] o IH]; [reflexivity|].
  simpl. rewrite IH, (sort_permutation cmp v). reflexivity.
Qed.

Lemma sorted_groups_keys {A} (f : list A -> list A) (o : JS.Obj (list A)) :
  ((fun kv : string * list A => (kv.1, f kv.2)) <$> o).*1 = o.*1.
Proof.
  induction o as [|[k v] o IH]; [reflexivity|]. simpl. f_equal. exact IH.
Qed.

Lemma obj_push_own {A} (o : JS.Obj (list A)) (k : string) (x : A) :
  JS.inherited k = false ->
  JS.obj_push o k x
  = Some (JS.obj_set o k (default [] (JS.obj_get o k) ++ [x])%list).
Proof.
  intros Hk. unfold JS.obj_push.
  destruct (JS.obj_get o k) as [l|]; [reflexivity|].
  rewrite Hk. reflexivity.
Qed.

Lemma obj_push_inherited {A} (o : JS.Obj (list A)) (k : string) (x : A) :
  Forall (fun kv => JS.inherited kv.1 = false) o ->
  JS.inherited k = true ->
  JS.obj_push o k x = None.
Proof.
  intros Ho Hk. unfold JS.obj_push.
  destruct (JS.obj_get o k) as [l|] eqn:G.
  - rewrite (GroupFacts.Map_get_own o k l Ho G) in Hk. discriminate.
  - rewrite Hk. reflexivity.
Qed.

(** The loop over the templates throws exactly when an entry has a category
    that names a member of [Object.prototype]. *)
Lemma list_items_own (entries : JS.Map TemplateInfo) :
  forall st,
    own_categories entries ->
    list_items st entries
    = Some (foldl (fun (st : JS.Obj (list Item) * list Item)
                       (e : string * TemplateInfo) =>
                     if String.eqb (category e.2) "" then
                       (st.1, (st.2 ++ [mkItem (path e.2) e.1])%list)
                     else
                       (JS.obj_set st.1 (category e.2)
                          (default [] (JS.obj_get st.1 (category e.2))
                           ++ [mkItem (path e.2) e.1])%list, st.2))
              st entries).
Proof.
  induction entries as [|e entries IH]; intros st Hown; [reflexivity|].
  apply Forall_cons in Hown. destruct Hown as [He Hown].
  cbn [list_items foldl]. unfold list_item.
  destruct (String.eqb (category e.2) ""); [apply IH, Hown|].
  rewrite (obj_push_own _ _ _ He). apply IH, Hown.
Qed.

Lemma list_items_throws (entries : JS.Map TemplateInfo) :
  forall st,
    Forall (fun kv => JS.inherited kv.1 = false) st.1 ->
    ~ own_categories entries ->
    list_items st entries = None.
Proof.
  induction entries as [|e entries IH]; intros st Hst Hno.
  - exfalso. apply Hno. constructor.
  - cbn [list_items]. unfold list_item.
    destruct (JS.inherited (category e.2)) eqn:He.
    + destruct (String.eqb_spec (category e.2) "") as [E|_].
      { rewrite E in He. discriminate. }
      rewrite (obj_push_inherited _ _ _ Hst He). reflexivity.
    + assert (Hno' : ~ own_categories entries).
      { intros H. apply Hno. constructor; assumption. }
      destruct (String.eqb (category e.2) ""); [apply IH; assumption|].
      rewrite (obj_push_own _ _ _ He). apply IH; [|exact Hno'].
      apply GroupFacts.Map_set_own; assumption.
Qed.

(** The settings page and the entries of its [templates].  When an entry
    has a category that names a member of [Object.prototype], the loop
    throws and no group is rendered.  Otherwise every entry is shown once:
    the items of the group without category and of the groups of the
    categories are, together, the entries of the map.  The first group and
    the group of each category are in the order of the collation of the
    basenames, the categories in the order of the collation of their names;
    no category has the empty name and none is empty. *)
Theorem settings_page_lists_every_template
  (localeCompare : string -> string -> Z) (templates : JS.Map TemplateInfo) :
  (forall x y, 0 < localeCompare x y -> localeCompare y x <= 0) ->
  (forall x y z, localeCompare x y <= 0 -> localeCompare y z <= 0 ->
                 localeCompare x z <= 0) ->
  let byBasename a b := localeCompare (item_basename a) (item_basename b) in
  (~ own_categories templates ->
   displayTemplateSettings localeCompare templates = None)
  /\ (own_categories templates ->
      exists shown,
        displayTemplateSettings localeCompare templates = Some shown
        /\ (shown.1 ++ concat shown.2.*2
            ≡ₚ (fun e => mkItem (path e.2) e.1) <$> templates)%list
        /\ StronglySorted (before_or_equal byBasename) shown.1
        /\ Forall (fun g => StronglySorted (before_or_equal byBasename) g.2)
             shown.2
        /\ StronglySorted
             (before_or_equal
                (fun a b : string * list Item => localeCompare a.1 b.1))
             shown.2
        /\ Forall (fun g => g.1 <> "" /\ g.2 <> []) shown.2).
Proof.
  intros Htot Htrans byBasename. split.
  { intros Hno. unfold displayTemplateSettings.
    rewrite (list_items_throws templates ([], [])); [reflexivity | | exact Hno].
    constructor. }
  intros Hown. unfold displayTemplateSettings.
  rewrite (list_items_own templates ([], []) Hown).
  set (step := fun (st : JS.Obj (list Item) * list Item)
                   (e : string * TemplateInfo) =>
                 if String.eqb (category e.2) "" then
                   (st.1, (st.2 ++ [mkItem (path e.2) e.1])%list)
                 else
                   (JS.obj_set st.1 (category e.2)
                      (default [] (JS.obj_get st.1 (category e.2))
                       ++ [mkItem (path e.2) e.1])%list, st.2)).
  fold byBasename. eexists. split; [reflexivity|].
  assert (Inv : forall l st,
    NoDup st.1.*1 -> Forall (fun g => g.1 <> "" /\ g.2 <> []) st.1 ->
    let st' := foldl step st l in
    NoDup st'.1.*1
    /\ Forall (fun g => g.1 <> "" /\ g.2 <> []) st'.1
    /\ (st'.2 ++ concat st'.1.*2
        ≡ₚ (st.2 ++ concat st.1.*2)
           ++ ((fun e => mkItem (path e.2) e.1) <$> l))%list).
  { induction l as [|e l IH]; intros st Hnd Hall.
    - simpl. split; [exact Hnd|]. split; [exact Hall|].
      rewrite app_nil_r. reflexivity.
    - cbn [foldl].
      destruct (String.eqb_spec (category e.2) "") as [Ec|Hc].
      + assert (Es : step st e
                     = (st.1, (st.2 ++ [mkItem (path e.2) e.1])%list)).
        { unfold step. rewrite Ec. reflexivity. }
        rewrite Es.
        destruct (IH (st.1, (st.2 ++ [mkItem (path e.2) e.1])%list) Hnd Hall)
          as (H1 & H2 & H3).
        split; [exact H1|]. split; [exact H2|].
        rewrite H3. cbn [fst snd fmap list_fmap].
        rewrite <- !app_assoc. apply Permutation_app_head.
        simpl. rewrite <- Permutation_middle.
        rewrite (Permutation_app_comm (concat st.1.*2)). reflexivity.
      + assert (Es : step st e
                     = (JS.obj_set st.1 (category e.2)
                          (default [] (JS.obj_get st.1 (category e.2))
                           ++ [mkItem (path e.2) e.1])%list, st.2)).
        { unfold step. apply String.eqb_neq in Hc. rewrite Hc. reflexivity. }
        rewrite Es.
        destruct (IH (JS.obj_set st.1 (category e.2)
                        (default [] (JS.obj_get st.1 (category e.2))
                         ++ [mkItem (path e.2) e.1])%list, st.2))
          as (H1 & H2 & H3).
        * apply Map_set_NoDup, Hnd.
        * apply (Map_set_entries (fun k v => k <> "" /\ v <> [])); [exact Hall|].
          split; [exact Hc|].
          destruct (default [] (JS.obj_get st.1 (category e.2))); discriminate.
        * split; [exact H1|]. split; [exact H2|].
          rewrite H3. cbn [fst snd fmap list_fmap].
          rewrite push_items. rewrite <- !app_assoc.
          apply Permutation_app_head. simpl.
          rewrite <- Permutation_middle. reflexivity. }
  destruct (Inv templates ([], [])) as (Hnd & Hall & Hperm);
    [constructor | constructor |].
  set (st := foldl step ([], []) templates) in *.
  set (sorted := (fun kv : string * list Item =>
                    (kv.1, JS.sort byBasename kv.2)) <$> st.1).
  assert (Hnd' : NoDup sorted.*1).
  { unfold sorted. rewrite sorted_groups_keys. exact Hnd. }
  pose proof (Object_entries_permutation sorted Hnd') as He.
  pose proof (sort_permutation
                (fun a b : string * list Item => localeCompare a.1 b.1)
                (Object_entries sorted)) as Hs.
  assert (Hcmp_tot : forall a b : Item,
            0 < byBasename a b -> byBasename b a <= 0)
    by (intros a b; apply Htot).
  assert (Hcmp_trans : forall a b c : Item,
            byBasename a b <= 0 -> byBasename b c <= 0 -> byBasename a c <= 0)
    by (intros a b c; apply Htrans).
  cbn [fst snd]. split; [|split; [|split; [|split]]].
  - rewrite (sort_permutation byBasename st.2).
    rewrite Hs, He. unfold sorted. rewrite sorted_groups_items.
    rewrite Hperm. reflexivity.
  - apply sort_sorted; assumption.
  - rewrite Hs, He. unfold sorted. apply Forall_fmap. apply Forall_forall.
    intros [k v] _. simpl. apply sort_sorted; assumption.
  - apply sort_sorted.
    + intros a b. apply Htot.
    + intros a b c. apply Htrans.
  - rewrite Hs, He. unfold sorted. apply Forall_fmap.
    eapply Forall_impl; [exact Hall|]. intros [k v] [Hk Hv]. simpl in *.
    split; [exact Hk|]. intros E. apply Hv.
    apply Permutation_nil_r. rewrite <- E. symmetry.
    apply sort_permutation.
Qed.

Lemma settings_page_lists_every_template_witness :
  displayTemplateSettings byteCompare
    [("b", mkTemplateInfo "T/b.md" ""); ("x", mkTemplateInfo "T/toString/x.md" "toString");
     ("a", mkTemplateInfo "T/a.md" "")]
  = None
  /\ exists shown,
       displayTemplateSettings byteCompare
         [("b", mkTemplateInfo "T/b.md" ""); ("n", mkTemplateInfo "T/W/n.md" "W");
          ("a", mkTemplateInfo "T/a.md" "")]
       = Some shown
       /\ StronglySorted
            (before_or_equal
               (fun a b => byteCompare (item_basename a) (item_basename b)))
            shown.1.
Proof.
  split.
  - apply (proj1 (settings_page_lists_every_template byteCompare
                    [("b", mkTemplateInfo "T/b.md" "");
                     ("x", mkTemplateInfo "T/toString/x.md" "toString");
                     ("a", mkTemplateInfo "T/a.md" "")]
                    byteCompare_total byteCompare_trans)).
    intros H. apply Forall_cons in H. destruct H as [_ H].
    apply Forall_cons in H. destruct H as [H _]. vm_compute in H. discriminate.
  - destruct (proj2 (settings_page_lists_every_template byteCompare
                       [("b", mkTemplateInfo "T/b.md" "");
                        ("n", mkTemplateInfo "T/W/n.md" "W");
                        ("a", mkTemplateInfo "T/a.md" "")]
                       byteCompare_total byteCompare_trans))
      as (shown & E & _ & Hs & _).
    + repeat constructor.
    + exists shown. split; [exact E | exact Hs].
Defined.

End TemplateListFacts.

(** ** The commands of the earlier revision *)

Module CommandFacts.
Import Settings Commands CommandSpec.

Lemma append_cancel_l (a x y : string) : a +:+ x = a +:+ y -> x = y.
Proof.
  induction a as [|c a IH]; intros E; [exact E|].
  change (String c (a +:+ x) = String c (a +:+ y)) in E.
  injection E as E. apply IH, E.
Qed.

(** Distinct templates have distinct commands, none of them the command that
    opens the picker. *)
Lemma template_command_inj (manifest_id p q : string) :
  full_id manifest_id (template_command p)
  = full_id manifest_id (template_command q) -> p = q.
Proof.
  unfold full_id, template_command. intros E.
  apply append_cancel_l, append_cancel_l in E.
  apply (append_cancel_l "create-from-template-"), E.
Qed.

Lemma template_command_not_open (manifest_id p : string) :
  full_id manifest_id "open" <> full_id manifest_id (template_command p).
Proof.
  unfold full_id, template_command. intros E.
  apply append_cancel_l, append_cancel_l in E. discriminate.
Qed.

Lemma onload_lookup (manifest_id : string) (settings : TinyTemplatesSettings)
  (r : gmap string string) (p : string) :
  onload manifest_id settings r !! full_id manifest_id (template_command p)
  = match templates settings !! p with
    | Some t =>
        if default false (isCommandRegistered t) then Some (name t)
        else r !! full_id manifest_id (template_command p)
    | None => r !! full_id manifest_id (template_command p)
    end.
Proof.
  unfold onload.
  apply (map_fold_weak_ind
           (fun (res : gmap string string) (m : gmap string TemplateSettings) =>
              res !! full_id manifest_id (template_command p)
              = match m !! p with
                | Some t =>
                    if default false (isCommandRegistered t) then Some (name t)
                    else r !! full_id manifest_id (template_command p)
                | None => r !! full_id manifest_id (template_command p)
                end)).
  - rewrite lookup_empty. unfold addCommand.
    apply lookup_insert_ne, template_command_not_open.
  - intros q t m res Hq IH. destruct (decide (q = p)) as [->|Hne].
    + rewrite lookup_insert_eq.
      destruct (default false (isCommandRegistered t)).
      * unfold addCommand. apply lookup_insert_eq.
      * rewrite IH, Hq. reflexivity.
    + rewrite (lookup_insert_ne m) by exact Hne. rewrite <- IH.
      destruct (default false (isCommandRegistered t)); [|reflexivity].
      unfold addCommand. apply lookup_insert_ne.
      intros E. apply Hne. apply (template_command_inj manifest_id), E.
Qed.

Lemma onload_open (manifest_id : string) (settings : TinyTemplatesSettings)
  (r : gmap string string) :
  onload manifest_id settings r !! full_id manifest_id "open"
  = Some "Open Tiny Templates".
Proof.
  unfold onload.
  apply (map_fold_weak_ind
           (fun (res : gmap string string) (m : gmap string TemplateSettings) =>
              res !! full_id manifest_id "open" = Some "Open Tiny Templates")).
  - unfold addCommand. apply lookup_insert_eq.
  - intros q t m res Hq IH.
    destruct (default false (isCommandRegistered t)); [|exact IH].
    cbv beta iota. unfold addCommand. rewrite lookup_insert_ne; [exact IH|].
    intros E. symmetry in E. revert E. apply template_command_not_open.
Qed.

(** [onload] of the earlier revision, on a command list without commands of
    templates, registers the command that opens the picker and, for each
    stored template, its command exactly when [isCommandRegistered] is true,
    under the stored name: the list and the settings are in step. *)
Theorem onload_registers_the_flagged_templates (manifest_id : string)
  (settings : TinyTemplatesSettings) (r : gmap string string) :
  (forall p, r !! full_id manifest_id (template_command p) = None) ->
  let r' := onload manifest_id settings r in
  r' !! full_id manifest_id "open" = Some "Open Tiny Templates"
  /\ in_step manifest_id settings r'
  /\ forall p t,
       templates settings !! p = Some t ->
       isCommandRegistered t = Some true ->
       r' !! full_id manifest_id (template_command p) = Some (name t).
Proof.
  intros Hfree r'. subst r'.
  split; [apply onload_open|]. split.
  - intros p. rewrite onload_lookup, Hfree. unfold isRegistered.
    destruct (templates settings !! p) as [t|]; simpl.
    + destruct (default false (isCommandRegistered t)).
      * split; [reflexivity | intros _; eexists; reflexivity].
      * split; [intros [x Hx]; discriminate | discriminate].
    + split; [intros [x Hx]; discriminate | discriminate].
  - intros p t Ht Hflag. rewrite onload_lookup, Ht, Hflag. reflexivity.
Qed.

Lemma onload_registers_the_flagged_templates_witness :
  onload "tiny-templates"
    (mkSettings "T"
       (<["T/a.md" := mkTemplateSettings "a" None None None (Some true)]> ∅)) ∅
    !! full_id "tiny-templates" (template_command "T/a.md")
  = Some "a".
Proof.
  refine (proj2 (proj2 (onload_registers_the_flagged_templates "tiny-templates"
                          (mkSettings "T"
                             (<["T/a.md" :=
                                  mkTemplateSettings "a" None None None
                                    (Some true)]> ∅)) ∅ _))
            "T/a.md" (mkTemplateSettings "a" None None None (Some true)) _ _).
  - intros p. apply lookup_empty.
  - vm_compute. reflexivity.
  - reflexivity.
Defined.

(** The click handler of the command button keeps the command list and the
    settings in step, whatever value of [isRegistered] the button was
    rendered with; it changes the entry and the command of its template
    only.  The handler does not render the button again: a second click
    finds the same [isRegistered] and leaves the settings and the command
    list as the first click left them. *)
Theorem onClick_keeps_commands_in_step (manifest_id : string)
  (rendered : bool) (templatePath basename : string)
  (settings : TinyTemplatesSettings) (r : gmap string string) (notices : list string) :
  in_step manifest_id settings r ->
  let st' := onClick manifest_id rendered templatePath basename
               (settings, r, notices) in
  in_step manifest_id st'.1.1 st'.1.2
  /\ isRegistered st'.1.1 templatePath = negb rendered
  /\ (forall q, q <> templatePath ->
        templates st'.1.1 !! q = templates settings !! q
        /\ st'.1.2 !! full_id manifest_id (template_command q)
           = r !! full_id manifest_id (template_command q))
  /\ (onClick manifest_id rendered templatePath basename st').1 = st'.1.
Proof.
  intros Hstep st'. subst st'. unfold onClick.
  set (t := default (only_name basename) (templates settings !! templatePath)).
  destruct rendered; cbn [fst snd negb].
  - split; [|split; [|split]].
    + intros q. unfold isRegistered. cbn [templates].
      destruct (decide (templatePath = q)) as [<-|Hne].
      * unfold removeCommand. rewrite lookup_delete_eq, lookup_insert_eq. simpl.
        split; [intros [x Hx]; discriminate | discriminate].
      * unfold removeCommand.
        rewrite lookup_delete_ne, lookup_insert_ne by
          (try exact Hne; intros E; apply Hne;
           apply (template_command_inj manifest_id), E).
        apply Hstep.
    + unfold isRegistered. cbn [templates]. rewrite lookup_insert_eq.
      reflexivity.
    + intros q Hne. cbn [templates]. unfold removeCommand.
      rewrite lookup_insert_ne by congruence.
      rewrite lookup_delete_ne; [split; reflexivity|].
      intros E. apply Hne. symmetry.
      apply (template_command_inj manifest_id), E.
    + cbn [templates templateFolder]. rewrite lookup_insert_eq. cbn [default].
      rewrite insert_insert_eq. unfold removeCommand.
      rewrite delete_delete_eq. reflexivity.
  - split; [|split; [|split]].
    + intros q. unfold isRegistered. cbn [templates].
      destruct (decide (templatePath = q)) as [<-|Hne].
      * unfold addCommand. rewrite !lookup_insert_eq. simpl.
        split; [reflexivity | intros _; eexists; reflexivity].
      * unfold addCommand.
        rewrite !lookup_insert_ne by
          (try exact Hne; intros E; apply Hne;
           apply (template_command_inj manifest_id), E).
        apply Hstep.
    + unfold isRegistered. cbn [templates]. rewrite lookup_insert_eq.
      reflexivity.
    + intros q Hne. cbn [templates]. unfold addCommand.
      rewrite lookup_insert_ne by congruence.
      rewrite lookup_insert_ne; [split; reflexivity|].
      intros E. apply Hne. symmetry.
      apply (template_command_inj manifest_id), E.
    + cbn [templates templateFolder]. rewrite lookup_insert_eq. cbn [default].
      rewrite insert_insert_eq. unfold addCommand.
      rewrite insert_insert_eq. reflexivity.
Qed.

Lemma onClick_keeps_commands_in_step_witness :
  isRegistered
    (onClick "tiny-templates" false "T/a.md" "a" (mkSettings "T" ∅, ∅, [])).1.1
    "T/a.md" = true.
Proof.
  refine (proj1 (proj2 (onClick_keeps_commands_in_step "tiny-templates" false
                          "T/a.md" "a" (mkSettings "T" ∅) ∅ [] _))).
  intros p. rewrite lookup_empty. unfold isRegistered. simpl.
  rewrite lookup_empty. simpl.
  split; [intros [x Hx]; discriminate | discriminate].
Defined.

End CommandFacts.
